(** * Metatron: the roster reconciliation engine of the guild tracker bot

    A shallow embedding of [src/main.py]: the data access layer
    ([Database]), the verification client ([AQWUtils.check_aqw_guild]), the
    display synchronizer ([DiscordUtils.create_list_embeds],
    [DiscordUtils.update_list]) and the periodic sweep ([live_guild_check]).

    Conventions of the embedding.
    - Python [str] values are Rocq strings of bytes. [Text.lower],
      [Text.upper] and [Text.strip] are [str.lower], [str.upper] and
      [str.strip] on ASCII text: they fold the 26 letters and strip the
      ASCII white space, where Python also folds and strips characters
      outside ASCII. A statement that depends on the difference carries the
      hypothesis [Text.isascii].
    - Durations and the clock are integers counted in milliseconds
      ([asyncio.sleep(2.5)] is [sleep 2500]); [time.time()] truncated by
      [int(...)] is the clock divided by 1000.
    - The three SQLite tables are lists of rows in row-id order.
    - The messaging platform and the verification source are part of the
      state ([world]): channels with their messages, a counter for fresh
      message ids, and two scripts that say, call by call, whether the next
      platform call is rejected and what the next HTTP request returns.
    - Python exceptions are values of [exn]; code runs in a state and
      exception monad [M]. *)

From Stdlib Require Import ZArith String Ascii List Lia DecimalString.
From stdpp Require Import base list strings sorting.

Open Scope string_scope.
Open Scope Z_scope.
Open Scope list_scope.

(** ** Configuration and constants (main.py, lines 43-59) *)

Definition EMBED_COLOR : Z := 0x5865F2.
Definition MEMBERS_PER_FIELD : nat := 15.
Definition MAX_FIELDS_PER_EMBED : nat := 3.

Definition REQUEST_DELAY : Z := 3.
Definition MAX_RETRIES : nat := 1.
Definition RETRY_DELAY : Z := 5.

Definition CHECK_LIMIT : nat := 15.
Definition TASK_INTERVAL : Z := 2.

(** Seconds to the milliseconds of the clock. *)
Definition seconds (s : Z) : Z := s * 1000.

(** ** Python text operations *)

Module Text.

Definition is_upper (c : ascii) : bool :=
  let n := nat_of_ascii c in (65 <=? n)%nat && (n <=? 90)%nat.

Definition is_lower (c : ascii) : bool :=
  let n := nat_of_ascii c in (97 <=? n)%nat && (n <=? 122)%nat.

Definition lower_char (c : ascii) : ascii :=
  if is_upper c then ascii_of_nat (nat_of_ascii c + 32) else c.

Definition upper_char (c : ascii) : ascii :=
  if is_lower c then ascii_of_nat (nat_of_ascii c - 32) else c.

Fixpoint map_chars (f : ascii -> ascii) (s : string) : string :=
  match s with
  | EmptyString => EmptyString
  | String c s' => String (f c) (map_chars f s')
  end.

(** [s.lower()] for ASCII [s]; outside ASCII Python folds more. *)
Definition lower (s : string) : string := map_chars lower_char s.

(** [s.upper()] for ASCII [s]; outside ASCII Python folds more and may
    change the length of the text. *)
Definition upper (s : string) : string := map_chars upper_char s.

(** White space as [str.strip()] sees it in the ASCII range:
    tab, line feed, vertical tab, form feed, carriage return, the four
    separators 28-31 and the space. *)
Definition is_space (c : ascii) : bool :=
  let n := nat_of_ascii c in
  ((9 <=? n)%nat && (n <=? 13)%nat) || ((28 <=? n)%nat && (n <=? 32)%nat).

Fixpoint lstrip (s : string) : string :=
  match s with
  | EmptyString => EmptyString
  | String c s' => if is_space c then lstrip s' else s
  end.

(** Drops the trailing white space: a character is kept when something
    other than white space follows it or when it is not white space. *)
Fixpoint rstrip (s : string) : string :=
  match s with
  | EmptyString => EmptyString
  | String c s' =>
      match rstrip s' with
      | EmptyString => if is_space c then EmptyString else String c EmptyString
      | r => String c r
      end
  end.

(** [s.strip()] for ASCII [s]; Python also strips the white space outside
    ASCII. *)
Definition strip (s : string) : string := rstrip (lstrip s).

(** [str(n)] for a natural number. *)
Definition of_nat (n : nat) : string := NilZero.string_of_uint (Nat.to_uint n).

Fixpoint spaces (n : nat) : string :=
  match n with
  | O => EmptyString
  | S n' => String " " (spaces n')
  end.

(** The format specification [{n:>3}]: right aligned in a field of
    width 3, never truncated. *)
Definition rjust3 (n : nat) : string :=
  let s := of_nat n in spaces (3 - String.length s) +:+ s.

(** ["\n".join(lines)] *)
Fixpoint join_lines (lines : list string) : string :=
  match lines with
  | [] => EmptyString
  | [l] => l
  | l :: rest => l +:+ String "010" (join_lines rest)
  end.

(** The number of lines of a joined text (0 for the empty text). *)
Fixpoint count_newlines (s : string) : nat :=
  match s with
  | EmptyString => O
  | String c s' =>
      ((if Ascii.eqb c "010" then 1 else 0) + count_newlines s')%nat
  end.

Definition line_count (s : string) : nat :=
  match s with
  | EmptyString => O
  | _ => S (count_newlines s)
  end.

(** [s.isascii()]: the text on which the operations above are Python's. *)
Fixpoint isascii (s : string) : bool :=
  match s with
  | EmptyString => true
  | String c s' => (nat_of_ascii c <? 128)%nat && isascii s'
  end.

End Text.

(** ** Python slices, ranges and sorting *)

(** [xs[a:b]] for [0 <= a]. *)
Definition slice {A} (a b : nat) (xs : list A) : list A :=
  take (b - a) (drop a xs).

(** [range(0, stop, step)] for a positive [step]: 0, step, 2*step, ...
    below [stop]. *)
Definition range_step (stop step : nat) : list nat :=
  (fun k => (k * step)%nat) <$> seq 0 ((stop + step - 1) / step)%nat.

(** [enumerate(xs)] with the index starting at [start]. *)
Fixpoint enumerate_from {A} (start : nat) (xs : list A) : list (nat * A) :=
  match xs with
  | [] => []
  | x :: rest => (start, x) :: enumerate_from (S start) rest
  end.

Definition enumerate {A} (xs : list A) : list (nat * A) := enumerate_from 0 xs.

(** [ORDER BY]: a stable insertion sort by a total pre-order [leb]; rows
    that compare equal keep the order in which they are read. *)
Section Sorting.
Context {A : Type} (leb : A -> A -> bool).

Fixpoint insert_sorted (x : A) (l : list A) : list A :=
  match l with
  | [] => [x]
  | y :: l' => if leb x y then x :: l else y :: insert_sorted x l'
  end.

Definition order_by (l : list A) : list A := foldr insert_sorted [] l.
End Sorting.

(** ** Data access layer (class [Database], main.py lines 75-248) *)

(** A row of table [servers]; primary key [server_id]. The three id
    columns hold the decimal text of a Discord id or NULL ([None]). *)
Record server_row := {
  server_id : string;
  admin_role_id : option Z;
  list_channel_id : option Z;
  log_channel_id : option Z;
  guild_name : string;
  autoremove : bool
}.

(** A row of table [members]; primary key [(server_id, normalized_name)]. *)
Record member_row := {
  m_server_id : string;
  m_name : string;
  m_normalized_name : string;
  m_status : string;
  m_last_checked : Z
}.

(** A row of table [messages]; primary key [(server_id, message_id)]. The
    message id is stored as [str(msg_id)] and read back with [int(...)]. *)
Record message_row := {
  g_server_id : string;
  g_message_id : Z;
  g_embed_index : nat
}.

Record database := {
  servers : list server_row;
  members : list member_row;
  messages : list message_row
}.

(** The dictionary [get_server_config] builds from a row. *)
Record config := {
  c_admin_role_id : option Z;
  c_list_channel_id : option Z;
  c_log_channel_id : option Z;
  c_guild_name : string;
  c_autoremove : bool
}.

Module Database.

Definition get_server_config (db : database) (sid : string) : option config :=
  match filter (fun r => server_id r = sid) (servers db) with
  | [] => None
  | row :: _ =>
      Some {| c_admin_role_id := admin_role_id row;
              c_list_channel_id := list_channel_id row;
              c_log_channel_id := log_channel_id row;
              c_guild_name := guild_name row;
              c_autoremove := autoremove row |}
  end.

(** [INSERT OR REPLACE]: the row with the same key is deleted and the new
    row is added at the end of the table. *)
Definition save_server_config (db : database) (sid : string) (c : config)
  : database :=
  {| servers :=
       filter (fun r => server_id r <> sid) (servers db)
       ++ [ {| server_id := sid;
               admin_role_id := c_admin_role_id c;
               list_channel_id := c_list_channel_id c;
               log_channel_id := c_log_channel_id c;
               guild_name := c_guild_name c;
               autoremove := c_autoremove c |} ];
     members := members db;
     messages := messages db |}.

(** [ORDER BY name COLLATE NOCASE]: byte order after folding the ASCII
    upper-case letters. *)
Definition nocase_leb (a b : member_row) : bool :=
  String.leb (Text.lower (m_name a)) (Text.lower (m_name b)).

Definition get_members (db : database) (sid : string)
  : list (string * string) :=
  (fun r => (m_name r, m_status r))
    <$> order_by nocase_leb (filter (fun r => m_server_id r = sid) (members db)).

Definition is_member_key (sid normalized : string) (r : member_row) : Prop :=
  m_server_id r = sid /\ m_normalized_name r = normalized.

#[global] Instance is_member_key_dec sid normalized r :
  Decision (is_member_key sid normalized r).
Proof. unfold is_member_key. apply _. Defined.

Definition member_exists (db : database) (sid name : string) : bool :=
  bool_decide (Exists (is_member_key sid (Text.lower name)) (members db)).

(** [INSERT OR IGNORE]: nothing happens when the key is taken. [now] is
    [int(time.time())]. *)
Definition add_member (db : database) (now : Z) (sid name : string)
  : database :=
  if member_exists db sid name then db
  else
    {| servers := servers db;
       members :=
         members db
         ++ [ {| m_server_id := sid;
                 m_name := name;
                 m_normalized_name := Text.lower name;
                 m_status := "";
                 m_last_checked := now |} ];
       messages := messages db |}.

Definition remove_member (db : database) (sid name : string) : database :=
  {| servers := servers db;
     members :=
       filter (fun r => ~ is_member_key sid (Text.lower name) r) (members db);
     messages := messages db |}.

Definition touch (now : Z) (r : member_row) : member_row :=
  {| m_server_id := m_server_id r;
     m_name := m_name r;
     m_normalized_name := m_normalized_name r;
     m_status := m_status r;
     m_last_checked := now |}.

Definition update_last_checked (db : database) (now : Z) (sid name : string)
  : database :=
  {| servers := servers db;
     members :=
       (fun r =>
          if decide (is_member_key sid (Text.lower name) r)
          then touch now r else r) <$> members db;
     messages := messages db |}.

(** [save_message_ids] deletes the rows of the server and inserts one row
    per id, numbered by [enumerate]. The primary key rejects an id that
    is listed twice: the statement raises [sqlite3.IntegrityError] before
    the commit, and the table is left as it was ([None]). *)
Definition save_message_ids (db : database) (sid : string)
    (message_ids : list Z) : option database :=
  if decide (NoDup message_ids) then
    Some
      {| servers := servers db;
         members := members db;
         messages :=
           filter (fun r => g_server_id r <> sid) (messages db)
           ++ ((fun p =>
                  {| g_server_id := sid;
                     g_message_id := p.2;
                     g_embed_index := p.1 |}) <$> enumerate message_ids) |}
  else None.

Definition index_leb (a b : message_row) : bool :=
  (g_embed_index a <=? g_embed_index b)%nat.

Definition get_message_ids (db : database) (sid : string) : list Z :=
  g_message_id
    <$> order_by index_leb (filter (fun r => g_server_id r = sid) (messages db)).

(** The query of the sweep:
    [SELECT name FROM members WHERE server_id = ?
     ORDER BY last_checked ASC LIMIT ?].
    SQLite finds the rows of the group through the index of the primary
    key [(server_id, normalized_name)], so they reach the sorter in the
    byte order of their normalized names, and rows with the same
    [last_checked] come out in that order. *)
Definition checked_leb (a b : member_row) : bool :=
  m_last_checked a <=? m_last_checked b.

Definition key_leb (a b : member_row) : bool :=
  String.leb (m_normalized_name a) (m_normalized_name b).

Definition select_due_rows (db : database) (sid : string) (limit : nat)
  : list member_row :=
  take limit
    (order_by checked_leb
       (order_by key_leb (filter (fun r => m_server_id r = sid) (members db)))).

Definition select_due (db : database) (sid : string) (limit : nat)
  : list string :=
  m_name <$> select_due_rows db sid limit.

(** [SELECT server_id FROM servers WHERE autoremove = 1]. *)
Definition select_autoremove_servers (db : database) : list string :=
  server_id <$> filter (fun r => autoremove r = true) (servers db).

End Database.

(** ** The world the bot runs in *)

(** [discord.Embed]: title, accent colour, footer text and the fields added
    by [add_field], in order. *)
Record field := {
  f_name : string;
  f_value : string;
  f_inline : bool
}.

Record embed := {
  e_title : string;
  e_color : Z;
  e_footer : string;
  e_fields : list field
}.

(** What a message shows: an embed (the list pages) or plain text (the
    audit log lines). *)
Inductive content :=
| Embedded (e : embed)
| Plain (s : string).

(** A text channel the bot can see: whether the bot may send there and the
    messages it holds, oldest first. *)
Record channel := {
  channel_id : Z;
  send_messages : bool;
  history : list (Z * content)
}.

(** Python exceptions. [NotFound] (404) and [Forbidden] (403) are the two
    subclasses of [discord.HTTPException] the code names; any other
    platform error is an [HTTPException] with its status. The attributes
    of a [discord.HTTPException] are [response], [status], [code] and
    [text]: it has no [retry_after]. [HTTPError] is what
    [response.raise_for_status()] raises. [OtherError] is any other
    [Exception], named by its class. *)
Inductive exn :=
| NotFound
| Forbidden
| HTTPException (status : Z)
| HTTPError (status_code : Z)
| OtherError (what : string).

(** [isinstance(e, discord.HTTPException)] and [e.status]. *)
Definition is_HTTPException (e : exn) : bool :=
  match e with
  | NotFound | Forbidden | HTTPException _ => true
  | _ => false
  end.

Definition exn_status (e : exn) : Z :=
  match e with
  | NotFound => 404
  | Forbidden => 403
  | HTTPException s => s
  | HTTPError s => s
  | OtherError _ => 0
  end.

(** What one request to the verification source gives: [requests.get]
    raises (time-out, connection error), or a response arrives with a
    status code and a page; [guild_text] is the result of the XPath query
    for the text after the label [Guild:], [None] when parsing the page
    raises. *)
Inductive http_result :=
| ConnectionFailure
| Response (status_code : Z) (guild_text : option (list string)).

(** The Python values [check_aqw_guild] can return. *)
Inductive pyval :=
| PyBool (b : bool)
| PyNone
| PyList (l : list string).

(** Truth value testing: [bool(v)]. *)
Definition truthy (v : pyval) : bool :=
  match v with
  | PyBool b => b
  | PyNone => false
  | PyList l => match l with [] => false | _ => true end
  end.

Definition is_bool (v : pyval) : bool :=
  match v with
  | PyBool _ => true
  | _ => false
  end.

Inductive platform_op :=
| OpFetch (cid mid : Z)
| OpEdit (cid mid : Z) (e : embed)
| OpSend (cid : Z) (c : content)
| OpDelete (cid mid : Z).

Inductive level := Info | Warning | Error.

(** What an observer sees, oldest first: pauses, requests to the
    verification source, calls to the platform with the exception they
    raised if any, log records, and the calls of [update_list]. *)
Inductive event :=
| Slept (ms : Z)
| Requested (name : string)
| Called (op : platform_op) (raised : option exn)
| Logged (lvl : level) (msg : string)
| Synchronized (sid : string).

Record world := {
  db : database;
  clock : Z;
  channels : list channel;
  next_message_id : Z;
  rejections : list (option exn);
  responses : list http_result;
  memo : list ((string * string) * pyval);
  trace : list event
}.

Definition set_db (f : database -> database) (w : world) : world :=
  {| db := f (db w); clock := clock w; channels := channels w;
     next_message_id := next_message_id w; rejections := rejections w;
     responses := responses w; memo := memo w; trace := trace w |}.

Definition set_clock (t : Z) (w : world) : world :=
  {| db := db w; clock := t; channels := channels w;
     next_message_id := next_message_id w; rejections := rejections w;
     responses := responses w; memo := memo w; trace := trace w |}.

Definition set_channels (cs : list channel) (w : world) : world :=
  {| db := db w; clock := clock w; channels := cs;
     next_message_id := next_message_id w; rejections := rejections w;
     responses := responses w; memo := memo w; trace := trace w |}.

Definition set_next_message_id (n : Z) (w : world) : world :=
  {| db := db w; clock := clock w; channels := channels w;
     next_message_id := n; rejections := rejections w;
     responses := responses w; memo := memo w; trace := trace w |}.

Definition set_rejections (rs : list (option exn)) (w : world) : world :=
  {| db := db w; clock := clock w; channels := channels w;
     next_message_id := next_message_id w; rejections := rs;
     responses := responses w; memo := memo w; trace := trace w |}.

Definition set_responses (rs : list http_result) (w : world) : world :=
  {| db := db w; clock := clock w; channels := channels w;
     next_message_id := next_message_id w; rejections := rejections w;
     responses := rs; memo := memo w; trace := trace w |}.

Definition set_memo (m : list ((string * string) * pyval)) (w : world) : world :=
  {| db := db w; clock := clock w; channels := channels w;
     next_message_id := next_message_id w; rejections := rejections w;
     responses := responses w; memo := m; trace := trace w |}.

Definition emit (ev : event) (w : world) : world :=
  {| db := db w; clock := clock w; channels := channels w;
     next_message_id := next_message_id w; rejections := rejections w;
     responses := responses w; memo := memo w; trace := trace w ++ [ev] |}.

(** ** The state and exception monad *)

Inductive outcome (A : Type) :=
| Ret (a : A)
| Raise (e : exn).

Arguments Ret {A} a.
Arguments Raise {A} e.

Definition M (S A : Type) : Type := S -> outcome A * S.

Definition ret {S A} (a : A) : M S A := fun s => (Ret a, s).

Definition raise {S A} (e : exn) : M S A := fun s => (Raise e, s).

Definition bind {S A B} (m : M S A) (k : A -> M S B) : M S B :=
  fun s =>
    match m s with
    | (Ret a, s') => k a s'
    | (Raise e, s') => (Raise e, s')
    end.

(** [try: body / except Exception as e: handler e]; a handler re-raises
    what its [except] clauses do not match. *)
Definition try_except {S A} (body : M S A) (handler : exn -> M S A) : M S A :=
  fun s =>
    match body s with
    | (Ret a, s') => (Ret a, s')
    | (Raise e, s') => handler e s'
    end.

Definition modify {S} (f : S -> S) : M S unit := fun s => (Ret tt, f s).

Definition gets {S A} (f : S -> A) : M S A := fun s => (Ret (f s), s).

Definition when {S} (b : bool) (m : M S unit) : M S unit :=
  if b then m else ret tt.

Declare Scope monad_scope.
Delimit Scope monad_scope with monad.
Notation "x <- m ;; k" := (bind m (fun x => k))
  (at level 100, m at next level, right associativity) : monad_scope.
Notation "m ;; k" := (bind m (fun _ => k))
  (at level 100, right associativity) : monad_scope.
Open Scope monad_scope.

(** The final state and the result of a run. *)
Definition exec {S A} (m : M S A) (s : S) : S := (m s).2.
Definition eval {S A} (m : M S A) (s : S) : outcome A := (m s).1.

(** [asyncio.sleep] and [time.sleep]: the clock advances by the pause. *)
Definition sleep (ms : Z) : M world unit :=
  modify (fun w => emit (Slept ms) (set_clock (clock w + ms) w)).

(** [int(time.time())] *)
Definition time_time : M world Z := gets (fun w => clock w / 1000).

Definition log (lvl : level) (msg : string) : M world unit :=
  modify (emit (Logged lvl msg)).

(** ** The messaging platform (the consumed [discord] interface) *)

Module Platform.

Definition find_channel (cid : Z) (cs : list channel) : option channel :=
  head (filter (fun c => channel_id c = cid) cs).

Definition message_ids (cid : Z) (w : world) : list Z :=
  match find_channel cid (channels w) with
  | Some c => (history c).*1
  | None => []
  end.

Definition has_message (cid mid : Z) (w : world) : bool :=
  bool_decide (mid ∈ message_ids cid w).

Definition update_history (cid : Z)
    (f : list (Z * content) -> list (Z * content)) (w : world) : world :=
  set_channels
    ((fun c =>
        if decide (channel_id c = cid)
        then {| channel_id := channel_id c;
                send_messages := send_messages c;
                history := f (history c) |}
        else c) <$> channels w) w.

(** The script decides first: the next entry of [rejections], when there
    is one and it holds an exception, is raised by the call. *)
Definition next_rejection (w : world) : option exn * world :=
  match rejections w with
  | [] => (None, w)
  | r :: rest => (r, set_rejections rest w)
  end.

(** A call that the script lets through does what the platform does;
    [natural] is [None] when the target is gone, which raises
    [NotFound]. *)
Definition call {A} (op : platform_op) (natural : world -> option (A * world))
  : M world A :=
  fun w =>
    let (r, w1) := next_rejection w in
    match r with
    | Some e => (Raise e, emit (Called op (Some e)) w1)
    | None =>
        match natural w1 with
        | Some (a, w2) => (Ret a, emit (Called op None) w2)
        | None => (Raise NotFound, emit (Called op (Some NotFound)) w1)
        end
    end.

(** [bot.get_channel(cid)]: a look-up in the bot's cache, no request. *)
Definition get_channel (cid : Z) : M world (option Z) :=
  gets (fun w => channel_id <$> find_channel cid (channels w)).

(** [channel.permissions_for(channel.guild.me).send_messages] *)
Definition may_send (cid : Z) : M world bool :=
  gets (fun w =>
          match find_channel cid (channels w) with
          | Some c => send_messages c
          | None => false
          end).

(** [await channel.fetch_message(mid)]; the message object is its id. *)
Definition fetch_message (cid mid : Z) : M world Z :=
  call (OpFetch cid mid)
       (fun w => if has_message cid mid w then Some (mid, w) else None).

(** [await msg.edit(embed=e)] *)
Definition edit (cid mid : Z) (e : embed) : M world unit :=
  call (OpEdit cid mid e)
       (fun w =>
          if has_message cid mid w
          then Some (tt, update_history cid
                           (fmap (fun m => if decide (m.1 = mid)
                                           then (mid, Embedded e) else m)) w)
          else None).

(** [await channel.send(...)]: the platform gives the message a fresh id. *)
Definition send (cid : Z) (c : content) : M world Z :=
  call (OpSend cid c)
       (fun w =>
          match find_channel cid (channels w) with
          | Some _ =>
              let mid := next_message_id w in
              Some (mid, set_next_message_id (mid + 1)
                           (update_history cid (fun h => h ++ [(mid, c)]) w))
          | None => None
          end).

(** What a message shows now. *)
Definition content_of (cid mid : Z) (w : world) : option content :=
  match find_channel cid (channels w) with
  | Some c => snd <$> head (filter (fun m => m.1 = mid) (history c))
  | None => None
  end.

(** [await msg.delete()] *)
Definition delete (cid mid : Z) : M world unit :=
  call (OpDelete cid mid)
       (fun w =>
          if has_message cid mid w
          then Some (tt, update_history cid
                           (filter (fun m => m.1 <> mid)) w)
          else None).

End Platform.

(** ** Verification client (class [AQWUtils], main.py lines 254-288) *)

Module AQWUtils.

(** [requests.get(url, headers=headers, timeout=15)] for the character
    page of [name]: the next entry of the script, a connection failure
    when the script is used up. *)
Definition requests_get (name : string) : M world (Z * option (list string)) :=
  fun w =>
    let w1 := emit (Requested name) w in
    match responses w with
    | [] => (Raise (OtherError "ConnectionError"), w1)
    | ConnectionFailure :: rest =>
        (Raise (OtherError "ConnectionError"), set_responses rest w1)
    | Response st page :: rest => (Ret (st, page), set_responses rest w1)
    end.

(** [response.raise_for_status()] *)
Definition raise_for_status (st : Z) : M world unit :=
  if (400 <=? st) && (st <? 600) then raise (HTTPError st) else ret tt.

(** [html.fromstring(response.content)] followed by [tree.xpath(...)]. *)
Definition guild_element (page : option (list string)) : M world (list string) :=
  match page with
  | None => raise (OtherError "ParserError")
  | Some nodes => ret nodes
  end.

(** [guild_element and guild_element[0].strip().lower() ==
    aqw_guild_name.lower()]: Python's [and] gives back its left operand
    when that is falsy. *)
Definition label_matches (nodes : list string) (aqw_guild_name : string) : pyval :=
  match nodes with
  | [] => PyList []
  | label :: _ =>
      PyBool (String.eqb (Text.lower (Text.strip label))
                         (Text.lower aqw_guild_name))
  end.

(** One pass through the body of [for attempt in range(...)]:
    [Some v] is [return v], [None] is [continue]. *)
Definition attempt_once (name aqw_guild_name : string) (attempt : nat)
  : M world (option pyval) :=
  try_except
    (r <- requests_get name ;;
     raise_for_status r.1 ;;
     nodes <- guild_element r.2 ;;
     ret (Some (label_matches nodes aqw_guild_name)))
    (fun e =>
       match e with
       | HTTPError st =>
           if st =? 429 then
             log Warning "Rate limited, retrying" ;;
             sleep (seconds (RETRY_DELAY * (Z.of_nat attempt + 1))) ;;
             ret None
           else
             log Error ("Check error for " +:+ name) ;;
             ret (Some (PyBool false))
       | _ =>
           log Error ("Check error for " +:+ name) ;;
           ret (Some (PyBool false))
       end).

(** The loop over the attempts; a loop that runs out falls off the end of
    the function, which returns [None]. *)
Fixpoint attempts (name aqw_guild_name : string) (todo : list nat)
  : M world pyval :=
  match todo with
  | [] => ret PyNone
  | attempt :: rest =>
      r <- attempt_once name aqw_guild_name attempt ;;
      match r with
      | Some v => ret v
      | None => attempts name aqw_guild_name rest
      end
  end.

(** The function under the decorator, for a retry cap [max_retries]. *)
Definition check_with_retries (max_retries : nat)
    (name aqw_guild_name : string) : M world pyval :=
  attempts name aqw_guild_name (seq 0 max_retries).

Definition check_aqw_guild_wrapped : string -> string -> M world pyval :=
  check_with_retries MAX_RETRIES.

(** [@lru_cache(maxsize=1000)]: results are remembered by argument pair,
    most recently used first; a full cache drops the least recently used
    entry. *)
Definition lru_maxsize : nat := 1000.

Definition memo_lookup (key : string * string)
    (m : list ((string * string) * pyval)) : option pyval :=
  snd <$> head (filter (fun kv => kv.1 = key) m).

Definition cached (f : string -> string -> M world pyval)
    (name aqw_guild_name : string) : M world pyval :=
  fun w =>
    let key := (name, aqw_guild_name) in
    match memo_lookup key (memo w) with
    | Some v =>
        (Ret v, set_memo ((key, v) :: filter (fun kv => kv.1 <> key) (memo w)) w)
    | None =>
        match f name aqw_guild_name w with
        | (Ret v, w') =>
            (Ret v, set_memo (take lru_maxsize ((key, v) :: memo w')) w')
        | (Raise e, w') => (Raise e, w')
        end
    end.

Definition check_aqw_guild : string -> string -> M world pyval :=
  cached check_aqw_guild_wrapped.

End AQWUtils.

(** [for x in xs: body x], and the same loop threading an accumulator. *)
Fixpoint for_each {S A} (xs : list A) (body : A -> M S unit) : M S unit :=
  match xs with
  | [] => ret tt
  | x :: rest => body x ;; for_each rest body
  end.

Fixpoint for_fold {S A B} (xs : list A) (body : A -> B -> M S B) (acc : B)
  : M S B :=
  match xs with
  | [] => ret acc
  | x :: rest => acc' <- body x acc ;; for_fold rest body acc'
  end.

(** ** Display synchronizer (class [DiscordUtils], main.py lines 332-469) *)

Module DiscordUtils.

Definition members_per_embed : nat := MEMBERS_PER_FIELD * MAX_FIELDS_PER_EMBED.

(** [[members[i:i + members_per_embed]
     for i in range(0, len(members), members_per_embed)]] *)
Definition chunks (members : list (string * string))
  : list (list (string * string)) :=
  (fun i => slice i (i + members_per_embed) members)
    <$> range_step (length members) members_per_embed.

(** [column_size = len(chunk) // MAX_FIELDS_PER_EMBED + 1] *)
Definition column_size (chunk : list (string * string)) : nat :=
  (length chunk / MAX_FIELDS_PER_EMBED + 1)%nat.

(** [chunk[start:end]] of column [i]. *)
Definition field_members (chunk : list (string * string)) (i : nat)
  : list (string * string) :=
  let start := (i * column_size chunk)%nat in
  let end_ := (start + column_size chunk)%nat in
  slice start end_ chunk.

(** The number printed in front of row [j] of column [i] of page
    [chunk_idx]. *)
Definition index_label (chunk_idx : nat) (chunk : list (string * string))
    (i j : nat) : nat :=
  ((j + 1) + (i * column_size chunk) + (chunk_idx * members_per_embed))%nat.

Definition field_line (chunk_idx : nat) (chunk : list (string * string))
    (i : nat) (row : nat * (string * string)) : string :=
  "`" +:+ Text.rjust3 (index_label chunk_idx chunk i row.1) +:+ "` " +:+ row.2.1.

Definition field_value (chunk_idx : nat) (chunk : list (string * string))
    (i : nat) : string :=
  Text.join_lines
    (field_line chunk_idx chunk i <$> enumerate (field_members chunk i)).

(** The loop [for i in range(MAX_FIELDS_PER_EMBED)]; an empty column is
    skipped. *)
Definition page_fields (chunk_idx : nat) (chunk : list (string * string))
  : list field :=
  flat_map
    (fun i =>
       match field_members chunk i with
       | [] => []
       | _ => [ {| f_name := "Group " +:+ Text.of_nat (i + 1);
                   f_value := field_value chunk_idx chunk i;
                   f_inline := true |} ]
       end)
    (seq 0 MAX_FIELDS_PER_EMBED).

(** The members of the columns that [page_fields] renders. *)
Definition columns (chunk : list (string * string))
  : list (list (string * string)) :=
  filter (fun c => c <> []) (field_members chunk <$> seq 0 MAX_FIELDS_PER_EMBED).

(** The title starts with the bytes of the source literal. *)
Definition title_mark : string := "‚öîÔ∏è".

Definition create_list_embeds (guild_name : string)
    (members : list (string * string)) : list embed :=
  let cs := chunks members in
  (fun p =>
     {| e_title := title_mark +:+ " " +:+ Text.upper guild_name +:+ " MEMBER LIST";
        e_color := EMBED_COLOR;
        e_footer := "Page " +:+ Text.of_nat (p.1 + 1) +:+ " of "
                    +:+ Text.of_nat (length cs);
        e_fields := page_fields p.1 p.2 |})
    <$> enumerate cs.

(** The [except] clauses shared by the two loops of [update_list], after
    [except discord.NotFound]. For a platform error with status 429 the
    handler starts with [retry_after = e.retry_after or 5]; the exception
    has no such attribute, so the handler itself raises [AttributeError]
    before it logs, sleeps or reaches [continue], and the exception leaves
    the loop. Any other platform error is logged and the loop goes on;
    anything that is not a platform error is not caught here. *)
Definition on_http_error {A} (what : string) (skip : A) (e : exn) : M world A :=
  if is_HTTPException e then
    if exn_status e =? 429 then
      raise (OtherError "AttributeError")
    else
      log Error ("Error " +:+ what) ;;
      ret skip
  else raise e.

(** The body of [for idx, embed in enumerate(embeds)]. *)
Definition sync_page (cid : Z) (existing_message_ids : list Z)
    (page : nat * embed) (new_message_ids : list Z) : M world (list Z) :=
  let (idx, embed) := page in
  try_except
    (when (0 <? idx)%nat (sleep 2500) ;;
     match existing_message_ids !! idx with
     | Some mid =>
         msg <- Platform.fetch_message cid mid ;;
         Platform.edit cid msg embed ;;
         ret (new_message_ids ++ [msg])
     | None =>
         msg <- Platform.send cid (Embedded embed) ;;
         ret (new_message_ids ++ [msg])
     end)
    (fun e =>
       match e with
       | NotFound =>
           msg <- Platform.send cid (Embedded embed) ;;
           ret (new_message_ids ++ [msg])
       | _ => on_http_error "editing embed" new_message_ids e
       end).

(** The body of [for msg_id in existing_message_ids[len(embeds):]]. *)
Definition delete_stale (cid : Z) (msg_id : Z) : M world unit :=
  try_except
    (msg <- Platform.fetch_message cid msg_id ;;
     Platform.delete cid msg)
    (fun e =>
       match e with
       | NotFound => ret tt
       | _ => on_http_error "deleting message" tt e
       end).

Definition save_message_ids (sid : string) (message_ids : list Z) : M world unit :=
  fun w =>
    match Database.save_message_ids (db w) sid message_ids with
    | Some db' => (Ret tt, set_db (fun _ => db') w)
    | None => (Raise (OtherError "IntegrityError"), w)
    end.

(** What [update_list] does once the channel is known. *)
Definition reconcile (sid : string) (cid : Z) (embeds : list embed) : M world unit :=
  existing_message_ids <- gets (fun w => Database.get_message_ids (db w) sid) ;;
  new_message_ids <-
    for_fold (enumerate embeds) (sync_page cid existing_message_ids) [] ;;
  for_each (drop (length embeds) existing_message_ids) (delete_stale cid) ;;
  save_message_ids sid new_message_ids.

Definition update_list (sid : string) : M world unit :=
  modify (emit (Synchronized sid)) ;;
  try_except
    (config <- gets (fun w => Database.get_server_config (db w) sid) ;;
     match config with
     | None => ret tt
     | Some config =>
         members <- gets (fun w => Database.get_members (db w) sid) ;;
         match c_list_channel_id config with
         | None => raise (OtherError "TypeError")
         | Some cid =>
             channel <- Platform.get_channel cid ;;
             match channel with
             | None => ret tt
             | Some channel =>
                 reconcile sid channel
                   (create_list_embeds (c_guild_name config) members)
             end
         end
     end)
    (fun _ => log Error ("Update error in " +:+ sid)).

(** The time stamp in front of the audit line is left out of the text. *)
Definition log_action (sid action : string) : M world unit :=
  try_except
    (config <- gets (fun w => Database.get_server_config (db w) sid) ;;
     match config with
     | None => ret tt
     | Some config =>
         match c_log_channel_id config with
         | None => ret tt
         | Some cid =>
             channel <- Platform.get_channel cid ;;
             match channel with
             | None => log Warning ("Log channel not found in server " +:+ sid)
             | Some channel =>
                 allowed <- Platform.may_send channel ;;
                 if negb allowed then
                   log Warning "Missing Send Messages permission in log channel"
                 else
                   try_except
                     (Platform.send channel (Plain action) ;; ret tt)
                     (fun e =>
                        match e with
                        | Forbidden =>
                            log Warning "Missing access to log channel"
                        | _ => log Error ("Logging error in server " +:+ sid)
                        end)
             end
         end
     end)
    (fun _ => log Error ("Logging system error in server " +:+ sid)).

End DiscordUtils.

(** ** Reconciliation controller ([live_guild_check], main.py lines 669-731) *)

(** The local variables of [live_guild_check] that outlive a statement: the
    two counters and the loop variable [server_id], which Python leaves
    bound to its last value after the loop ([None]: never bound). *)
Record locals := {
  total_checked : Z;
  successful_checks : Z;
  loop_server_id : option string
}.

Definition lift {A} (m : M world A) : M (world * locals) A :=
  fun s =>
    let (r, w') := m s.1 in (r, (w', s.2)).

Definition get_local {A} (f : locals -> A) : M (world * locals) A :=
  gets (fun s => f s.2).

Definition set_local (f : locals -> locals) : M (world * locals) unit :=
  modify (fun s => (s.1, f s.2)).

Definition count_check (l : locals) : locals :=
  {| total_checked := total_checked l + 1;
     successful_checks := successful_checks l + 1;
     loop_server_id := loop_server_id l |}.

Definition bind_server_id (sid : string) (l : locals) : locals :=
  {| total_checked := total_checked l;
     successful_checks := successful_checks l;
     loop_server_id := Some sid |}.

Definition remove_member (sid name : string) : M world unit :=
  modify (set_db (fun d => Database.remove_member d sid name)).

Definition update_last_checked (sid name : string) : M world unit :=
  now <- time_time ;;
  modify (set_db (fun d => Database.update_last_checked d now sid name)).

(** The removal policy applied to one checked member. *)
Definition apply_policy (config : config) (sid name : string) (in_guild : pyval)
  : M world unit :=
  if negb (truthy in_guild) && c_autoremove config then
    remove_member sid name ;;
    DiscordUtils.log_action sid ("Auto-removed " +:+ name)
  else
    update_last_checked sid name.

(** The body of [for name, in c.fetchall()]. *)
Definition check_member (config : config) (sid name : string)
  : M (world * locals) unit :=
  try_except
    (checked <- get_local total_checked ;;
     when ((checked mod 5 =? 0) && (0 <? checked))
          (lift (sleep (seconds (REQUEST_DELAY * 2)))) ;;
     in_guild <- lift (AQWUtils.check_aqw_guild name (c_guild_name config)) ;;
     set_local count_check ;;
     lift (apply_policy config sid name in_guild) ;;
     lift (sleep (seconds REQUEST_DELAY)))
    (fun _ =>
       lift (log Warning ("Check paused (Error on " +:+ name +:+ ")")) ;;
       lift (sleep (seconds RETRY_DELAY))).

(** The body of [for server_id in ...]. *)
Definition check_server (sid : string) : M (world * locals) unit :=
  set_local (bind_server_id sid) ;;
  config <- lift (gets (fun w => Database.get_server_config (db w) sid)) ;;
  match config with
  | None => ret tt
  | Some config =>
      names <- lift (gets (fun w => Database.select_due (db w) sid CHECK_LIMIT)) ;;
      for_each names (check_member config sid)
  end.

Definition sweep_body : M (world * locals) unit :=
  server_ids <- lift (gets (fun w => Database.select_autoremove_servers (db w))) ;;
  for_each server_ids check_server ;;
  done_ <- get_local successful_checks ;;
  (if 0 <? done_ then
     sid <- get_local loop_server_id ;;
     match sid with
     | Some sid => lift (DiscordUtils.update_list sid)
     | None => raise (OtherError "UnboundLocalError")
     end
   else ret tt) ;;
  lift (log Info "Processed members").

Definition live_guild_check : M world unit :=
  fun w =>
    let start :=
      (w, {| total_checked := 0; successful_checks := 0; loop_server_id := None |}) in
    let (r, s) :=
      try_except sweep_body (fun _ => lift (log Error "Check cycle failed")) start in
    (r, s.1).

(** ** Observations on a run *)

(** The groups [update_list] was called for, in call order. *)
Definition synchronized (t : list event) : list string :=
  omap (fun ev => match ev with Synchronized sid => Some sid | _ => None end) t.

(** The names whose character page was requested, in request order. *)
Definition requested (t : list event) : list string :=
  omap (fun ev => match ev with Requested name => Some name | _ => None end) t.

(** The calls made to the platform with what each raised, in call order. *)
Definition platform_calls (t : list event) : list (platform_op * option exn) :=
  omap (fun ev => match ev with Called op r => Some (op, r) | _ => None end) t.

Definition is_send (c : platform_op * option exn) : bool :=
  match c.1 with OpSend _ _ => true | _ => false end.

Definition is_edit (c : platform_op * option exn) : bool :=
  match c.1 with OpEdit _ _ _ => true | _ => false end.

Definition is_delete (c : platform_op * option exn) : bool :=
  match c.1 with OpDelete _ _ => true | _ => false end.

(** Message creations, edits and deletions requested so far. *)
Definition creations (w : world) : nat :=
  length (List.filter is_send (platform_calls (trace w))).

Definition edits (w : world) : nat :=
  length (List.filter is_edit (platform_calls (trace w))).

Definition deletions (w : world) : nat :=
  length (List.filter is_delete (platform_calls (trace w))).

(** A computation during which [update_list] is entered for no group;
    [tr] reads the trace off the state. *)
Definition silent {S A} (tr : S -> list event) (m : M S A) : Prop :=
  forall s, synchronized (tr (m s).2) = synchronized (tr s).

(** The message a call is aimed at ([None] for a creation). *)
Definition op_target (op : platform_op) : option Z :=
  match op with
  | OpFetch _ mid | OpEdit _ mid _ | OpDelete _ mid => Some mid
  | OpSend _ _ => None
  end.

(** The edits that went through, as (message id, embed). *)
Definition edited (t : list event) : list (Z * embed) :=
  omap (fun ev =>
          match ev with
          | Called (OpEdit _ mid e) None => Some (mid, e)
          | _ => None
          end) t.

(** The display-message-id list stored for a group. *)
Definition stored_ids (sid : string) (w : world) : list Z :=
  Database.get_message_ids (db w) sid.

(** The pages rendered from the current member list of a group. *)
Definition rendered_pages (sid : string) (w : world) : list embed :=
  match Database.get_server_config (db w) sid with
  | Some config =>
      DiscordUtils.create_list_embeds (c_guild_name config)
        (Database.get_members (db w) sid)
  | None => []
  end.

(** The platform rejects no call: a call fails only when its target is
    gone. *)
Definition calm (w : world) : Prop := rejections w = [].

(** The bot can see channel [cid]. *)
Definition present (cid : Z) (w : world) : Prop :=
  is_Some (Platform.find_channel cid (channels w)).

(** The edits requested so far, as (message id, embed), oldest first. *)
Definition edit_calls (w : world) : list (Z * embed) :=
  omap (fun ev =>
          match ev with
          | Called (OpEdit _ mid e) _ => Some (mid, e)
          | _ => None
          end) (trace w).

(** How a calm world [w] has changed into [w']: still calm, the store
    untouched, the channel still there and holding the messages [ids], the
    platform's counter at [next], so many more creations and deletions
    requested, and the edits [edited_] requested. *)
Definition evolves (cid : Z) (w w' : world) (ids : list Z) (next : Z)
    (sent : nat) (edited_ : list (Z * embed)) (deleted : nat) : Prop :=
  calm w'
  /\ db w' = db w
  /\ present cid w'
  /\ Platform.message_ids cid w' = ids
  /\ next_message_id w' = next
  /\ creations w' = (creations w + sent)%nat
  /\ edit_calls w' = edit_calls w ++ edited_
  /\ deletions w' = (deletions w + deleted)%nat.

(** The list channel of a group, when the group has a configuration and
    the bot can see the channel it names. *)
Definition list_channel (sid : string) (w : world) : option Z :=
  match Database.get_server_config (db w) sid with
  | Some config =>
      match c_list_channel_id config with
      | Some cid => channel_id <$> Platform.find_channel cid (channels w)
      | None => None
      end
  | None => None
  end.

(** The stored ids of a group are distinct (the primary key of table
    [messages]) and were issued by the platform, which numbers messages
    upwards. *)
Definition issued_ids (sid : string) (w : world) : Prop :=
  NoDup (stored_ids sid w)
  /\ Forall (fun mid => mid < next_message_id w) (stored_ids sid w).

(** Every row of table [members] was written by [add_member]: the key is
    the lower-cased name. *)
Definition normalized_keys (d : database) : Prop :=
  Forall (fun r => m_normalized_name r = Text.lower (m_name r)) (members d).

(** The verification of one member inside the sweep: the throttle pause
    when it is due, then the call of [check_aqw_guild]; the value returned
    and the world in which the policy is applied. *)
Definition verification (config : config) (name : string) (s : world * locals)
  : pyval * world :=
  let checked := total_checked s.2 in
  let w0 :=
    if (checked mod 5 =? 0) && (0 <? checked)
    then exec (sleep (seconds (REQUEST_DELAY * 2))) s.1 else s.1 in
  match AQWUtils.check_aqw_guild name (c_guild_name config) w0 with
  | (Ret v, w1) => (v, w1)
  | (Raise _, w1) => (PyNone, w1)
  end.

(** ** Scenarios *)

Module Scenario.

Definition server (sid : string) (remove : bool) : server_row :=
  {| server_id := sid; admin_role_id := None; list_channel_id := Some 10;
     log_channel_id := None; guild_name := "Legion"; autoremove := remove |}.

Definition member (sid name : string) (checked : Z) : member_row :=
  {| m_server_id := sid; m_name := name; m_normalized_name := Text.lower name;
     m_status := ""; m_last_checked := checked |}.

Definition page_row (sid : string) (idx : nat) (mid : Z) : message_row :=
  {| g_server_id := sid; g_message_id := mid; g_embed_index := idx |}.

(** Members [m01], [m02], ... of a group, all checked at time 0. *)
Definition numbered (n : nat) : string :=
  "m" +:+ (if (n <? 10)%nat then "0" else "") +:+ Text.of_nat n.

Definition roster (sid : string) (n : nat) : list member_row :=
  (fun k => member sid (numbered k) 0) <$> seq 1 n.

Definition channel_10 (h : list (Z * content)) : channel :=
  {| channel_id := 10; send_messages := true; history := h |}.

Definition start (d : database) (h : list (Z * content))
    (script : list (option exn)) (source : list http_result) : world :=
  {| db := d; clock := seconds 1000; channels := [channel_10 h];
     next_message_id := 200; rejections := script; responses := source;
     memo := []; trace := [] |}.

(** Two groups with auto-remove on and one member each; both members are
    in the guild. *)
Definition two_groups : world :=
  start {| servers := [server "1" true; server "2" true];
           members := [member "1" "Alice" 5; member "2" "Bob" 3];
           messages := [] |}
        [] []
        [Response 200 (Some [" Legion "]); Response 200 (Some ["legion"])].

(** A group of 46 members (two pages) whose two messages exist; the
    platform accepts the fetch of page 1, rejects its edit with a rate
    limit, and accepts every later call. *)
Definition rate_limited_edit : world :=
  start {| servers := [server "1" false];
           members := roster "1" 46;
           messages := [page_row "1" 0 100; page_row "1" 1 101] |}
        [(100, Plain "old page 1"); (101, Plain "old page 2")]
        [None; Some (HTTPException 429)] [].

(** A group of one member (one page) whose message exists; the platform
    accepts the fetch and rejects the edit with a server error. *)
Definition server_error_edit : world :=
  start {| servers := [server "1" false];
           members := roster "1" 1;
           messages := [page_row "1" 0 100] |}
        [(100, Plain "old page 1")]
        [None; Some (HTTPException 500)] [].

(** A full page: 45 members. *)
Definition full_page : list (string * string) :=
  (fun k => (numbered k, "")) <$> seq 1 45.

(** The verification source answers the first request with status 429. *)
Definition rate_limited_source : world :=
  start {| servers := [server "1" true];
           members := [member "1" "Alice" 5];
           messages := [] |}
        [] [] [Response 429 None; Response 200 (Some ["Legion"])].

(** The character page has no guild label. *)
Definition no_guild_label : world :=
  start {| servers := [server "1" true];
           members := [member "1" "Alice" 5];
           messages := [] |}
        [] [] [Response 200 (Some [])].

(** A group of 50 members that had three pages, two of them still there. *)
Definition shrunk_group : world :=
  start {| servers := [server "1" false];
           members := roster "1" 50;
           messages := [page_row "1" 0 100; page_row "1" 1 101;
                        page_row "1" 2 102] |}
        [(100, Plain "old page 1"); (102, Plain "old page 3")] [] [].

(** A group without members, with two stored pages, one already gone. *)
Definition emptied_group : world :=
  start {| servers := [server "1" false];
           members := [member "2" "Zed" 1];
           messages := [page_row "1" 0 100; page_row "1" 1 101] |}
        [(101, Plain "old page 2")] [] [].

(** A member who left the guild, in a group with auto-remove on and in one
    with auto-remove off. *)
Definition leaver (remove : bool) : world :=
  start {| servers := [server "1" remove];
           members := [member "1" "Alice" 5; member "1" "Bob" 3];
           messages := [] |}
        [] [] [Response 200 (Some ["Horde"])].

Definition config_of (remove : bool) : config :=
  {| c_admin_role_id := None; c_list_channel_id := Some 10;
     c_log_channel_id := None; c_guild_name := "Legion";
     c_autoremove := remove |}.

Definition fresh_locals : locals :=
  {| total_checked := 0; successful_checks := 0; loop_server_id := None |}.

(** Five members with known check times. *)
Definition known_times : database :=
  {| servers := [server "1" true];
     members := [member "1" "a" 50; member "1" "b" 10; member "2" "x" 1;
                 member "1" "c" 40; member "1" "d" 20; member "1" "e" 30];
     messages := [] |}.

End Scenario.

(** ** The start-up pass ([on_ready], main.py lines 1093-1112) *)

Definition mark_cycle : string := "üîÑ".

(** [on_ready] fires each time the connection is ready, the first time
    and after every reconnect. [running] says whether the loops
    [daily_backup] and [live_guild_check] were started by an earlier
    firing: [Loop.start()] then raises [RuntimeError], which ends the
    handler before anything is synchronized. The first time the three
    calls hand coroutines to the event loop and run nothing inside
    [on_ready]. The name of the account is left out of the first log
    record.

    [SELECT server_id FROM servers] reads no column but the primary key,
    and SQLite answers it from the index of that key: the ids come in byte
    order, whatever the order of the rows in the table. Every configured
    group is then synchronized, each under its own [try]. *)
Definition on_ready (running : bool) : M world unit :=
  log Info "Logged in" ;;
  log Info (mark_cycle +:+ " Auto-restart system activated (hourly checks)") ;;
  (if running then raise (OtherError "RuntimeError") else ret tt) ;;
  server_ids <-
    gets (fun w => order_by String.leb (server_id <$> servers (db w))) ;;
  for_each server_ids
    (fun sid =>
       try_except (DiscordUtils.update_list sid)
         (fun _ => log Error ("Failed to initialize list for server " +:+ sid))).

(** ** Configuration commands ([changeguild] and [autoremove],
    main.py lines 614-666) *)

(** What a command reads off its invocation context: [str(ctx.guild.id)],
    the channel the command was typed in, the message that holds it,
    whether the author has the administrator permission and the ids of the
    author's roles. *)
Record context := {
  ctx_server_id : string;
  ctx_channel_id : Z;
  ctx_message_id : Z;
  ctx_administrator : bool;
  ctx_roles : list Z
}.

Module Commands.

Definition mark_cross : string := "‚ùå".
Definition mark_castle : string := "üè∞".
Definition mark_tick : string := "‚úÖ".
Definition mark_red : string := "üî¥".
Definition mark_green : string := "üü¢".
Definition mark_gear : string := "‚öôÔ∏è".

(** [await ctx.send(text, delete_after=...)]: the message is sent; its
    deferred deletion is a task of the library that runs after the
    command. *)
Definition ctx_send (ctx : context) (text : string) : M world Z :=
  Platform.send (ctx_channel_id ctx) (Plain text).

Definition with_guild_name (new_name : string) (c : config) : config :=
  {| c_admin_role_id := c_admin_role_id c;
     c_list_channel_id := c_list_channel_id c;
     c_log_channel_id := c_log_channel_id c;
     c_guild_name := new_name;
     c_autoremove := false |}.

Definition with_autoremove (flag : bool) (c : config) : config :=
  {| c_admin_role_id := c_admin_role_id c;
     c_list_channel_id := c_list_channel_id c;
     c_log_channel_id := c_log_channel_id c;
     c_guild_name := c_guild_name c;
     c_autoremove := flag |}.

Definition save_server_config (sid : string) (c : config) : M world unit :=
  modify (set_db (fun d => Database.save_server_config d sid c)).

(** The predicate of the check [is_admin] (main.py lines 491-511). *)
Definition holds_admin_role (ctx : context) (c : config) : bool :=
  match c_admin_role_id c with
  | Some role => bool_decide (role ∈ ctx_roles ctx)
  | None => false
  end.

Definition is_admin (ctx : context) : M world bool :=
  config <- gets (fun w => Database.get_server_config (db w) (ctx_server_id ctx)) ;;
  match config with
  | None => ret false
  | Some config =>
      if ctx_administrator ctx then ret true
      else if holds_admin_role ctx config then ret true
      else
        ctx_send ctx
          (mark_cross
           +:+ " You need the admin role or permissions to use this command!") ;;
        ret false
  end.

(** A command under a check, as the library invokes it: the body runs
    when the predicate returns [True]; when it returns [False] the library
    raises [CheckFailure], which [on_command_error] (main.py lines
    1063-1067) drops without a word; what the body raises reaches
    [on_command_error] wrapped in [CommandInvokeError] and is logged. *)
Definition command (check : M world bool) (body : M world unit) : M world unit :=
  ok <- check ;;
  if ok then try_except body (fun _ => log Error "Command error")
  else ret tt.

(** The body of [changeguild]; the command is [changeguild_command]
    below. *)
Definition changeguild (ctx : context) (new_name : string) : M world unit :=
  let sid := ctx_server_id ctx in
  config <- gets (fun w => Database.get_server_config (db w) sid) ;;
  match config with
  | None =>
      ctx_send ctx (mark_cross +:+ " Server not configured! Use `-setup` first.") ;;
      ret tt
  | Some config =>
      save_server_config sid (with_guild_name new_name config) ;;
      DiscordUtils.update_list sid ;;
      DiscordUtils.log_action sid
        (mark_castle +:+ " Guild name changed to " +:+ new_name) ;;
      ctx_send ctx
        (mark_tick +:+ " Guild name updated to `" +:+ new_name
         +:+ "`. Auto-remove disabled for safety.") ;;
      ret tt
  end.

(** [@bot.command() @is_admin() async def changeguild(...)] *)
Definition changeguild_command (ctx : context) (new_name : string)
  : M world unit :=
  command (is_admin ctx) (changeguild ctx new_name).

(** [except discord.NotFound: pass] around a block. *)
Definition pass_not_found (body : M world unit) : M world unit :=
  try_except body
    (fun e => match e with NotFound => ret tt | _ => raise e end).

(** The body of [autoremove]; its checks ([in_list_channel] and
    [has_permissions]) run before it. *)
Definition autoremove (ctx : context) (mode : string) : M world unit :=
  pass_not_found (Platform.delete (ctx_channel_id ctx) (ctx_message_id ctx)) ;;
  let sid := ctx_server_id ctx in
  let mode := Text.lower mode in
  if negb (String.eqb mode "on" || String.eqb mode "off") then ret tt
  else
    config <- gets (fun w => Database.get_server_config (db w) sid) ;;
    match config with
    | None => ret tt
    | Some config =>
        let config := with_autoremove (String.eqb mode "on") config in
        save_server_config sid config ;;
        let status :=
          if c_autoremove config
          then mark_red +:+ " AUTO-REMOVE: ON"
          else mark_green +:+ " AUTO-REMOVE: OFF" in
        pass_not_found
          (msg <- ctx_send ctx
                    (status +:+ String "010" "Applies to all operations.") ;;
           sleep (seconds 5) ;;
           Platform.delete (ctx_channel_id ctx) msg) ;;
        DiscordUtils.log_action sid
          (mark_gear +:+ " Auto-remove set to " +:+ Text.upper mode)
    end.

End Commands.

(** ** More observations *)

(** A computation that leaves the reading [f] of the state as it was,
    whatever it returns or raises. *)
Definition keeps {S A B} (f : S -> B) (m : M S A) : Prop :=
  forall s, f (m s).2 = f s.

(** A computation whose result, when it returns, satisfies [P]. *)
Definition ensures {S A} (P : A -> Prop) (m : M S A) : Prop :=
  forall s a, (m s).1 = Ret a -> P a.

(** A computation that takes the store [d], read off the state, to a store
    related to it by [R], whatever it returns or raises. *)
Definition moves {S A} (R : database -> database -> Prop) (d : S -> database)
    (m : M S A) : Prop :=
  forall s, R (d s) (d (m s).2).

(** The primary key of table [servers]: one row per group. *)
Definition unique_servers (d : database) : Prop :=
  NoDup (server_id <$> servers d).

(** The rows of table [members] under one key. *)
Definition key_rows (d : database) (sid normalized : string) : list member_row :=
  filter (Database.is_member_key sid normalized) (members d).

(** Two stores with the same groups and the same rows under one key. *)
Definition same_key (sid normalized : string) (d d' : database) : Prop :=
  servers d' = servers d
  /\ key_rows d' sid normalized = key_rows d sid normalized.

(** The state in which a sweep starts. *)
Definition sweep_start (w : world) : world * locals :=
  (w, {| total_checked := 0; successful_checks := 0; loop_server_id := None |}).

(** The number of calls made to the platform so far. *)
Definition calls (w : world) : nat := length (platform_calls (trace w)).

(** The platform accepts the next [n] calls: none of them is rejected by
    the script (a call whose target is gone still raises [NotFound]). *)
Definition accepts (n : nat) (w : world) : Prop :=
  Forall (fun r => r = None) (take n (rejections w)).

(** A rejection that the loop over the surplus messages survives: a
    platform error other than a rate limit. *)
Definition tolerable (r : option exn) : Prop :=
  match r with
  | None => True
  | Some e => is_HTTPException e = true /\ exn_status e <> 429
  end.

(** A computation that runs under a script that lets its calls through as
    it runs under the empty script: it makes [c] calls, and when the
    script holds no rejection for them, the result is the same and the
    script is shorter by [c] entries. *)
Definition transfers {A} (m : M world A) : Prop :=
  forall w rs,
    let calm_run := m (set_rejections [] w) in
    exists c,
      calls calm_run.2 = (calls w + c)%nat
      /\ rejections calm_run.2 = []
      /\ (Forall (fun r => r = None) (take c rs) ->
          m (set_rejections rs w)
          = (calm_run.1, set_rejections (drop c rs) calm_run.2)).

(** The log channel of a group, when the group has a configuration, the
    bot can see the channel it names and may send messages there. *)
Definition log_channel (sid : string) (w : world) : option Z :=
  match Database.get_server_config (db w) sid with
  | Some config =>
      match c_log_channel_id config with
      | Some cid =>
          match Platform.find_channel cid (channels w) with
          | Some c => if send_messages c then Some cid else None
          | None => None
          end
      | None => None
      end
  | None => None
  end.

(** The primary key of table [members]: no two rows of a group have the
    same normalized name. *)
Definition member_key (r : member_row) : string * string :=
  (m_server_id r, m_normalized_name r).

Definition unique_keys (d : database) : Prop :=
  NoDup (member_key <$> members d).

(** The rows of a group, in table order. *)
Definition group_rows (d : database) (sid : string) : list member_row :=
  filter (fun r => m_server_id r = sid) (members d).

(** The names on the roster of a group. *)
Definition roster_names (d : database) (sid : string) : list string :=
  (Database.get_members d sid).*1.

(** The pauses taken, oldest first. *)
Definition pauses (t : list event) : list Z :=
  omap (fun ev => match ev with Slept ms => Some ms | _ => None end) t.

(** The next request to the verification source fails for a reason other
    than a rate limit: the connection fails, the status is an error status
    other than 429, or the page cannot be parsed. *)
Definition fetch_fails (rs : list http_result) : bool :=
  match rs with
  | [] => true
  | ConnectionFailure :: _ => true
  | Response st page :: _ =>
      if (400 <=? st) && (st <? 600) then negb (st =? 429)
      else match page with None => true | Some _ => false end
  end.

(** The next request is answered with status 429. *)
Definition rate_limited (r : http_result) : Prop :=
  exists page, r = Response 429 page.

(** The sum [1 + 2 + ... + n]. *)
Fixpoint triangle (n : nat) : Z :=
  match n with
  | O => 0
  | S n' => triangle n' + Z.of_nat n
  end.

(** ** More scenarios *)

Module Cases.

Definition ctx : context :=
  {| ctx_server_id := "1"; ctx_channel_id := 10; ctx_message_id := 150;
     ctx_administrator := false; ctx_roles := [7] |}.

(** A group with auto-remove on, three members, no page stored yet; the
    command message 150 is in the channel. *)
Definition configured : world :=
  Scenario.start
    {| servers := [Scenario.server "1" true; Scenario.server "2" true];
       members := [Scenario.member "1" "Alice" 5; Scenario.member "1" "bob" 3;
                   Scenario.member "2" "Carol" 4; Scenario.member "1" "Dave" 9];
       messages := [] |}
    [(150, Plain "-changeguild Horde")] []
    [Response 200 (Some ["Horde"]); Response 200 (Some ["Horde"])].

(** A group of 50 members whose three stored pages are all there. *)
Definition three_pages : world :=
  Scenario.start
    {| servers := [Scenario.server "1" false];
       members := Scenario.roster "1" 50;
       messages := [Scenario.page_row "1" 0 100; Scenario.page_row "1" 1 101;
                    Scenario.page_row "1" 2 102] |}
    [(100, Plain "old page 1"); (101, Plain "old page 2");
     (102, Plain "old page 3")] [] [].

(** A group of 46 members with no page stored. *)
Definition new_group : world :=
  Scenario.start
    {| servers := [Scenario.server "1" false];
       members := Scenario.roster "1" 46;
       messages := [] |}
    [] [] [].

(** Group 1 has auto-remove on and a member who left the guild; group 2
    has auto-remove off. *)
Definition mixed : world :=
  Scenario.start
    {| servers := [Scenario.server "1" true; Scenario.server "2" false];
       members := [Scenario.member "1" "Alice" 5; Scenario.member "2" "Carol" 4;
                   Scenario.member "2" "Dave" 2];
       messages := [] |}
    [] [] [Response 200 (Some ["Horde"])].

(** The three pages of [three_pages] when one page is enough for two of
    them: the platform accepts the five calls that edit two pages and
    fetch the third message, and rejects its deletion with a server
    error. *)
Definition rejected_deletion : world :=
  set_rejections [None; None; None; None; None; Some (HTTPException 500)]
    three_pages.

(** Two pages whose messages are there; the platform rejects the edit of
    page 1 with a server error and accepts every other call. *)
Definition rejected_edit : world :=
  set_rejections [None; Some (HTTPException 500)] Scenario.rate_limited_edit.

(** A group without members and two stored pages, one already gone; the
    platform rejects the deletion of the other with a server error. *)
Definition rejected_clearing : world :=
  set_rejections [None; None; Some (HTTPException 500)] Scenario.emptied_group.

(** The same group when the platform rejects a later call only. *)
Definition late_rejection : world :=
  set_rejections [None; None; None; None; Some Forbidden] Scenario.emptied_group.

(** The roster with known check times, nothing cached, a source that
    answers nothing. *)
Definition known_times : world :=
  Scenario.start Scenario.known_times [] [] [].

(** A group with a log channel that the bot can see and write to, another
    whose log channel is out of sight. *)
Definition logging : world :=
  {| db := {| servers :=
                [ {| server_id := "1"; admin_role_id := Some 7;
                     list_channel_id := Some 10; log_channel_id := Some 20;
                     guild_name := "Legion"; autoremove := false |};
                  {| server_id := "2"; admin_role_id := None;
                     list_channel_id := Some 10; log_channel_id := Some 30;
                     guild_name := "Legion"; autoremove := false |} ];
              members := []; messages := [] |};
     clock := seconds 1000;
     channels := [ Scenario.channel_10 [];
                   {| channel_id := 20; send_messages := true; history := [] |} ];
     next_message_id := 200; rejections := []; responses := [];
     memo := []; trace := [] |}.

(** The source answers two requests with 429 and then with the page. *)
Definition busy_source : world :=
  Scenario.start
    {| servers := []; members := []; messages := [] |}
    [] [] [Response 429 None; Response 429 None; Response 200 (Some ["Legion"])].

End Cases.

(** * Properties *)

(** ** Rendering of a page *)

Lemma length_slice {A} (a b : nat) (xs : list A) :
  length (slice a b xs) = Nat.min (b - a) (length xs - a).
Proof. unfold slice. by rewrite length_take, length_drop. Qed.

Lemma length_field_members chunk i :
  length (DiscordUtils.field_members chunk i)
  = Nat.min (DiscordUtils.column_size chunk)
            (length chunk - i * DiscordUtils.column_size chunk).
Proof.
  unfold DiscordUtils.field_members. rewrite length_slice. f_equal. lia.
Qed.

(** The column size is the ceiling of a third of the page except when the
    page size is a multiple of three, where it is one more. *)
Lemma column_size_ceiling chunk :
  DiscordUtils.column_size chunk
  = (if (length chunk mod 3 =? 0)%nat
     then (length chunk + 2) / 3 + 1
     else (length chunk + 2) / 3)%nat.
Proof.
  unfold DiscordUtils.column_size, MAX_FIELDS_PER_EMBED.
  destruct (Nat.eqb_spec (length chunk mod 3) 0) as [E|E].
  - pose proof (Nat.div_mod_eq (length chunk) 3).
    pose proof (Nat.div_mod_eq (length chunk + 2) 3).
    pose proof (Nat.mod_upper_bound (length chunk + 2) 3). lia.
  - pose proof (Nat.div_mod_eq (length chunk) 3).
    pose proof (Nat.div_mod_eq (length chunk + 2) 3).
    pose proof (Nat.mod_upper_bound (length chunk) 3).
    pose proof (Nat.mod_upper_bound (length chunk + 2) 3). lia.
Qed.

(** C4 (the code departs from the specification): a full page of 45 members is
    rendered with a column size of 16, one more than the ceiling of 45 / 3,
    so the three fields of the embed hold 16, 16 and 13 members, not 15
    each; the third field starts at the running index 33. *)
Theorem full_page_columns_16_16_13 :
  DiscordUtils.column_size Scenario.full_page = 16%nat
  /\ length <$> DiscordUtils.columns Scenario.full_page = [16; 16; 13]%nat
  /\ (fun f => Text.line_count (f_value f))
       <$> (DiscordUtils.create_list_embeds "Legion" Scenario.full_page
              ≫= e_fields)
     = [16; 16; 13]%nat
  /\ DiscordUtils.index_label 0 Scenario.full_page 2 0 = 33%nat.
Proof. vm_compute. repeat split; reflexivity. Qed.

(** ** Scenarios of the sweep and of the synchronization pass *)

(** C1 (the code departs from the specification): in a sweep over two groups, both
    with a member that is checked and re-stamped, [update_list] runs for the
    second group only; the first group, processed in the same sweep, is
    not synchronized. *)
Theorem sweep_synchronizes_last_group_only :
  let w := exec live_guild_check Scenario.two_groups in
  Database.select_autoremove_servers (db Scenario.two_groups) = ["1"; "2"]
  /\ requested (trace w) = ["Alice"; "Bob"]
  /\ m_last_checked <$> members (db w) = [1000; 1003]
  /\ synchronized (trace w) = ["2"].
Proof. vm_compute. repeat split; reflexivity. Qed.

(** C2 (the code departs from the specification): the edit of page 1 (message 100)
    is rejected with a rate limit. The handler reads [e.retry_after], which
    the exception does not have, and the [AttributeError] ends the pass:
    no pause is taken, the page is not tried again, page 2 is never reached
    although the platform would accept every later call, both messages
    keep their old content, and the stored list is left as it was. The
    last thing the pass does is to log the error. *)
Theorem rate_limited_edit_abandons_pass :
  let w := exec (DiscordUtils.update_list "1") Scenario.rate_limited_edit in
  (fun c => (op_target c.1, c.2)) <$> platform_calls (trace w)
  = [ (Some 100, None);
      (Some 100, Some (HTTPException 429)) ]
  /\ pauses (trace w) = []
  /\ edited (trace w) = []
  /\ Platform.content_of 10 100 w = Some (Plain "old page 1")
  /\ Platform.content_of 10 101 w = Some (Plain "old page 2")
  /\ length (rendered_pages "1" w) = 2%nat
  /\ stored_ids "1" w = [100; 101]
  /\ last (trace w) = Some (Logged Error "Update error in 1").
Proof. vm_compute. repeat split; reflexivity. Qed.

(** C6 (the code departs from the specification): when the only attempt is rate
    limited the loop runs out and the function returns [None]; when the
    page has no guild label it returns the empty list. Neither is a
    boolean. *)
Theorem check_returns_non_boolean :
  eval (AQWUtils.check_aqw_guild "Alice" "Legion") Scenario.rate_limited_source
  = Ret PyNone
  /\ eval (AQWUtils.check_aqw_guild "Alice" "Legion") Scenario.no_guild_label
     = Ret (PyList [])
  /\ is_bool PyNone = false
  /\ is_bool (PyList []) = false.
Proof. vm_compute. repeat split; reflexivity. Qed.

(** C3, as stated, fails: a page whose edit the platform rejects with a
    server error leaves no id in the stored list, which is then shorter
    than the number of rendered pages. *)
Lemma stored_ids_shorter_than_pages :
  ~ (forall sid w,
       length (stored_ids sid (exec (DiscordUtils.update_list sid) w))
       = length (rendered_pages sid w)).
Proof.
  intros H. specialize (H "1" Scenario.server_error_edit).
  vm_compute in H. discriminate H.
Qed.

(** ** The verification client *)

Lemma requested_app t1 t2 : requested (t1 ++ t2) = requested t1 ++ requested t2.
Proof. apply omap_app. Qed.

(** The constant of the source is the retry cap of the decorated function. *)
Lemma check_aqw_guild_cap :
  AQWUtils.check_aqw_guild = AQWUtils.cached (AQWUtils.check_with_retries 1).
Proof. reflexivity. Qed.

(** C9: with a retry cap of 1, a call that has to ask the source (its
    arguments are not in the cache) and whose first request is answered
    with status 429 returns a falsy value, which every caller reads as
    "not a member"; it issues that one request and no other, and the next
    answer of the source is left unread. *)
Theorem rate_limited_single_attempt
    (max_retries : nat) (name aqw_guild_name : string) (w : world)
    (page : option (list string)) (rest : list http_result) :
  max_retries = 1%nat ->
  AQWUtils.memo_lookup (name, aqw_guild_name) (memo w) = None ->
  responses w = Response 429 page :: rest ->
  let run :=
    AQWUtils.cached (AQWUtils.check_with_retries max_retries)
      name aqw_guild_name w in
  (exists v, run.1 = Ret v /\ truthy v = false)
  /\ requested (trace run.2) = requested (trace w) ++ [name]
  /\ responses run.2 = rest.
Proof.
  intros -> Hmiss Hresp. cbv zeta.
  unfold AQWUtils.cached. rewrite Hmiss.
  unfold AQWUtils.check_with_retries. simpl seq.
  unfold AQWUtils.attempts, AQWUtils.attempt_once, bind, try_except,
    AQWUtils.requests_get.
  rewrite Hresp. simpl.
  split; [by exists PyNone|].
  split; [|reflexivity].
  rewrite !requested_app. simpl. by rewrite !app_nil_r.
Qed.

Lemma rate_limited_single_attempt_witness :
  let run :=
    AQWUtils.cached (AQWUtils.check_with_retries 1) "Alice" "Legion"
      Scenario.rate_limited_source in
  (exists v, run.1 = Ret v /\ truthy v = false)
  /\ requested (trace run.2) = requested (trace Scenario.rate_limited_source) ++ ["Alice"]
  /\ responses run.2 = [Response 200 (Some ["Legion"])].
Proof.
  apply (rate_limited_single_attempt 1 "Alice" "Legion"
           Scenario.rate_limited_source None [Response 200 (Some ["Legion"])]);
    reflexivity.
Defined.

(** ** Ordering and selection *)

Section OrderBy.
Context {A : Type} (leb : A -> A -> bool).

Lemma insert_sorted_perm (x : A) (l : list A) : insert_sorted leb x l ≡ₚ x :: l.
Proof.
  induction l as [|y l IH]; simpl; [done|].
  destruct (leb x y); [done|].
  rewrite IH. apply Permutation_swap.
Qed.

Lemma order_by_perm (l : list A) : order_by leb l ≡ₚ l.
Proof.
  induction l as [|x l IH]; simpl; [done|].
  by rewrite insert_sorted_perm, IH.
Qed.

Lemma length_order_by (l : list A) : length (order_by leb l) = length l.
Proof. by rewrite order_by_perm. Qed.

(** A list that is already in order is left as it is. *)
Lemma order_by_sorted_id (l : list A) :
  StronglySorted (fun a b => leb a b = true) l -> order_by leb l = l.
Proof.
  induction 1 as [|x l Hl IH Hx]; simpl; [done|].
  rewrite IH. destruct l as [|y l]; simpl; [done|].
  apply Forall_cons in Hx as [-> _]. done.
Qed.

Hypothesis leb_total : forall a b, leb a b = true \/ leb b a = true.
Hypothesis leb_trans : forall a b c, leb a b = true -> leb b c = true -> leb a c = true.

Lemma insert_sorted_sorted (x : A) (l : list A) :
  StronglySorted (fun a b => leb a b = true) l ->
  StronglySorted (fun a b => leb a b = true) (insert_sorted leb x l).
Proof.
  induction 1 as [|y l Hl IH Hy]; simpl.
  - repeat constructor.
  - destruct (leb x y) eqn:E.
    + constructor; [by constructor|].
      constructor; [done|].
      eapply Forall_impl; [exact Hy|]. intros z Hz. by eapply leb_trans.
    + constructor; [done|].
      rewrite insert_sorted_perm. constructor; [|done].
      destruct (leb_total x y) as [H|H]; congruence.
Qed.

Lemma order_by_sorted (l : list A) :
  StronglySorted (fun a b => leb a b = true) (order_by leb l).
Proof.
  induction l as [|x l IH]; simpl; [constructor|].
  by apply insert_sorted_sorted.
Qed.

End OrderBy.

Lemma checked_leb_total a b :
  Database.checked_leb a b = true \/ Database.checked_leb b a = true.
Proof. unfold Database.checked_leb. lia. Qed.

Lemma checked_leb_trans a b c :
  Database.checked_leb a b = true -> Database.checked_leb b c = true ->
  Database.checked_leb a c = true.
Proof. unfold Database.checked_leb. lia. Qed.

(** The loop over the members of a group goes through the selection, in
    its order. *)
Lemma check_server_runs_selection (sid : string) (config : config)
    (s : world * locals) :
  Database.get_server_config (db s.1) sid = Some config ->
  check_server sid s
  = for_each (Database.select_due (db s.1) sid CHECK_LIMIT)
      (check_member config sid) (s.1, bind_server_id sid s.2).
Proof.
  intros H. unfold check_server, bind, set_local, modify, lift, gets. simpl.
  by rewrite H.
Qed.

(** ** The removal policy *)

Lemma attempt_once_total name aqw_guild_name attempt w :
  exists r w',
    AQWUtils.attempt_once name aqw_guild_name attempt w = (Ret r, w')
    /\ db w' = db w /\ clock w <= clock w'.
Proof.
  unfold AQWUtils.attempt_once, try_except, bind, AQWUtils.requests_get.
  destruct (responses w) as [|[|st page] rest]; simpl.
  - eexists _, _. split; [reflexivity|]. simpl. split; [done|lia].
  - eexists _, _. split; [reflexivity|]. simpl. split; [done|lia].
  - unfold AQWUtils.raise_for_status.
    destruct ((400 <=? st) && (st <? 600)); simpl.
    + destruct (st =? 429); simpl;
        (eexists _, _; split; [reflexivity|]; simpl; split; [done|]).
      * unfold seconds, RETRY_DELAY. lia.
      * lia.
    + destruct page as [nodes|]; simpl;
        (eexists _, _; split; [reflexivity|]; simpl; split; [done|lia]).
Qed.

Lemma attempts_total name aqw_guild_name todo w :
  exists v w',
    AQWUtils.attempts name aqw_guild_name todo w = (Ret v, w')
    /\ db w' = db w /\ clock w <= clock w'.
Proof.
  revert w. induction todo as [|attempt todo IH]; intros w; simpl.
  - eexists _, _. split; [reflexivity|]. split; [done|lia].
  - unfold bind.
    destruct (attempt_once_total name aqw_guild_name attempt w)
      as (r & w1 & -> & Hdb & Hclock).
    destruct r as [v|].
    + eexists _, _. split; [reflexivity|]. done.
    + destruct (IH w1) as (v & w2 & -> & Hdb2 & Hclock2).
      eexists _, _. split; [reflexivity|]. split; [congruence|lia].
Qed.

(** The verification never raises, leaves the store alone and does not
    turn the clock back. *)
Lemma check_aqw_guild_total name aqw_guild_name w :
  exists v w',
    AQWUtils.check_aqw_guild name aqw_guild_name w = (Ret v, w')
    /\ db w' = db w /\ clock w <= clock w'.
Proof.
  unfold AQWUtils.check_aqw_guild, AQWUtils.cached.
  destruct (AQWUtils.memo_lookup _ _) as [v|].
  - eexists _, _. split; [reflexivity|]. simpl. split; [done|lia].
  - unfold AQWUtils.check_aqw_guild_wrapped, AQWUtils.check_with_retries.
    destruct (attempts_total name aqw_guild_name (seq 0 MAX_RETRIES) w)
      as (v & w1 & -> & Hdb & Hclock).
    eexists _, _. split; [reflexivity|]. done.
Qed.

Lemma call_db {A} op (natural : world -> option (A * world)) w :
  (forall w0 a w1, natural w0 = Some (a, w1) -> db w1 = db w0) ->
  db (Platform.call op natural w).2 = db w.
Proof.
  intros Hnat. unfold Platform.call, Platform.next_rejection.
  destruct (rejections w) as [|[e|] rest]; simpl.
  - destruct (natural w) as [[a w1]|] eqn:E; simpl; [by eapply Hnat|done].
  - done.
  - destruct (natural _) as [[a w1]|] eqn:E; simpl; [|done].
    by apply Hnat in E.
Qed.

Lemma send_db cid c w : db (Platform.send cid c w).2 = db w.
Proof.
  apply call_db. intros w0 a w1 H. simpl in H.
  destruct (Platform.find_channel _ _); [|done]. by simplify_eq.
Qed.

(** The audit log never raises and leaves the store alone. *)
Lemma log_action_total sid action w :
  exists w', DiscordUtils.log_action sid action w = (Ret tt, w') /\ db w' = db w.
Proof.
  unfold DiscordUtils.log_action, try_except, bind, gets.
  destruct (Database.get_server_config (db w) sid) as [config|];
    [|by eexists].
  destruct (c_log_channel_id config) as [cid|]; [|by eexists].
  unfold Platform.get_channel, gets.
  destruct (channel_id <$> Platform.find_channel cid (channels w)) as [ch|];
    [|by eexists].
  unfold Platform.may_send, gets.
  destruct (match Platform.find_channel ch (channels w) with
            | Some c => send_messages c | None => false end); simpl;
    [|by eexists].
  pose proof (send_db ch (Plain action) w) as Hdb.
  destruct (Platform.send ch (Plain action) w) as [[mid|e] w1]; simpl in *.
  - by eexists.
  - destruct e; by eexists.
Qed.

(** What one pass through the body of the member loop does to the store:
    the policy applied to the value of the verification. *)
Lemma check_member_db config sid name s :
  db (exec (check_member config sid name) s).1
  = if negb (truthy (verification config name s).1) && c_autoremove config
    then Database.remove_member (db s.1) sid name
    else Database.update_last_checked (db s.1)
           (clock (verification config name s).2 / 1000) sid name.
Proof.
  destruct s as [w l].
  assert (Hpre : exists w0,
    (when ((total_checked l mod 5 =? 0) && (0 <? total_checked l))
       (lift (sleep (seconds (REQUEST_DELAY * 2))))) (w, l) = (Ret tt, (w0, l))
    /\ w0 = (if (total_checked l mod 5 =? 0) && (0 <? total_checked l)
             then exec (sleep (seconds (REQUEST_DELAY * 2))) w else w)
    /\ db w0 = db w).
  { destruct (_ && _); eexists; (split; [reflexivity|]); done. }
  destruct Hpre as (w0 & Hpre & Hw0 & Hdb0).
  destruct (check_aqw_guild_total name (c_guild_name config) w0)
    as (v & w1 & Hcheck & Hdb & _).
  assert (Hver : verification config name (w, l) = (v, w1)).
  { unfold verification. cbn [fst snd]. rewrite <- Hw0. by rewrite Hcheck. }
  rewrite Hver. cbn [fst snd].
  unfold check_member, exec, try_except, bind, get_local, gets.
  cbn [fst snd]. rewrite Hpre.
  unfold lift at 1. cbn [fst snd]. rewrite Hcheck.
  unfold set_local, modify. cbn [fst snd].
  unfold lift, apply_policy. cbn [fst snd].
  destruct (negb (truthy v) && c_autoremove config).
  - unfold bind, remove_member, modify.
    destruct (log_action_total sid ("Auto-removed " +:+ name)
                (set_db (fun d => Database.remove_member d sid name) w1))
      as (w2 & -> & Hdb2).
    simpl. rewrite Hdb2. simpl. congruence.
  - unfold update_last_checked, bind, time_time, gets, modify. simpl.
    congruence.
Qed.

Lemma remove_member_gone d sid name :
  Database.member_exists (Database.remove_member d sid name) sid name = false.
Proof.
  unfold Database.member_exists, Database.remove_member. simpl.
  apply bool_decide_eq_false. rewrite Exists_exists.
  intros (r & Hin & Hkey). apply list_elem_of_filter in Hin as [Hno _]. done.
Qed.

Lemma remove_member_not_listed d sid name :
  normalized_keys d ->
  name ∉ (Database.get_members (Database.remove_member d sid name) sid).*1.
Proof.
  intros Hwf Hin. unfold Database.get_members in Hin.
  rewrite <- list_fmap_compose in Hin.
  apply list_elem_of_fmap in Hin as (r & Hname & Hin). simpl in Hname.
  rewrite order_by_perm in Hin.
  apply list_elem_of_filter in Hin as [Hsid Hin].
  unfold Database.remove_member in Hin. simpl in Hin.
  apply list_elem_of_filter in Hin as [Hno Hin].
  apply Hno. split; [done|].
  unfold normalized_keys in Hwf. rewrite Forall_forall in Hwf.
  rewrite (Hwf r Hin). by subst.
Qed.

Lemma update_last_checked_stamps d now sid name r :
  r ∈ members d ->
  Database.is_member_key sid (Text.lower name) r ->
  Database.touch now r ∈ members (Database.update_last_checked d now sid name).
Proof.
  intros Hin Hkey. unfold Database.update_last_checked. simpl.
  apply list_elem_of_fmap. exists r. split; [|done].
  by rewrite decide_True.
Qed.

Lemma verification_clock (config : config) (name : string) (s : world * locals) :
  clock s.1 <= clock (verification config name s).2.
Proof.
  destruct s as [w l]. unfold verification. cbn [fst snd].
  match goal with
  | |- context [AQWUtils.check_aqw_guild _ _ ?x] => set (w0 := x)
  end.
  assert (clock w <= clock w0).
  { subst w0. destruct (_ && _); simpl; [|lia].
    unfold seconds, REQUEST_DELAY. lia. }
  destruct (check_aqw_guild_total name (c_guild_name config) w0)
    as (v & w1 & -> & _ & Hc). simpl. lia.
Qed.

(** The rows written by [add_member] keep their keys normalized, and the
    policy never breaks that. *)
Lemma add_member_normalized d now sid name :
  normalized_keys d -> normalized_keys (Database.add_member d now sid name).
Proof.
  unfold normalized_keys, Database.add_member. intros H.
  destruct (Database.member_exists d sid name); [done|]. simpl.
  apply Forall_app. split; [done|]. by repeat constructor.
Qed.

Lemma remove_member_normalized d sid name :
  normalized_keys d -> normalized_keys (Database.remove_member d sid name).
Proof.
  unfold normalized_keys, Database.remove_member. simpl. intros H.
  rewrite Forall_forall in H. apply Forall_forall. intros r Hr.
  apply list_elem_of_filter in Hr as [_ Hr]. by apply H.
Qed.

Lemma update_last_checked_normalized d now sid name :
  normalized_keys d ->
  normalized_keys (Database.update_last_checked d now sid name).
Proof.
  unfold normalized_keys, Database.update_last_checked. simpl. intros H.
  apply Forall_fmap. eapply Forall_impl; [exact H|]. intros r Hr. simpl.
  by destruct (decide _).
Qed.

Lemma elem_of_get_members d sid x :
  x ∈ (Database.get_members d sid).*1
  <-> exists r, r ∈ members d /\ m_server_id r = sid /\ m_name r = x.
Proof.
  unfold Database.get_members. rewrite <- list_fmap_compose.
  rewrite list_elem_of_fmap. split.
  - intros (r & -> & Hr). rewrite order_by_perm in Hr.
    apply list_elem_of_filter in Hr as [Hsid Hr]. by exists r.
  - intros (r & Hr & Hsid & Hname). exists r. split; [done|].
    rewrite order_by_perm. by apply list_elem_of_filter.
Qed.

(** The sweep adds no member: a name that is not on the roster is not on
    it after the next members of the group have been checked, so a member
    removed by the sweep is absent when the sweep ends. *)
Lemma check_member_keeps_absent (config : config) (sid other x : string)
    (s : world * locals) :
  x ∉ (Database.get_members (db s.1) sid).*1 ->
  x ∉ (Database.get_members (db (exec (check_member config sid other) s).1) sid).*1.
Proof.
  intros Hx Hin. apply Hx. rewrite check_member_db in Hin.
  apply elem_of_get_members in Hin as (r & Hr & Hsid & Hname).
  apply elem_of_get_members.
  destruct (negb _ && _).
  - unfold Database.remove_member in Hr. simpl in Hr.
    apply list_elem_of_filter in Hr as [_ Hr]. by exists r.
  - unfold Database.update_last_checked in Hr. simpl in Hr.
    apply list_elem_of_fmap in Hr as (r0 & -> & Hr0).
    exists r0. split; [done|]. by destruct (decide _).
Qed.

Lemma member_loop_keeps_absent (config : config) (sid x : string)
    (names : list string) :
  forall s : world * locals,
    x ∉ (Database.get_members (db s.1) sid).*1 ->
    x ∉ (Database.get_members
           (db (exec (for_each names (check_member config sid)) s).1) sid).*1.
Proof.
  induction names as [|other names IH]; intros s Hx; [done|].
  pose proof (check_member_keeps_absent config sid other x s Hx) as Hstep.
  unfold exec in *. cbn [for_each]. unfold bind.
  destruct (check_member config sid other s) as [[[]|e] s1]; simpl in *.
  - by apply IH.
  - done.
Qed.

(** ** The platform in a calm world *)

Lemma platform_calls_app t1 t2 :
  platform_calls (t1 ++ t2) = platform_calls t1 ++ platform_calls t2.
Proof. apply omap_app. Qed.

Lemma creations_emit ev w :
  creations (emit ev w)
  = (creations w
     + match ev with Called (OpSend _ _) _ => 1 | _ => 0 end)%nat.
Proof.
  unfold creations. simpl. rewrite platform_calls_app, List.filter_app, length_app.
  f_equal. by destruct ev as [| |[] ?| |].
Qed.

Lemma edit_calls_emit ev w :
  edit_calls (emit ev w)
  = edit_calls w
    ++ match ev with Called (OpEdit _ mid e) _ => [(mid, e)] | _ => [] end.
Proof.
  unfold edit_calls. simpl. rewrite omap_app. f_equal.
  by destruct ev as [| |[] ?| |].
Qed.

(** The number of edits requested is the length of the list of edits. *)
Lemma edits_length w : edits w = length (edit_calls w).
Proof.
  unfold edits, edit_calls. induction (trace w) as [|ev t IH]; [done|].
  destruct ev as [| |[] ?| |]; simpl; try done. by rewrite IH.
Qed.

Lemma deletions_emit ev w :
  deletions (emit ev w)
  = (deletions w + match ev with Called (OpDelete _ _) _ => 1 | _ => 0 end)%nat.
Proof.
  unfold deletions. simpl. rewrite platform_calls_app, List.filter_app, length_app.
  f_equal. by destruct ev as [| |[] ?| |].
Qed.

Lemma find_channel_update cid f w :
  Platform.find_channel cid (channels (Platform.update_history cid f w))
  = (fun c => {| channel_id := channel_id c;
                 send_messages := send_messages c;
                 history := f (history c) |})
      <$> Platform.find_channel cid (channels w).
Proof.
  unfold Platform.update_history, Platform.find_channel. simpl.
  induction (channels w) as [|c cs IH]; [done|].
  rewrite fmap_cons, !filter_cons.
  destruct (decide (channel_id c = cid)) as [E|E]; simpl.
  - by rewrite decide_True.
  - by rewrite decide_False.
Qed.

Lemma message_ids_update cid f w :
  Platform.message_ids cid (Platform.update_history cid f w)
  = match Platform.find_channel cid (channels w) with
    | Some c => (f (history c)).*1
    | None => []
    end.
Proof.
  unfold Platform.message_ids. rewrite find_channel_update.
  by destruct (Platform.find_channel cid (channels w)).
Qed.

Lemma present_update cid f w :
  present cid w -> present cid (Platform.update_history cid f w).
Proof.
  unfold present. rewrite find_channel_update. intros [c ->]. by eexists.
Qed.

Lemma call_calm {A} op (natural : world -> option (A * world)) w :
  calm w ->
  Platform.call op natural w
  = match natural w with
    | Some (a, w2) => (Ret a, emit (Called op None) w2)
    | None => (Raise NotFound, emit (Called op (Some NotFound)) w)
    end.
Proof. unfold calm, Platform.call, Platform.next_rejection. by intros ->. Qed.

Lemma has_message_elem cid mid w :
  Platform.has_message cid mid w = true <-> mid ∈ Platform.message_ids cid w.
Proof. unfold Platform.has_message. apply bool_decide_eq_true. Qed.

Lemma has_message_not_elem cid mid w :
  Platform.has_message cid mid w = false <-> mid ∉ Platform.message_ids cid w.
Proof. unfold Platform.has_message. apply bool_decide_eq_false. Qed.

Lemma evolves_refl cid w :
  calm w -> present cid w ->
  evolves cid w w (Platform.message_ids cid w) (next_message_id w) 0 [] 0.
Proof.
  intros. unfold evolves. rewrite app_nil_r. repeat split; auto with lia.
Qed.

Lemma evolves_trans cid w w1 w2 ids1 n1 a1 b1 c1 ids2 n2 a2 b2 c2 :
  evolves cid w w1 ids1 n1 a1 b1 c1 ->
  evolves cid w1 w2 ids2 n2 a2 b2 c2 ->
  evolves cid w w2 ids2 n2 (a1 + a2) (b1 ++ b2) (c1 + c2).
Proof.
  unfold evolves. intros (?&?&?&?&?&?&He1&?) (?&?&?&?&?&?&He2&?).
  repeat split; try done; try congruence; try lia.
  by rewrite He2, He1, app_assoc.
Qed.

Lemma sleep_calm cid ms w :
  calm w -> present cid w ->
  exists w', sleep ms w = (Ret tt, w')
    /\ evolves cid w w' (Platform.message_ids cid w) (next_message_id w) 0 [] 0.
Proof.
  intros Hc Hp. eexists. split; [reflexivity|].
  unfold evolves. rewrite creations_emit, edit_calls_emit, deletions_emit.
  rewrite ?app_nil_r; repeat split; auto with lia.
Qed.

Lemma fetch_calm cid mid w :
  calm w -> present cid w ->
  exists w',
    Platform.fetch_message cid mid w
    = (if Platform.has_message cid mid w then Ret mid else Raise NotFound, w')
    /\ evolves cid w w' (Platform.message_ids cid w) (next_message_id w) 0 [] 0.
Proof.
  intros Hc Hp. unfold Platform.fetch_message. rewrite call_calm by done.
  destruct (Platform.has_message cid mid w); (eexists; split; [reflexivity|]);
    unfold evolves; rewrite creations_emit, edit_calls_emit, deletions_emit;
    rewrite ?app_nil_r; repeat split; auto with lia.
Qed.

Lemma edit_calm cid mid e w :
  calm w -> present cid w -> mid ∈ Platform.message_ids cid w ->
  exists w',
    Platform.edit cid mid e w = (Ret tt, w')
    /\ evolves cid w w' (Platform.message_ids cid w) (next_message_id w) 0 [(mid, e)] 0.
Proof.
  intros Hc Hp Hin. unfold Platform.edit. rewrite call_calm by done.
  apply has_message_elem in Hin as ->.
  eexists; split; [reflexivity|].
  unfold evolves; rewrite creations_emit, edit_calls_emit, deletions_emit.
  rewrite ?app_nil_r; repeat split; auto with lia.
  - by apply present_update.
  - change (Platform.message_ids cid (emit ?ev ?x)) with (Platform.message_ids cid x).
    rewrite message_ids_update. unfold Platform.message_ids.
    destruct (Platform.find_channel cid (channels w)) as [c|]; [|done].
    rewrite <- list_fmap_compose. apply list_fmap_ext.
    intros i [m c'] _. simpl. by destruct (decide (m = mid)).
Qed.

Lemma send_calm cid c w :
  calm w -> present cid w ->
  exists w',
    Platform.send cid c w = (Ret (next_message_id w), w')
    /\ evolves cid w w'
         (Platform.message_ids cid w ++ [next_message_id w])
         (next_message_id w + 1) 1 [] 0.
Proof.
  intros Hc Hp. unfold Platform.send. rewrite call_calm by done.
  destruct Hp as [ch Hch]. rewrite Hch.
  eexists; split; [reflexivity|].
  unfold evolves; rewrite creations_emit, edit_calls_emit, deletions_emit.
  rewrite ?app_nil_r; repeat split; auto with lia.
  - apply present_update. by exists ch.
  - change (Platform.message_ids cid (emit ?ev (set_next_message_id ?n ?x)))
      with (Platform.message_ids cid x).
    rewrite message_ids_update. unfold Platform.message_ids. rewrite Hch.
    by rewrite fmap_app.
Qed.

Lemma delete_calm cid mid w :
  calm w -> present cid w -> mid ∈ Platform.message_ids cid w ->
  exists w',
    Platform.delete cid mid w = (Ret tt, w')
    /\ evolves cid w w'
         (filter (fun x => x <> mid) (Platform.message_ids cid w))
         (next_message_id w) 0 [] 1.
Proof.
  intros Hc Hp Hin. unfold Platform.delete. rewrite call_calm by done.
  apply has_message_elem in Hin as ->.
  eexists; split; [reflexivity|].
  unfold evolves; rewrite creations_emit, edit_calls_emit, deletions_emit.
  rewrite ?app_nil_r; repeat split; auto with lia.
  - by apply present_update.
  - change (Platform.message_ids cid (emit ?ev ?x)) with (Platform.message_ids cid x).
    rewrite message_ids_update. unfold Platform.message_ids.
    destruct (Platform.find_channel cid (channels w)) as [ch|]; [|done].
    induction (history ch) as [|[m c'] h IH]; [done|].
    rewrite fmap_cons, !filter_cons. cbn [fst].
    destruct (decide (m <> mid)); rewrite ?fmap_cons; cbn [fst]; congruence.
Qed.

(** ** The two loops of a pass in a calm world *)

Ltac break_evolves :=
  repeat match goal with
         | H : evolves _ _ _ _ _ _ _ _ |- _ =>
             destruct H as (?&?&?&?&?&?&?&?)
         end.

Ltac chain_edit_calls :=
  repeat match goal with
         | H : edit_calls _ = _ |- _ => rewrite H; clear H
         end;
  rewrite ?app_nil_r, <- ?app_assoc; done.

Ltac solve_evolves :=
  break_evolves; unfold evolves;
  repeat split; first [done | congruence | lia | chain_edit_calls].

Lemma pace_calm cid idx w :
  calm w -> present cid w ->
  exists w', when (0 <? idx)%nat (sleep 2500) w = (Ret tt, w')
    /\ evolves cid w w' (Platform.message_ids cid w) (next_message_id w) 0 [] 0.
Proof.
  intros Hc Hp. destruct (0 <? idx)%nat; simpl.
  - by apply sleep_calm.
  - eexists. split; [reflexivity|]. by apply evolves_refl.
Qed.

(** A page in a calm world: its stored message is edited when it is still
    there, otherwise a message is created. *)
Lemma sync_page_calm cid existing idx embed new w :
  calm w -> present cid w ->
  exists x w',
    DiscordUtils.sync_page cid existing (idx, embed) new w = (Ret (new ++ [x]), w')
    /\ ((existing !! idx = Some x
         /\ x ∈ Platform.message_ids cid w
         /\ evolves cid w w' (Platform.message_ids cid w) (next_message_id w)
              0 [(x, embed)] 0)
        \/ ((forall mid, existing !! idx = Some mid ->
                         mid ∉ Platform.message_ids cid w)
            /\ x = next_message_id w
            /\ evolves cid w w' (Platform.message_ids cid w ++ [x]) (x + 1) 1 [] 0)).
Proof.
  intros Hc Hp. unfold DiscordUtils.sync_page, try_except, bind.
  destruct (pace_calm cid idx w Hc Hp) as (w0 & -> & E0).
  assert (Hc0 : calm w0) by (break_evolves; done).
  assert (Hp0 : present cid w0) by (break_evolves; done).
  assert (Hids0 : Platform.message_ids cid w0 = Platform.message_ids cid w)
    by (break_evolves; done).
  destruct (existing !! idx) as [mid|] eqn:Hidx.
  - destruct (fetch_calm cid mid w0 Hc0 Hp0) as (w1 & -> & E1).
    assert (Hc1 : calm w1) by (break_evolves; done).
    assert (Hp1 : present cid w1) by (break_evolves; done).
    assert (Hids1 : Platform.message_ids cid w1 = Platform.message_ids cid w)
      by (break_evolves; congruence).
    destruct (Platform.has_message cid mid w0) eqn:Hhas.
    + apply has_message_elem in Hhas. rewrite Hids0 in Hhas.
      destruct (edit_calm cid mid embed w1 Hc1 Hp1) as (w2 & -> & E2);
        [by rewrite Hids1|].
      exists mid, w2. split; [reflexivity|]. left.
      split; [done|]. split; [done|]. solve_evolves.
    + apply has_message_not_elem in Hhas. rewrite Hids0 in Hhas.
      destruct (send_calm cid (Embedded embed) w1 Hc1 Hp1) as (w2 & -> & E2).
      exists (next_message_id w1), w2. split; [reflexivity|]. right.
      split; [by intros ? [= <-]|].
      split; [break_evolves; congruence|]. solve_evolves.
  - destruct (send_calm cid (Embedded embed) w0 Hc0 Hp0) as (w2 & -> & E2).
    exists (next_message_id w0), w2. split; [reflexivity|]. right.
    split; [done|].
    split; [break_evolves; congruence|]. solve_evolves.
Qed.

Lemma sync_pages_calm cid existing embeds :
  forall k new w,
    calm w -> present cid w ->
    exists ids w',
      for_fold (enumerate_from k embeds) (DiscordUtils.sync_page cid existing) new w
      = (Ret (new ++ ids), w')
      /\ length ids = length embeds
      /\ calm w' /\ db w' = db w /\ present cid w'
      /\ deletions w' = deletions w
      /\ next_message_id w <= next_message_id w'
      /\ (forall x, x ∈ Platform.message_ids cid w ->
                    x ∈ Platform.message_ids cid w')
      /\ Forall (fun x => x ∈ Platform.message_ids cid w') ids
      /\ Forall (fun x =>
                   (exists i, (k <= i < k + length embeds)%nat
                              /\ existing !! i = Some x)
                   \/ next_message_id w <= x) ids
      /\ (NoDup existing ->
          Forall (fun x => x < next_message_id w) existing ->
          NoDup ids)
      /\ (Forall (fun x => x < next_message_id w) existing ->
          Forall (fun x => x < next_message_id w') ids).
Proof.
  induction embeds as [|embed embeds IH]; intros k new w Hc Hp.
  - exists [], w. simpl. rewrite app_nil_r.
    repeat split; auto with lia; constructor.
  - cbn [enumerate_from for_fold]. unfold bind.
    destruct (sync_page_calm cid existing k embed new w Hc Hp)
      as (x & w1 & -> & Hx).
    assert (Hstep : calm w1 /\ present cid w1 /\ db w1 = db w
                    /\ deletions w1 = deletions w
                    /\ next_message_id w <= next_message_id w1
                    /\ (forall y, y ∈ Platform.message_ids cid w ->
                                  y ∈ Platform.message_ids cid w1)
                    /\ x ∈ Platform.message_ids cid w1).
    { destruct Hx as [(_ & Hin & E)|(_ & -> & E)]; break_evolves;
        repeat split; try done; try lia.
      - congruence.
      - congruence.
      - intros y Hy.
        match goal with H : Platform.message_ids cid w1 = _ |- _ => rewrite H end.
        apply elem_of_app. by left.
      - match goal with H : Platform.message_ids cid w1 = _ |- _ => rewrite H end.
        apply elem_of_app. right. by apply list_elem_of_singleton. }
    destruct Hstep as (Hc1 & Hp1 & Hdb1 & Hdel1 & Hnext1 & Hmono1 & Hxin).
    destruct (IH (S k) (new ++ [x]) w1 Hc1 Hp1)
      as (ids & w2 & -> & Hlen & Hc2 & Hdb2 & Hp2 & Hdel2 & Hnext2 & Hmono2
          & Hin2 & Horig2 & Hnodup2 & Hbelow2).
    exists (x :: ids), w2.
    split; [by rewrite <- app_assoc|].
    split; [simpl; by rewrite Hlen|].
    split; [done|]. split; [congruence|]. split; [done|].
    split; [congruence|]. split; [lia|].
    split; [by auto|].
    split; [constructor; auto|].
    split; [|split].
    + constructor.
      * destruct Hx as [(Hk & _ & _)|(_ & -> & _)]; [left|right; lia].
        exists k. split; [simpl; lia|done].
      * eapply Forall_impl; [exact Horig2|]. intros y [(i & Hi & Hy)|Hy].
        -- left. exists i. split; [simpl; lia|done].
        -- right. lia.
    + intros Hnd Hlt.
      assert (Hlt1 : Forall (fun y => y < next_message_id w1) existing).
      { eapply Forall_impl; [exact Hlt|]. intros; simpl in *. lia. }
      apply NoDup_cons. split; [|by apply Hnodup2].
      intros Hxin'. rewrite Forall_forall in Horig2, Hlt.
      destruct (Horig2 x Hxin') as [(i & Hi & Hy)|Hy].
      * destruct Hx as [(Hk & _ & _)|(_ & -> & _)].
        -- assert (k = i) by (eapply NoDup_lookup; eauto). lia.
        -- assert (next_message_id w < next_message_id w); [|lia].
           apply Hlt. eapply list_elem_of_lookup_2; eauto.
      * destruct Hx as [(Hk & _ & E)|(_ & -> & E)].
        -- assert (x < next_message_id w).
           { apply Hlt. eapply list_elem_of_lookup_2; eauto. }
           break_evolves. lia.
        -- break_evolves. lia.
    + intros Hlt.
      assert (Hlt1 : Forall (fun y => y < next_message_id w1) existing).
      { eapply Forall_impl; [exact Hlt|]. intros; simpl in *. lia. }
      constructor; [|by apply Hbelow2].
      rewrite Forall_forall in Hlt.
      destruct Hx as [(Hk & _ & E)|(_ & -> & E)].
      * assert (x < next_message_id w).
        { apply Hlt. eapply list_elem_of_lookup_2; eauto. }
        lia.
      * break_evolves. lia.
Qed.

Lemma sync_pages_all_present cid existing embeds :
  forall k new w,
    calm w -> present cid w ->
    (forall i, (i < length embeds)%nat ->
               exists x, existing !! (k + i)%nat = Some x
                         /\ x ∈ Platform.message_ids cid w) ->
    exists w',
      for_fold (enumerate_from k embeds) (DiscordUtils.sync_page cid existing) new w
      = (Ret (new ++ take (length embeds) (drop k existing)), w')
      /\ evolves cid w w' (Platform.message_ids cid w) (next_message_id w)
           0 (zip (take (length embeds) (drop k existing)) embeds) 0.
Proof.
  induction embeds as [|embed embeds IH]; intros k new w Hc Hp Hall.
  - exists w. simpl. rewrite app_nil_r. split; [done|]. by apply evolves_refl.
  - cbn [enumerate_from for_fold]. unfold bind.
    destruct (Hall 0%nat) as (x0 & Hx0 & Hin0); [simpl; lia|].
    rewrite Nat.add_0_r in Hx0.
    destruct (sync_page_calm cid existing k embed new w Hc Hp)
      as (x & w1 & -> & [(Hk & Hin & E)|(Hno & _ & _)]);
      [|by exfalso; eapply Hno].
    assert (x = x0) by congruence. subst x0.
    assert (Hc1 : calm w1) by (break_evolves; done).
    assert (Hp1 : present cid w1) by (break_evolves; done).
    assert (Hids1 : Platform.message_ids cid w1 = Platform.message_ids cid w)
      by (break_evolves; done).
    destruct (IH (S k) (new ++ [x]) w1 Hc1 Hp1) as (w2 & -> & E2).
    { intros i Hi. destruct (Hall (S i)) as (y & Hy & Hyin); [simpl; lia|].
      exists y. rewrite Hids1. split; [|done].
      by replace (S k + i)%nat with (k + S i)%nat by lia. }
    exists w2. rewrite (drop_S _ _ _ Hk). split.
    + by rewrite <- app_assoc.
    + cbn [length take zip zip_with]. solve_evolves.
Qed.

Lemma filter_ne_absent (mid : Z) (l : list Z) :
  mid ∉ l -> filter (fun x => x <> mid) l = l.
Proof.
  induction l as [|y l IH]; [done|]. intros Hn.
  apply not_elem_of_cons in Hn as [Hne Hn].
  rewrite filter_cons_True by done. by rewrite IH.
Qed.

(** A stale message in a calm world: deleted when it is still there,
    passed over when it is already gone. *)
Lemma delete_stale_calm cid mid w :
  calm w -> present cid w ->
  exists w' n,
    DiscordUtils.delete_stale cid mid w = (Ret tt, w')
    /\ evolves cid w w'
         (filter (fun x => x <> mid) (Platform.message_ids cid w))
         (next_message_id w) 0 [] n
    /\ (n <= 1)%nat.
Proof.
  intros Hc Hp. unfold DiscordUtils.delete_stale, try_except, bind.
  destruct (fetch_calm cid mid w Hc Hp) as (w1 & -> & E1).
  assert (Hc1 : calm w1) by (break_evolves; done).
  assert (Hp1 : present cid w1) by (break_evolves; done).
  assert (Hids1 : Platform.message_ids cid w1 = Platform.message_ids cid w)
    by (break_evolves; done).
  destruct (Platform.has_message cid mid w) eqn:Hhas.
  - apply has_message_elem in Hhas.
    destruct (delete_calm cid mid w1 Hc1 Hp1) as (w2 & -> & E2);
      [by rewrite Hids1|].
    exists w2, 1%nat. split; [done|]. split; [|lia]. solve_evolves.
  - apply has_message_not_elem in Hhas.
    exists w1, 0%nat. split; [done|]. split; [|lia].
    rewrite filter_ne_absent by done. solve_evolves.
Qed.

Lemma delete_all_calm cid ids :
  forall w,
    calm w -> present cid w ->
    exists w' rest n,
      for_each ids (DiscordUtils.delete_stale cid) w = (Ret tt, w')
      /\ evolves cid w w' rest (next_message_id w) 0 [] n
      /\ (n <= length ids)%nat
      /\ forall x, x ∈ rest <-> x ∈ Platform.message_ids cid w /\ x ∉ ids.
Proof.
  induction ids as [|mid ids IH]; intros w Hc Hp.
  - exists w, (Platform.message_ids cid w), 0%nat.
    split; [done|]. split; [by apply evolves_refl|]. split; [simpl; lia|].
    intros x. split; [intros ?; split; [done|apply not_elem_of_nil]|by intros [? _]].
  - cbn [for_each]. unfold bind.
    destruct (delete_stale_calm cid mid w Hc Hp) as (w1 & n1 & -> & E1 & Hn1).
    assert (Hc1 : calm w1) by (break_evolves; done).
    assert (Hp1 : present cid w1) by (break_evolves; done).
    assert (Hids1 : Platform.message_ids cid w1
                    = filter (fun x => x <> mid) (Platform.message_ids cid w))
      by (break_evolves; done).
    assert (Hnext1 : next_message_id w1 = next_message_id w)
      by (break_evolves; done).
    destruct (IH w1 Hc1 Hp1) as (w2 & rest & n2 & -> & E2 & Hn2 & Hrest).
    exists w2, rest, (n1 + n2)%nat. split; [done|].
    split; [rewrite Hnext1 in E2; solve_evolves|].
    split; [simpl; lia|].
    intros x. rewrite Hrest, Hids1, list_elem_of_filter, not_elem_of_cons.
    tauto.
Qed.

(** ** The stored list of display messages *)

Lemma filter_none {A} (P : A -> Prop) `{forall x, Decision (P x)} (l : list A) :
  Forall (fun x => ~ P x) l -> filter P l = [].
Proof.
  induction 1 as [|x l Hx Hl IH]; [done|]. by rewrite filter_cons_False.
Qed.

Lemma filter_all {A} (P : A -> Prop) `{forall x, Decision (P x)} (l : list A) :
  Forall P l -> filter P l = l.
Proof.
  induction 1 as [|x l Hx Hl IH]; [done|]. rewrite filter_cons_True by done.
  by rewrite IH.
Qed.

Lemma enumerate_from_index {A} (k : nat) (l : list A) :
  Forall (fun p => (k <= p.1)%nat) (enumerate_from k l).
Proof.
  revert k. induction l as [|x l IH]; intros k; simpl; constructor; [simpl; lia|].
  eapply Forall_impl; [apply IH|]. intros; simpl in *. lia.
Qed.

Lemma enumerate_from_snd {A} (k : nat) (l : list A) :
  (enumerate_from k l).*2 = l.
Proof. revert k. induction l as [|x l IH]; intros k; simpl; [done|]. by rewrite IH. Qed.

(** What was saved is read back, in the same order; the other tables are
    not touched. *)
Lemma save_message_ids_read d sid ids d' :
  Database.save_message_ids d sid ids = Some d' ->
  servers d' = servers d /\ members d' = members d
  /\ Database.get_message_ids d' sid = ids.
Proof.
  unfold Database.save_message_ids. destruct (decide (NoDup ids)); [|done].
  intros [= <-]. split; [done|]. split; [done|].
  unfold Database.get_message_ids. simpl.
  rewrite filter_app.
  rewrite (filter_none _ (filter _ (messages d))).
  2:{ apply Forall_forall. intros r Hr.
      apply list_elem_of_filter in Hr as [Hr _]. done. }
  rewrite app_nil_l, filter_all.
  2:{ apply Forall_forall. intros r Hr.
      apply list_elem_of_fmap in Hr as (p & -> & _). done. }
  rewrite order_by_sorted_id.
  - rewrite <- list_fmap_compose. unfold enumerate.
    rewrite <- (enumerate_from_snd 0 ids) at 2. done.
  - unfold enumerate. generalize 0%nat.
    induction ids as [|x ids IH]; intros k; simpl; constructor.
    + apply IH. by apply NoDup_cons in n as [_ ?].
    + apply Forall_fmap. eapply Forall_impl; [apply enumerate_from_index|].
      intros p Hp. unfold Database.index_leb. simpl in *.
      apply Nat.leb_le. lia.
Qed.

Lemma find_channel_id cid cs c :
  Platform.find_channel cid cs = Some c -> channel_id c = cid.
Proof.
  unfold Platform.find_channel. intros H.
  apply head_Some_elem_of in H. by apply list_elem_of_filter in H as [? _].
Qed.

Lemma list_channel_inv sid cid w :
  list_channel sid w = Some cid ->
  exists config,
    Database.get_server_config (db w) sid = Some config
    /\ c_list_channel_id config = Some cid
    /\ present cid w
    /\ channel_id <$> Platform.find_channel cid (channels w) = Some cid.
Proof.
  unfold list_channel, present.
  destruct (Database.get_server_config (db w) sid) as [config|]; [|done].
  destruct (c_list_channel_id config) as [c|] eqn:Hc; [|done].
  destruct (Platform.find_channel c (channels w)) as [ch|] eqn:Hch; [|done].
  simpl. intros [= <-]. pose proof (find_channel_id _ _ _ Hch) as Hid.
  exists config. rewrite Hid, Hch. simpl. rewrite Hid. by eauto.
Qed.

(** A pass that reaches the channel is the reconciliation of the rendered
    pages, under the handler that logs whatever escapes. *)
Lemma update_list_reconciles sid cid w :
  list_channel sid w = Some cid ->
  DiscordUtils.update_list sid w
  = try_except (DiscordUtils.reconcile sid cid (rendered_pages sid w))
      (fun _ => log Error ("Update error in " +:+ sid))
      (emit (Synchronized sid) w).
Proof.
  intros H.
  destruct (list_channel_inv sid cid w H) as (config & Hcfg & Hcid & _ & Hget).
  unfold DiscordUtils.update_list, rendered_pages, bind, modify, try_except,
    Platform.get_channel, gets.
  simpl. rewrite Hcfg, Hcid. simpl. by rewrite Hget.
Qed.

Lemma emit_synchronized_evolves cid sid w :
  calm w -> present cid w ->
  evolves cid w (emit (Synchronized sid) w)
    (Platform.message_ids cid w) (next_message_id w) 0 [] 0.
Proof.
  intros Hc Hp. unfold evolves.
  rewrite creations_emit, edit_calls_emit, deletions_emit, app_nil_r.
  repeat split; auto with lia.
Qed.

Lemma get_server_config_servers d d' sid :
  servers d' = servers d ->
  Database.get_server_config d' sid = Database.get_server_config d sid.
Proof. unfold Database.get_server_config. by intros ->. Qed.

Lemma get_members_members d d' sid :
  members d' = members d ->
  Database.get_members d' sid = Database.get_members d sid.
Proof. unfold Database.get_members. by intros ->. Qed.

Lemma save_message_ids_calm sid ids w :
  NoDup ids ->
  exists d',
    Database.save_message_ids (db w) sid ids = Some d'
    /\ DiscordUtils.save_message_ids sid ids w = (Ret tt, set_db (fun _ => d') w).
Proof.
  intros Hnd. unfold DiscordUtils.save_message_ids.
  unfold Database.save_message_ids. rewrite decide_True by done.
  eexists. split; reflexivity.
Qed.

(** A pass in a calm world, from the channel on: it returns normally, and
    the list it stores has one id per page, all distinct, each of a message
    that is in the channel when the pass ends. *)
Lemma reconcile_calm sid cid embeds w :
  calm w -> present cid w -> issued_ids sid w ->
  exists w',
    DiscordUtils.reconcile sid cid embeds w = (Ret tt, w')
    /\ calm w' /\ present cid w'
    /\ servers (db w') = servers (db w)
    /\ members (db w') = members (db w)
    /\ length (stored_ids sid w') = length embeds
    /\ issued_ids sid w'
    /\ Forall (fun x => x ∈ Platform.message_ids cid w') (stored_ids sid w').
Proof.
  intros Hc Hp [Hnd Hlt].
  unfold DiscordUtils.reconcile, bind, gets, enumerate.
  fold (stored_ids sid w). set (existing := stored_ids sid w) in *.
  destruct (sync_pages_calm cid existing embeds 0 [] w Hc Hp)
    as (ids & w1 & -> & Hlen & Hc1 & Hdb1 & Hp1 & _ & _ & _ & Hin1 & Horig
        & Hnodup & Hbelow).
  destruct (delete_all_calm cid (drop (length embeds) existing) w1 Hc1 Hp1)
    as (w2 & rest & n & -> & E2 & _ & Hrest).
  rewrite app_nil_l.
  destruct (save_message_ids_calm sid ids w2 (Hnodup Hnd Hlt))
    as (d' & Hsave & ->).
  apply save_message_ids_read in Hsave as (Hservers & Hmembers & Hread).
  assert (Hdb2 : db w2 = db w) by (break_evolves; congruence).
  eexists. split; [reflexivity|].
  unfold issued_ids, stored_ids. simpl.
  split; [break_evolves; done|]. split; [break_evolves; done|].
  split; [congruence|]. split; [congruence|].
  rewrite Hread. split; [done|].
  split.
  { split; [by apply Hnodup|].
    replace (next_message_id w2) with (next_message_id w1)
      by (break_evolves; congruence).
    by apply Hbelow. }
  assert (Hmsgs : Platform.message_ids cid (set_db (fun _ => d') w2) = rest).
  { change (Platform.message_ids cid (set_db ?f ?x)) with (Platform.message_ids cid x).
    by break_evolves. }
  rewrite Hmsgs. rewrite Forall_forall in Hin1, Horig, Hlt.
  apply Forall_forall. intros x Hx. apply Hrest. split; [by apply Hin1|].
  intros Hdrop. apply list_elem_of_lookup in Hdrop as (j & Hj).
  rewrite lookup_drop in Hj.
  destruct (Horig x Hx) as [(i & Hi & Hxi)|Hfresh].
  - assert (i = (length embeds + j)%nat) by (eapply NoDup_lookup; eauto). lia.
  - assert (x < next_message_id w); [|lia].
    apply Hlt. eapply list_elem_of_lookup_2; eauto.
Qed.

(** A pass in a calm world over a stored list that has one present message
    per page: every page is an edit of its own message, nothing is created
    or deleted, and the list is stored again as it was. *)
Lemma reconcile_settled sid cid embeds w :
  calm w -> present cid w ->
  NoDup (stored_ids sid w) ->
  length (stored_ids sid w) = length embeds ->
  Forall (fun x => x ∈ Platform.message_ids cid w) (stored_ids sid w) ->
  exists w',
    DiscordUtils.reconcile sid cid embeds w = (Ret tt, w')
    /\ stored_ids sid w' = stored_ids sid w
    /\ creations w' = creations w
    /\ deletions w' = deletions w
    /\ edit_calls w' = edit_calls w ++ zip (stored_ids sid w) embeds.
Proof.
  intros Hc Hp Hnd Hlen Hin.
  unfold DiscordUtils.reconcile, bind, gets, enumerate.
  fold (stored_ids sid w). set (existing := stored_ids sid w) in *.
  destruct (sync_pages_all_present cid existing embeds 0 [] w Hc Hp)
    as (w1 & -> & E1).
  { intros i Hi. destruct (lookup_lt_is_Some_2 existing i) as [x Hx]; [lia|].
    exists x. split; [done|]. rewrite Forall_forall in Hin. apply Hin.
    eapply list_elem_of_lookup_2; eauto. }
  rewrite drop_0, take_ge in E1 by lia.
  rewrite drop_0, app_nil_l, take_ge by lia.
  rewrite drop_ge by lia. cbn [for_each]. unfold ret.
  destruct (save_message_ids_calm sid existing w1 Hnd) as (d' & Hsave & ->).
  apply save_message_ids_read in Hsave as (_ & _ & Hread).
  eexists. split; [reflexivity|].
  unfold stored_ids at 1. simpl. split; [done|].
  change (creations (set_db ?f ?x)) with (creations x).
  change (deletions (set_db ?f ?x)) with (deletions x).
  change (edit_calls (set_db ?f ?x)) with (edit_calls x).
  break_evolves. repeat split; [lia|lia|done].
Qed.

(** ** Synchronization passes *)

Lemma list_channel_intro sid cid w config :
  Database.get_server_config (db w) sid = Some config ->
  c_list_channel_id config = Some cid ->
  present cid w ->
  list_channel sid w = Some cid.
Proof.
  intros Hcfg Hcid [ch Hch]. unfold list_channel. rewrite Hcfg, Hcid, Hch.
  simpl. f_equal. by eapply find_channel_id.
Qed.

(** A pass over no page: every stored message is deleted or found gone, and
    the empty list is stored. *)
Lemma reconcile_empty sid cid w :
  calm w -> present cid w ->
  exists w',
    DiscordUtils.reconcile sid cid [] w = (Ret tt, w')
    /\ (forall mid, mid ∈ stored_ids sid w -> mid ∉ Platform.message_ids cid w')
    /\ creations w' = creations w
    /\ edit_calls w' = edit_calls w
    /\ stored_ids sid w' = [].
Proof.
  intros Hc Hp.
  unfold DiscordUtils.reconcile, bind, gets, enumerate.
  cbn [enumerate_from for_fold length]. unfold ret at 1. rewrite drop_0.
  fold (stored_ids sid w).
  destruct (delete_all_calm cid (stored_ids sid w) w Hc Hp)
    as (w2 & rest & n & -> & E2 & _ & Hrest).
  destruct (save_message_ids_calm sid [] w2) as (d' & Hsave & ->);
    [constructor|].
  apply save_message_ids_read in Hsave as (_ & _ & Hread).
  eexists. split; [reflexivity|].
  change (Platform.message_ids cid (set_db ?f ?x)) with (Platform.message_ids cid x).
  change (creations (set_db ?f ?x)) with (creations x).
  change (edit_calls (set_db ?f ?x)) with (edit_calls x).
  destruct E2 as (_ & _ & _ & Hmsgs & _ & Hcre & Hed & _).
  rewrite app_nil_r in Hed.
  split.
  - intros mid Hmid Hin. rewrite Hmsgs in Hin.
    apply Hrest in Hin as [_ Hno]. by apply Hno.
  - repeat split; [lia|done|done].
Qed.

(** The conditions under which the passes above are described are kept by
    a pass. *)
Lemma update_list_keeps_conditions (sid : string) (cid : Z) (w : world) :
  calm w ->
  list_channel sid w = Some cid ->
  issued_ids sid w ->
  let w' := exec (DiscordUtils.update_list sid) w in
  calm w' /\ list_channel sid w' = Some cid /\ issued_ids sid w'.
Proof.
  intros Hc Hch Hissued w'. subst w'. unfold exec.
  rewrite (update_list_reconciles sid cid w Hch). unfold try_except.
  destruct (list_channel_inv sid cid w Hch) as (config & Hcfg & Hcid & Hp & _).
  destruct (reconcile_calm sid cid (rendered_pages sid w)
              (emit (Synchronized sid) w))
    as (w1 & -> & Hc1 & Hp1 & Hservers & _ & _ & Hissued1 & _); [done..|].
  cbn [snd]. simpl in Hservers.
  split; [done|]. split; [|done].
  eapply list_channel_intro; [|exact Hcid|exact Hp1].
  by rewrite (get_server_config_servers _ _ _ Hservers).
Qed.

(** ** How often a sweep synchronizes *)

Section Silent.
Context {S : Type} (tr : S -> list event).

Lemma silent_ret {A} (a : A) : silent tr (ret a).
Proof. by intros s. Qed.

Lemma silent_raise {A} (e : exn) : silent tr (raise (A := A) e).
Proof. by intros s. Qed.

Lemma silent_gets {A} (f : S -> A) : silent tr (gets f).
Proof. by intros s. Qed.

Lemma silent_bind {A B} (m : M S A) (k : A -> M S B) :
  silent tr m -> (forall a, silent tr (k a)) -> silent tr (bind m k).
Proof.
  intros Hm Hk s. unfold bind. specialize (Hm s).
  destruct (m s) as [[a|e] s1]; simpl in *; [|done].
  by rewrite Hk.
Qed.

Lemma silent_try_except {A} (body : M S A) (handler : exn -> M S A) :
  silent tr body -> (forall e, silent tr (handler e)) ->
  silent tr (try_except body handler).
Proof.
  intros Hm Hk s. unfold try_except. specialize (Hm s).
  destruct (body s) as [[a|e] s1]; simpl in *; [done|].
  by rewrite Hk.
Qed.

Lemma silent_when (b : bool) (m : M S unit) :
  silent tr m -> silent tr (when b m).
Proof. destruct b; [done|]. intros _. apply silent_ret. Qed.

Lemma silent_for_each {A} (xs : list A) (body : A -> M S unit) :
  (forall x, silent tr (body x)) -> silent tr (for_each xs body).
Proof.
  intros Hb. induction xs as [|x xs IH]; simpl; [apply silent_ret|].
  apply silent_bind; [apply Hb|by intros _].
Qed.

Lemma silent_for_fold {A B} (xs : list A) (body : A -> B -> M S B) (acc : B) :
  (forall x b, silent tr (body x b)) -> silent tr (for_fold xs body acc).
Proof.
  intros Hb. revert acc. induction xs as [|x xs IH]; intros acc; simpl;
    [apply silent_ret|].
  apply silent_bind; [apply Hb|done].
Qed.

End Silent.

Lemma synchronized_app t1 t2 :
  synchronized (t1 ++ t2) = synchronized t1 ++ synchronized t2.
Proof. apply omap_app. Qed.

Lemma silent_lift {A} (m : M world A) :
  silent trace m -> silent (fun s : world * locals => trace s.1) (lift m).
Proof.
  intros Hm [w l]. unfold lift. simpl. specialize (Hm w).
  by destruct (m w) as [r w1].
Qed.

Lemma silent_set_local f :
  silent (fun s : world * locals => trace s.1) (set_local f).
Proof. by intros s. Qed.

Lemma silent_get_local {A} (f : locals -> A) :
  silent (fun s : world * locals => trace s.1) (get_local f).
Proof. by intros s. Qed.

Lemma silent_sleep ms : silent trace (sleep ms).
Proof.
  intros w. unfold sleep, modify. simpl.
  by rewrite synchronized_app, app_nil_r.
Qed.

Lemma silent_log lvl msg : silent trace (log lvl msg).
Proof.
  intros w. unfold log, modify. simpl.
  by rewrite synchronized_app, app_nil_r.
Qed.

Lemma silent_call {A} op (natural : world -> option (A * world)) :
  (forall w a w', natural w = Some (a, w') -> trace w' = trace w) ->
  silent trace (Platform.call op natural).
Proof.
  intros Hnat w. unfold Platform.call, Platform.next_rejection.
  assert (Hcase : forall w0, trace w0 = trace w ->
    synchronized
      (trace (match natural w0 with
              | Some (a, w2) => (Ret a, emit (Called op None) w2)
              | None => (Raise NotFound, emit (Called op (Some NotFound)) w0)
              end).2) = synchronized (trace w)).
  { intros w0 Hw0. destruct (natural w0) as [[a w2]|] eqn:E; simpl.
    - apply Hnat in E. by rewrite synchronized_app, app_nil_r, E, Hw0.
    - by rewrite synchronized_app, app_nil_r, Hw0. }
  destruct (rejections w) as [|[e|] rest]; simpl.
  - by apply Hcase.
  - by rewrite synchronized_app, app_nil_r.
  - by apply Hcase.
Qed.

Lemma silent_fetch cid mid : silent trace (Platform.fetch_message cid mid).
Proof.
  apply silent_call. intros w a w' H. simpl in H.
  destruct (Platform.has_message cid mid w); by simplify_eq.
Qed.

Lemma silent_edit cid mid e : silent trace (Platform.edit cid mid e).
Proof.
  apply silent_call. intros w a w' H. simpl in H.
  destruct (Platform.has_message cid mid w); by simplify_eq.
Qed.

Lemma silent_send cid c : silent trace (Platform.send cid c).
Proof.
  apply silent_call. intros w a w' H. simpl in H.
  destruct (Platform.find_channel cid (channels w)); by simplify_eq.
Qed.

Lemma silent_delete cid mid : silent trace (Platform.delete cid mid).
Proof.
  apply silent_call. intros w a w' H. simpl in H.
  destruct (Platform.has_message cid mid w); by simplify_eq.
Qed.

Create HintDb silent.

#[local] Hint Resolve silent_ret silent_raise silent_gets silent_sleep
  silent_log silent_fetch silent_edit silent_send silent_delete
  silent_lift silent_set_local silent_get_local : silent.

Ltac silence :=
  repeat first
    [ progress intros
    | solve [eauto with silent]
    | apply silent_bind
    | apply silent_try_except
    | apply silent_when
    | apply silent_for_each
    | apply silent_for_fold
    | match goal with
      | |- silent _ (match ?x with _ => _ end) => destruct x
      | |- silent _ (if ?b then _ else _) => destruct b
      | |- silent _ (let (_, _) := ?x in _) => destruct x
      end ].

Lemma silent_attempts name aqw_guild_name todo :
  silent trace (AQWUtils.attempts name aqw_guild_name todo).
Proof.
  induction todo as [|attempt todo IH]; simpl; [apply silent_ret|].
  apply silent_bind; [|by intros [v|]; [apply silent_ret|]].
  unfold AQWUtils.attempt_once. apply silent_try_except.
  - apply silent_bind.
    + intros w. unfold AQWUtils.requests_get.
      destruct (responses w) as [|[|st page] rest]; simpl;
        by rewrite synchronized_app, app_nil_r.
    + intros r. unfold AQWUtils.raise_for_status, AQWUtils.guild_element.
      silence.
  - silence.
Qed.

Lemma silent_check_aqw_guild name aqw_guild_name :
  silent trace (AQWUtils.check_aqw_guild name aqw_guild_name).
Proof.
  intros w. unfold AQWUtils.check_aqw_guild, AQWUtils.cached.
  destruct (AQWUtils.memo_lookup _ _); [done|].
  pose proof (silent_attempts name aqw_guild_name (seq 0 MAX_RETRIES) w) as H.
  unfold AQWUtils.check_aqw_guild_wrapped, AQWUtils.check_with_retries.
  by destruct (AQWUtils.attempts _ _ _ w) as [[v|e] w1].
Qed.

Lemma silent_log_action sid action :
  silent trace (DiscordUtils.log_action sid action).
Proof.
  unfold DiscordUtils.log_action, Platform.get_channel, Platform.may_send.
  silence.
Qed.

Lemma silent_on_http_error {A} what (skip : A) e :
  silent trace (DiscordUtils.on_http_error what skip e).
Proof. unfold DiscordUtils.on_http_error. silence. Qed.

Lemma silent_reconcile sid cid embeds :
  silent trace (DiscordUtils.reconcile sid cid embeds).
Proof.
  pose proof (@silent_on_http_error) as Hh.
  unfold DiscordUtils.reconcile. apply silent_bind; [silence|]. intros existing.
  apply silent_bind.
  { apply silent_for_fold. intros [idx embed] new.
    unfold DiscordUtils.sync_page. silence. }
  intros new. apply silent_bind.
  { apply silent_for_each. intros mid. unfold DiscordUtils.delete_stale.
    silence. }
  intros _ w. unfold DiscordUtils.save_message_ids.
  by destruct (Database.save_message_ids _ _ _).
Qed.

(** One call of [update_list] is one synchronization, of the group it is
    called for. *)
Lemma update_list_synchronizes_once sid w :
  synchronized (trace (exec (DiscordUtils.update_list sid) w))
  = synchronized (trace w) ++ [sid].
Proof.
  unfold exec, DiscordUtils.update_list, bind at 1, modify.
  match goal with
  | |- synchronized (trace (try_except ?b ?h ?w0).2) = _ =>
      assert (Hs : silent trace (try_except b h))
  end.
  { pose proof silent_reconcile. unfold Platform.get_channel. silence. }
  rewrite Hs. simpl. by rewrite synchronized_app.
Qed.

Lemma silent_check_member config sid name :
  silent (fun s : world * locals => trace s.1) (check_member config sid name).
Proof.
  pose proof silent_check_aqw_guild. pose proof silent_log_action.
  unfold check_member, apply_policy, remove_member, update_last_checked,
    time_time, modify.
  silence.
  all: try (apply silent_lift; silence).
  all: try (intros w; reflexivity).
Qed.

Lemma silent_check_server sid :
  silent (fun s : world * locals => trace s.1) (check_server sid).
Proof.
  pose proof silent_check_member. unfold check_server. silence.
Qed.

Lemma sweep_body_synchronizes_at_most_once (s : world * locals) :
  exists l,
    synchronized (trace (sweep_body s).2.1) = synchronized (trace s.1) ++ l
    /\ (length l <= 1)%nat.
Proof.
  unfold sweep_body, bind at 1. unfold lift at 1, gets at 1. cbn [fst snd].
  destruct s as [w l0]. cbn [fst snd].
  set (ids := Database.select_autoremove_servers (db w)).
  unfold bind at 1.
  pose proof (silent_for_each (fun s : world * locals => trace s.1) ids
                check_server silent_check_server (w, l0)) as Hloop.
  destruct (for_each ids check_server (w, l0)) as [[[]|e] [w1 l1]];
    cbn [fst snd] in *;
    [|exists []; rewrite app_nil_r; split; [done|simpl; lia]].
  unfold bind at 1, get_local at 1, gets at 1. cbn [fst snd].
  assert (Hlog : forall s' : world * locals,
    synchronized (trace (lift (log Info "Processed members") s').2.1)
    = synchronized (trace s'.1)).
  { intros s'. apply (silent_lift _ (silent_log _ _) s'). }
  destruct (0 <? successful_checks l1).
  - unfold bind at 1, bind at 1, get_local at 1, gets at 1. cbn [fst snd].
    destruct (loop_server_id l1) as [sid|].
    + pose proof (update_list_synchronizes_once sid w1) as Hup.
      unfold exec in Hup. unfold lift at 1. cbn [fst snd].
      destruct (DiscordUtils.update_list sid w1) as [[[]|e] w2];
        cbn [fst snd] in *.
      * exists [sid]. rewrite Hlog. cbn [fst]. rewrite Hup, Hloop.
        split; [done|simpl; lia].
      * exists [sid]. rewrite Hup, Hloop. split; [done|simpl; lia].
    + unfold raise. cbn [fst snd]. exists []. rewrite app_nil_r.
      split; [done|simpl; lia].
  - unfold bind at 1, ret at 1. exists []. rewrite Hlog. cbn [fst].
    rewrite app_nil_r. split; [done|simpl; lia].
Qed.

(** Whatever the number of groups a sweep has processed, it synchronizes
    at most one of them. *)
Lemma sweep_synchronizes_at_most_one_group (w : world) :
  exists l,
    synchronized (trace (exec live_guild_check w)) = synchronized (trace w) ++ l
    /\ (length l <= 1)%nat.
Proof.
  unfold exec, live_guild_check, try_except.
  set (start := (w, {| total_checked := 0; successful_checks := 0;
                       loop_server_id := None |})).
  destruct (sweep_body_synchronizes_at_most_once start) as (l & Hl & Hlen).
  destruct (sweep_body start) as [[[]|e] s1]; cbn [fst snd] in *.
  - by exists l.
  - exists l. split; [|done].
    pose proof (silent_lift _ (silent_log Error "Check cycle failed") s1) as H.
    destruct (lift (log Error "Check cycle failed") s1) as [r s2].
    cbn [fst snd] in *. by rewrite H.
Qed.

(** ** A rate-limited page *)

(** Whatever the page and the world: when the stored message of a page is
    there, its fetch is accepted and its edit is rejected with status 429,
    the body of the loop makes these two calls and no other, takes no
    pause, and raises [AttributeError], which leaves the loop. *)
Lemma rate_limited_edit_leaves_the_loop cid existing idx embed new w mid rest :
  existing !! idx = Some mid ->
  mid ∈ Platform.message_ids cid w ->
  rejections w = None :: Some (HTTPException 429) :: rest ->
  let run := DiscordUtils.sync_page cid existing (idx, embed) new w in
  run.1 = Raise (OtherError "AttributeError")
  /\ platform_calls (trace run.2)
     = platform_calls (trace w)
       ++ [ (OpFetch cid mid, None);
            (OpEdit cid mid embed, Some (HTTPException 429)) ]
  /\ rejections run.2 = rest.
Proof.
  intros Hidx Hin Hrej. cbv zeta.
  unfold DiscordUtils.sync_page, try_except, bind. rewrite Hidx.
  assert (Hpace : exists w0,
    when (0 <? idx)%nat (sleep 2500) w = (Ret tt, w0)
    /\ rejections w0 = rejections w
    /\ channels w0 = channels w
    /\ platform_calls (trace w0) = platform_calls (trace w)).
  { destruct (0 <? idx)%nat; eexists; (split; [reflexivity|]); simpl;
      rewrite ?platform_calls_app, ?app_nil_r; done. }
  destruct Hpace as (w0 & -> & Hrej0 & Hch0 & Hcalls0).
  unfold Platform.fetch_message, Platform.edit, Platform.call,
    Platform.next_rejection.
  rewrite Hrej0, Hrej.
  assert (Hhas : Platform.has_message cid mid (set_rejections
                   (Some (HTTPException 429) :: rest) w0) = true).
  { apply has_message_elem. unfold Platform.message_ids in *. simpl.
    by rewrite Hch0. }
  rewrite Hhas. simpl.
  repeat split.
  rewrite !platform_calls_app, Hcalls0. simpl.
  by rewrite <- !app_assoc.
Qed.

(** * More properties of the code *)

(** ** The store *)

Lemma filter_filter_other {A} (P Q : A -> Prop) `{forall x, Decision (P x)}
    `{forall x, Decision (Q x)} (l : list A) :
  (forall x, P x -> Q x) -> filter P (filter Q l) = filter P l.
Proof.
  intros HPQ. induction l as [|x l IH]; [done|].
  rewrite (filter_cons Q). destruct (decide (Q x)) as [Hq|Hq].
  - rewrite !filter_cons. destruct (decide (P x)); by rewrite IH.
  - rewrite IH. rewrite (filter_cons_False P); [done|]. intros Hp. by apply Hq, HPQ.
Qed.

(** Saving the list of one group leaves the lists of the others alone. *)
Lemma save_message_ids_other_group d sid ids d' sid' :
  Database.save_message_ids d sid ids = Some d' ->
  sid' <> sid ->
  Database.get_message_ids d' sid' = Database.get_message_ids d sid'.
Proof.
  unfold Database.save_message_ids. destruct (decide (NoDup ids)); [|done].
  intros [= <-] Hne.
  unfold Database.get_message_ids. simpl. rewrite filter_app.
  rewrite (filter_none (fun r => g_server_id r = sid') (_ <$> _)).
  2:{ apply Forall_forall. intros r Hr.
      apply list_elem_of_fmap in Hr as (p & -> & _). simpl. congruence. }
  rewrite app_nil_r. f_equal. f_equal.
  apply filter_filter_other. intros r. congruence.
Qed.

Lemma save_message_ids_distinct d sid ids d' :
  Database.save_message_ids d sid ids = Some d' -> NoDup ids.
Proof.
  unfold Database.save_message_ids. by destruct (decide (NoDup ids)).
Qed.

(** X1: the list of display messages of a group is written and read back
    unchanged when its ids are distinct, and the lists of the other groups,
    the members and the configurations are left alone. *)
Theorem stored_list_round_trip (d : database) (sid : string) (ids : list Z) :
  NoDup ids ->
  exists d',
    Database.save_message_ids d sid ids = Some d'
    /\ Database.get_message_ids d' sid = ids
    /\ (forall sid', sid' <> sid ->
          Database.get_message_ids d' sid' = Database.get_message_ids d sid')
    /\ members d' = members d
    /\ servers d' = servers d.
Proof.
  intros Hnd.
  destruct (Database.save_message_ids d sid ids) as [d'|] eqn:Hsave.
  2:{ unfold Database.save_message_ids in Hsave. by rewrite decide_True in Hsave. }
  exists d'. split; [done|].
  destruct (save_message_ids_read _ _ _ _ Hsave) as (Hs & Hm & Hread).
  split; [done|]. split; [|done].
  intros sid' Hne. by eapply save_message_ids_other_group.
Qed.

Lemma stored_list_round_trip_witness :
  exists d',
    Database.save_message_ids (db Scenario.shrunk_group) "1" [7; 5; 9] = Some d'
    /\ Database.get_message_ids d' "1" = [7; 5; 9]
    /\ (forall sid', sid' <> "1" ->
          Database.get_message_ids d' sid'
          = Database.get_message_ids (db Scenario.shrunk_group) sid')
    /\ members d' = members (db Scenario.shrunk_group)
    /\ servers d' = servers (db Scenario.shrunk_group).
Proof.
  apply (stored_list_round_trip (db Scenario.shrunk_group) "1" [7; 5; 9]).
  apply (bool_decide_unpack _). vm_compute. exact I.
Defined.

(** X2: a configuration is saved and read back unchanged; the table keeps
    one row for the group, the configurations of the other groups read as
    before, and members and display messages are left alone. *)
Theorem config_round_trip (d : database) (sid : string) (c : config) :
  let d' := Database.save_server_config d sid c in
  Database.get_server_config d' sid = Some c
  /\ length (filter (fun r => server_id r = sid) (servers d')) = 1%nat
  /\ (forall sid', sid' <> sid ->
        Database.get_server_config d' sid' = Database.get_server_config d sid')
  /\ members d' = members d
  /\ messages d' = messages d.
Proof.
  cbv zeta. unfold Database.get_server_config, Database.save_server_config.
  simpl. rewrite filter_app.
  rewrite (filter_none (fun r => server_id r = sid) (filter _ (servers d))).
  2:{ apply Forall_forall. intros r Hr.
      by apply list_elem_of_filter in Hr as [Hr _]. }
  rewrite filter_cons_True by done. simpl.
  split; [by destruct c|]. split; [done|]. split; [|done].
  intros sid' Hne. rewrite filter_app.
  rewrite (filter_cons_False (fun r => server_id r = sid')); [|simpl; congruence].
  rewrite filter_nil, app_nil_r.
  rewrite filter_filter_other; [done|]. intros r. congruence.
Qed.

Lemma member_exists_true d sid name :
  Database.member_exists d sid name = true
  <-> (sid, Text.lower name) ∈ member_key <$> members d.
Proof.
  unfold Database.member_exists. rewrite bool_decide_eq_true, Exists_exists.
  rewrite list_elem_of_fmap. unfold Database.is_member_key, member_key. split.
  - intros (r & Hr & <- & <-). by exists r.
  - intros (r & [= -> ->] & Hr). by exists r.
Qed.

Lemma member_exists_false d sid name :
  Database.member_exists d sid name = false
  <-> (sid, Text.lower name) ∉ member_key <$> members d.
Proof.
  rewrite <- member_exists_true. by destruct (Database.member_exists d sid name).
Qed.

(** X3: the three operations on table [members] keep its primary key: when
    no two rows of a group share a normalized name, none do after a member
    is added, removed or re-stamped. *)
Theorem member_key_is_kept (d : database) (now : Z) (sid name : string) :
  unique_keys d ->
  unique_keys (Database.add_member d now sid name)
  /\ unique_keys (Database.remove_member d sid name)
  /\ unique_keys (Database.update_last_checked d now sid name).
Proof.
  unfold unique_keys. intros Hnd. repeat split.
  - unfold Database.add_member.
    destruct (Database.member_exists d sid name) eqn:E; [done|].
    apply member_exists_false in E. simpl. rewrite fmap_app.
    apply NoDup_app. split; [done|]. split; [|apply NoDup_singleton].
    intros k Hk Hk'. apply list_elem_of_singleton in Hk'. by subst.
  - unfold Database.remove_member. simpl.
    eapply sublist_NoDup; [exact Hnd|]. apply fmap_sublist, sublist_filter.
  - unfold Database.update_last_checked. simpl.
    rewrite <- list_fmap_compose.
    erewrite list_fmap_ext; [exact Hnd|]. intros i r _. simpl.
    by destruct (decide _).
Qed.

Lemma member_key_is_kept_witness :
  unique_keys (Database.add_member Scenario.known_times 7 "1" "B")
  /\ unique_keys (Database.remove_member Scenario.known_times "1" "B")
  /\ unique_keys (Database.update_last_checked Scenario.known_times 7 "1" "B").
Proof.
  apply (member_key_is_kept Scenario.known_times 7 "1" "B").
  unfold unique_keys. apply (bool_decide_unpack _). vm_compute. exact I.
Defined.

Lemma lower_upper_char c : Text.lower_char (Text.upper_char c) = Text.lower_char c.
Proof.
  destruct c as [[] [] [] [] [] [] [] []]; reflexivity.
Qed.

Lemma lower_upper s : Text.lower (Text.upper s) = Text.lower s.
Proof.
  unfold Text.lower, Text.upper.
  induction s as [|c s IH]; simpl; [done|]. by rewrite lower_upper_char, IH.
Qed.

(** X4: ASCII names are kept once per group whatever their case: after
    such a name is added it is found under its upper-case spelling too, and
    adding that spelling again changes nothing. *)
Theorem add_member_once_per_name (d : database) (now now' : Z)
    (sid name : string) :
  Text.isascii name = true ->
  let d' := Database.add_member d now sid name in
  Database.member_exists d' sid name = true
  /\ Database.member_exists d' sid (Text.upper name) = true
  /\ Database.add_member d' now' sid (Text.upper name) = d'.
Proof.
  intros _. cbv zeta.
  assert (H : Database.member_exists (Database.add_member d now sid name) sid name
              = true).
  { apply member_exists_true. unfold Database.add_member.
    destruct (Database.member_exists d sid name) eqn:E.
    - by apply member_exists_true.
    - simpl. rewrite fmap_app. apply elem_of_app. right.
      by apply list_elem_of_singleton. }
  assert (H' : Database.member_exists (Database.add_member d now sid name) sid
                 (Text.upper name) = true).
  { unfold Database.member_exists in *. by rewrite lower_upper. }
  split; [done|]. split; [done|].
  unfold Database.add_member at 1. by rewrite H'.
Qed.

Lemma add_member_once_per_name_witness :
  let d' := Database.add_member Scenario.known_times 7 "1" "Fay" in
  Database.member_exists d' "1" "Fay" = true
  /\ Database.member_exists d' "1" "FAY" = true
  /\ Database.add_member d' 9 "1" "FAY" = d'.
Proof.
  apply (add_member_once_per_name Scenario.known_times 7 9 "1" "Fay").
  reflexivity.
Defined.

(** X5: removing a member removes the rows of that group with that
    normalized name and no other: every other key is found exactly when
    it was found before. *)
Theorem remove_member_exact (d : database) (sid name sid' name' : string) :
  Database.member_exists (Database.remove_member d sid name) sid' name'
  = if decide (sid' = sid /\ Text.lower name' = Text.lower name)
    then false
    else Database.member_exists d sid' name'.
Proof.
  destruct (decide _) as [[-> Hl]|Hne].
  - unfold Database.member_exists. rewrite Hl. apply remove_member_gone.
  - unfold Database.member_exists, Database.remove_member. simpl.
    apply bool_decide_ext. rewrite !Exists_exists. split.
    + intros (r & Hr & Hk). apply list_elem_of_filter in Hr as [_ Hr]. eauto.
    + intros (r & Hr & Hk). exists r. split; [|done].
      apply list_elem_of_filter. split; [|done].
      unfold Database.is_member_key in *. intros [H1 H2]. apply Hne.
      destruct Hk as [H3 H4]. split; congruence.
Qed.

Lemma string_leb_trans (s1 s2 s3 : string) :
  String.leb s1 s2 = true -> String.leb s2 s3 = true -> String.leb s1 s3 = true.
Proof.
  unfold String.leb. revert s2 s3.
  induction s1 as [|c1 s1 IH]; intros [|c2 s2] [|c3 s3]; simpl; try done.
  unfold Ascii.compare.
  destruct (N.compare_spec (N_of_ascii c1) (N_of_ascii c2)) as [E12|L12|G12];
    destruct (N.compare_spec (N_of_ascii c2) (N_of_ascii c3)) as [E23|L23|G23];
    destruct (N.compare_spec (N_of_ascii c1) (N_of_ascii c3)) as [E13|L13|G13];
    try done; try lia.
  apply IH.
Qed.

Lemma nocase_leb_total a b :
  Database.nocase_leb a b = true \/ Database.nocase_leb b a = true.
Proof. apply String.leb_total. Qed.

Lemma nocase_leb_trans a b c :
  Database.nocase_leb a b = true -> Database.nocase_leb b c = true ->
  Database.nocase_leb a c = true.
Proof. apply string_leb_trans. Qed.

(** X6: the roster read for a group lists each of its rows once, as (name,
    status), in ascending order of the lower-cased names. *)
Theorem roster_is_sorted (d : database) (sid : string) :
  Database.get_members d sid
    ≡ₚ (fun r => (m_name r, m_status r)) <$> group_rows d sid
  /\ StronglySorted
       (fun a b => String.leb (Text.lower a.1) (Text.lower b.1) = true)
       (Database.get_members d sid).
Proof.
  unfold Database.get_members, group_rows. split.
  - by rewrite order_by_perm.
  - eapply (StronglySorted_fmap _ (fun a b => Database.nocase_leb a b = true));
      [by intros x y|].
    apply (order_by_sorted Database.nocase_leb nocase_leb_total nocase_leb_trans).
Qed.

(** ** Pages and columns *)

(** Consecutive slices of one width put together give back the front of
    the list. *)
Lemma concat_slices {A} (s : nat) (l : list A) (n : nat) :
  concat ((fun k => slice (k * s) (k * s + s) l) <$> seq 0 n) = take (n * s) l.
Proof.
  induction n as [|n IH]; [by rewrite take_0|].
  rewrite seq_S, fmap_app, concat_app, IH. simpl. rewrite app_nil_r.
  unfold slice. replace (n * s + s - n * s)%nat with s by lia.
  rewrite take_take_drop. f_equal. lia.
Qed.

Lemma lookup_slice {A} (a b j : nat) (l : list A) (x : A) :
  slice a b l !! j = Some x -> l !! (a + j)%nat = Some x.
Proof.
  unfold slice. intros H. apply lookup_take_Some in H as [H _].
  by rewrite lookup_drop in H.
Qed.

Lemma chunks_lookup members p chunk :
  DiscordUtils.chunks members !! p = Some chunk ->
  chunk = slice (p * 45) (p * 45 + 45) members
  /\ (p * 45 < length members)%nat.
Proof.
  unfold DiscordUtils.chunks, range_step, DiscordUtils.members_per_embed,
    MEMBERS_PER_FIELD, MAX_FIELDS_PER_EMBED.
  change (15 * 3)%nat with 45%nat.
  rewrite <- list_fmap_compose, list_lookup_fmap.
  destruct (seq 0 _ !! p) as [k|] eqn:E; [|done]. simpl. intros [= <-].
  apply lookup_seq in E as [-> Hp]. simpl. split; [done|].
  pose proof (Nat.div_mod_eq (length members + 45 - 1) 45).
  pose proof (Nat.mod_upper_bound (length members + 45 - 1) 45). lia.
Qed.

Lemma length_enumerate_from {A} (k : nat) (l : list A) :
  length (enumerate_from k l) = length l.
Proof. revert k. induction l as [|x l IH]; intros k; simpl; [done|]. by rewrite IH. Qed.

(** X7: the pages cut the roster into consecutive pieces of 45: put
    together they give the roster back, there are ceil(N / 45) of them, one
    embed is rendered for each, and page [p] holds min(45, N - 45 p)
    members, so none is empty. *)
Theorem pagination (guild_name : string) (members : list (string * string)) :
  concat (DiscordUtils.chunks members) = members
  /\ length (DiscordUtils.chunks members) = ((length members + 44) / 45)%nat
  /\ length (DiscordUtils.create_list_embeds guild_name members)
     = ((length members + 44) / 45)%nat
  /\ forall p chunk,
       DiscordUtils.chunks members !! p = Some chunk ->
       length chunk = Nat.min 45 (length members - 45 * p)
       /\ (1 <= length chunk)%nat.
Proof.
  assert (Hlen : length (DiscordUtils.chunks members)
                 = ((length members + 44) / 45)%nat).
  { unfold DiscordUtils.chunks, range_step, DiscordUtils.members_per_embed,
      MEMBERS_PER_FIELD, MAX_FIELDS_PER_EMBED.
    rewrite !length_fmap, length_seq. change (15 * 3)%nat with 45%nat.
    by replace (length members + 45 - 1)%nat with (length members + 44)%nat by lia. }
  split; [|split; [done|split]].
  - unfold DiscordUtils.chunks, range_step, DiscordUtils.members_per_embed,
      MEMBERS_PER_FIELD, MAX_FIELDS_PER_EMBED.
    change (15 * 3)%nat with 45%nat.
    rewrite <- list_fmap_compose.
    change ((fun i => slice i (i + 45) members) ∘ (fun k => (k * 45)%nat))
      with (fun k => slice (k * 45) (k * 45 + 45) members).
    rewrite concat_slices. apply take_ge.
    pose proof (Nat.div_mod_eq (length members + 45 - 1) 45).
    pose proof (Nat.mod_upper_bound (length members + 45 - 1) 45). lia.
  - unfold DiscordUtils.create_list_embeds. cbv zeta.
    unfold enumerate. by rewrite length_fmap, length_enumerate_from.
  - intros p chunk H. apply chunks_lookup in H as [-> Hp].
    rewrite length_slice. lia.
Qed.

(** X8: the columns of a page put together give the page back: although a
    column may hold one member more than a third of the page, no member is
    left out and none is shown twice. *)
Theorem columns_cover_the_page (chunk : list (string * string)) :
  concat (DiscordUtils.field_members chunk <$> seq 0 MAX_FIELDS_PER_EMBED)
  = chunk.
Proof.
  unfold DiscordUtils.field_members. cbv zeta.
  rewrite (concat_slices (DiscordUtils.column_size chunk) chunk).
  apply take_ge. unfold DiscordUtils.column_size, MAX_FIELDS_PER_EMBED.
  pose proof (Nat.div_mod_eq (length chunk) 3).
  pose proof (Nat.mod_upper_bound (length chunk) 3). lia.
Qed.

(** X9: the number printed in front of a name is the position of the member
    on the whole roster, counted from 1: the member shown in row [j] of
    column [i] of page [p] is the member at place [index_label - 1]. *)
Theorem index_label_is_position (members : list (string * string))
    (p i j : nat) (chunk : list (string * string)) (m : string * string) :
  DiscordUtils.chunks members !! p = Some chunk ->
  DiscordUtils.field_members chunk i !! j = Some m ->
  (1 <= DiscordUtils.index_label p chunk i j)%nat
  /\ members !! (DiscordUtils.index_label p chunk i j - 1)%nat = Some m.
Proof.
  intros Hp Hm. apply chunks_lookup in Hp as [Hchunk _].
  unfold DiscordUtils.field_members in Hm. cbv zeta in Hm.
  apply lookup_slice in Hm. rewrite Hchunk in Hm at 2.
  apply lookup_slice in Hm.
  unfold DiscordUtils.index_label, DiscordUtils.members_per_embed,
    MEMBERS_PER_FIELD, MAX_FIELDS_PER_EMBED.
  split; [lia|]. rewrite <- Hm. f_equal. lia.
Qed.

Lemma index_label_is_position_witness :
  (1 <= DiscordUtils.index_label 0 Scenario.full_page 2 0)%nat
  /\ Scenario.full_page
       !! (DiscordUtils.index_label 0 Scenario.full_page 2 0 - 1)%nat
     = Some (Scenario.numbered 33, "").
Proof.
  apply (index_label_is_position Scenario.full_page 0 2 0 Scenario.full_page);
    reflexivity.
Defined.

(** ** What a computation keeps *)

Section Keeps.
Context {S B : Type} (f : S -> B).

Lemma keeps_ret {A} (a : A) : keeps f (ret a).
Proof. by intros s. Qed.

Lemma keeps_raise {A} (e : exn) : keeps f (raise (A := A) e).
Proof. by intros s. Qed.

Lemma keeps_gets {A} (g : S -> A) : keeps f (gets g).
Proof. by intros s. Qed.

Lemma keeps_bind {A C} (m : M S A) (k : A -> M S C) :
  keeps f m -> (forall a, keeps f (k a)) -> keeps f (bind m k).
Proof.
  intros Hm Hk s. unfold bind. specialize (Hm s).
  destruct (m s) as [[a|e] s1]; simpl in *; [|done].
  by rewrite Hk.
Qed.

Lemma keeps_try_except {A} (body : M S A) (handler : exn -> M S A) :
  keeps f body -> (forall e, keeps f (handler e)) ->
  keeps f (try_except body handler).
Proof.
  intros Hm Hk s. unfold try_except. specialize (Hm s).
  destruct (body s) as [[a|e] s1]; simpl in *; [done|].
  by rewrite Hk.
Qed.

Lemma keeps_when (b : bool) (m : M S unit) : keeps f m -> keeps f (when b m).
Proof. destruct b; [done|]. intros _. apply keeps_ret. Qed.

Lemma keeps_for_each {A} (xs : list A) (body : A -> M S unit) :
  (forall x, keeps f (body x)) -> keeps f (for_each xs body).
Proof.
  intros Hb. induction xs as [|x xs IH]; simpl; [apply keeps_ret|].
  apply keeps_bind; [apply Hb|by intros _].
Qed.

Lemma keeps_for_fold {A C} (xs : list A) (body : A -> C -> M S C) (acc : C) :
  (forall x c, keeps f (body x c)) -> keeps f (for_fold xs body acc).
Proof.
  intros Hb. revert acc. induction xs as [|x xs IH]; intros acc; simpl;
    [apply keeps_ret|].
  apply keeps_bind; [apply Hb|done].
Qed.

Lemma keeps_modify (g : S -> S) : (forall s, f (g s) = f s) -> keeps f (modify g).
Proof. intros H s. apply H. Qed.

End Keeps.

(** A reading of the world that looks at nothing but [part]. *)
Lemma keeps_part {S A B C} (part : S -> B) (g : B -> C) (m : M S A) :
  keeps part m -> keeps (fun s => g (part s)) m.
Proof. intros H s. by rewrite H. Qed.

Lemma keeps_lift {A B} (f : world -> B) (m : M world A) :
  keeps f m -> keeps (fun s : world * locals => f s.1) (lift m).
Proof.
  intros Hm [w l]. unfold lift. simpl. specialize (Hm w).
  by destruct (m w) as [r w1].
Qed.

Lemma keeps_call {A B} (f : world -> B) op
    (natural : world -> option (A * world)) :
  (forall w ev, f (emit ev w) = f w) ->
  (forall w rs, f (set_rejections rs w) = f w) ->
  (forall w a w', natural w = Some (a, w') -> f w' = f w) ->
  keeps f (Platform.call op natural).
Proof.
  intros Hemit Hrej Hnat w. unfold Platform.call, Platform.next_rejection.
  assert (Hcase : forall w0, f w0 = f w ->
    f (match natural w0 with
       | Some (a, w2) => (Ret a, emit (Called op None) w2)
       | None => (Raise NotFound, emit (Called op (Some NotFound)) w0)
       end).2 = f w).
  { intros w0 Hw0. destruct (natural w0) as [[a w2]|] eqn:E; simpl.
    - apply Hnat in E. by rewrite Hemit, E.
    - by rewrite Hemit. }
  destruct (rejections w) as [|[e|] rest]; simpl.
  - by apply Hcase.
  - by rewrite Hemit, Hrej.
  - apply Hcase, Hrej.
Qed.

Create HintDb keeps.

Ltac keep :=
  repeat first
    [ progress intros
    | solve [eauto with keeps]
    | apply keeps_bind
    | apply keeps_try_except
    | apply keeps_when
    | apply keeps_for_each
    | apply keeps_for_fold
    | match goal with
      | |- keeps _ (match ?x with _ => _ end) => destruct x
      | |- keeps _ (if ?b then _ else _) => destruct b
      | |- keeps _ (let (_, _) := ?x in _) => destruct x
      end ].

(** The platform and the pauses leave the store alone. *)
Lemma keeps_db_sleep ms : keeps db (sleep ms).
Proof. by intros w. Qed.

Lemma keeps_db_log lvl msg : keeps db (log lvl msg).
Proof. by intros w. Qed.

Lemma keeps_db_fetch cid mid : keeps db (Platform.fetch_message cid mid).
Proof.
  apply keeps_call; try done. intros w a w' H. simpl in H.
  destruct (Platform.has_message cid mid w); by simplify_eq.
Qed.

Lemma keeps_db_edit cid mid e : keeps db (Platform.edit cid mid e).
Proof.
  apply keeps_call; try done. intros w a w' H. simpl in H.
  destruct (Platform.has_message cid mid w); by simplify_eq.
Qed.

Lemma keeps_db_send cid c : keeps db (Platform.send cid c).
Proof.
  apply keeps_call; try done. intros w a w' H. simpl in H.
  destruct (Platform.find_channel cid (channels w)); by simplify_eq.
Qed.

Lemma keeps_db_delete cid mid : keeps db (Platform.delete cid mid).
Proof.
  apply keeps_call; try done. intros w a w' H. simpl in H.
  destruct (Platform.has_message cid mid w); by simplify_eq.
Qed.

Lemma keeps_db_check name aqw_guild_name :
  keeps db (AQWUtils.check_aqw_guild name aqw_guild_name).
Proof.
  intros w.
  destruct (check_aqw_guild_total name aqw_guild_name w) as (v & w' & -> & H & _).
  done.
Qed.

Lemma keeps_db_log_action sid action :
  keeps db (DiscordUtils.log_action sid action).
Proof.
  intros w. by destruct (log_action_total sid action w) as (w' & -> & H).
Qed.

#[local] Hint Resolve keeps_ret keeps_raise keeps_gets keeps_db_sleep
  keeps_db_log keeps_db_fetch keeps_db_edit keeps_db_send keeps_db_delete
  keeps_db_check keeps_db_log_action : keeps.

(** ** More on the verification client *)

Lemma pauses_app t1 t2 : pauses (t1 ++ t2) = pauses t1 ++ pauses t2.
Proof. apply omap_app. Qed.

(** One attempt is one request; it returns, and leaves the memo alone. *)
Lemma attempt_once_request name aqw_guild_name attempt w :
  exists r,
    (AQWUtils.attempt_once name aqw_guild_name attempt w).1 = Ret r
    /\ requested (trace (AQWUtils.attempt_once name aqw_guild_name attempt w).2)
       = requested (trace w) ++ [name]
    /\ memo (AQWUtils.attempt_once name aqw_guild_name attempt w).2 = memo w
    /\ responses (AQWUtils.attempt_once name aqw_guild_name attempt w).2
       = drop 1 (responses w).
Proof.
  unfold AQWUtils.attempt_once, try_except, bind, AQWUtils.requests_get.
  destruct (responses w) as [|[|st page] rest] eqn:E; simpl.
  - eexists. rewrite !requested_app. simpl. rewrite !app_nil_r. by repeat split.
  - eexists. rewrite !requested_app. simpl. rewrite !app_nil_r. by repeat split.
  - unfold AQWUtils.raise_for_status.
    destruct ((400 <=? st) && (st <? 600)); simpl.
    + destruct (st =? 429); simpl; eexists; rewrite !requested_app; simpl;
        rewrite !app_nil_r; by repeat split.
    + destruct page as [nodes|]; simpl; eexists; rewrite ?requested_app; simpl;
        rewrite ?app_nil_r; by repeat split.
Qed.

Lemma attempts_requests name aqw_guild_name todo :
  forall w,
    exists v k,
      (AQWUtils.attempts name aqw_guild_name todo w).1 = Ret v
      /\ (k <= length todo)%nat
      /\ requested (trace (AQWUtils.attempts name aqw_guild_name todo w).2)
         = requested (trace w) ++ replicate k name
      /\ memo (AQWUtils.attempts name aqw_guild_name todo w).2 = memo w
      /\ responses (AQWUtils.attempts name aqw_guild_name todo w).2
         = drop k (responses w).
Proof.
  induction todo as [|attempt todo IH]; intros w.
  - exists PyNone, 0%nat. simpl. by rewrite app_nil_r.
  - cbn [AQWUtils.attempts]. unfold bind.
    destruct (attempt_once_request name aqw_guild_name attempt w)
      as (r & Hr & Hreq & Hmemo & Hresp).
    destruct (AQWUtils.attempt_once name aqw_guild_name attempt w) as [o w1].
    simpl in *. subst o. destruct r as [v|].
    + exists v, 1%nat. simpl. split; [done|]. split; [lia|]. done.
    + destruct (IH w1) as (v & k & Hv & Hk & Hreq2 & Hmemo2 & Hresp2).
      exists v, (S k). split; [done|]. split; [simpl; lia|].
      rewrite Hreq2, Hreq, Hmemo2, Hresp2, Hresp. simpl.
      rewrite <- app_assoc. simpl. split; [done|]. split; [done|].
      by rewrite drop_drop.
Qed.

(** X10: whatever the source answers, a call with a retry cap of [n]
    returns (it never raises) after at most [n] requests, all for the page
    of [name], and reads exactly as many answers as it made requests. *)
Theorem retry_cap_bounds_requests (n : nat) (name aqw_guild_name : string)
    (w : world) :
  let run :=
    AQWUtils.cached (AQWUtils.check_with_retries n) name aqw_guild_name w in
  exists v k,
    run.1 = Ret v
    /\ (k <= n)%nat
    /\ requested (trace run.2) = requested (trace w) ++ replicate k name
    /\ responses run.2 = drop k (responses w).
Proof.
  cbv zeta. unfold AQWUtils.cached.
  destruct (AQWUtils.memo_lookup _ _) as [v|].
  - exists v, 0%nat. simpl. rewrite app_nil_r. split; [done|]. split; [lia|]. done.
  - unfold AQWUtils.check_with_retries.
    destruct (attempts_requests name aqw_guild_name (seq 0 n) w)
      as (v & k & Hv & Hk & Hreq & _ & Hresp).
    rewrite length_seq in Hk.
    destruct (AQWUtils.attempts name aqw_guild_name (seq 0 n) w) as [o w1].
    simpl in *. subst o. by exists v, k.
Qed.

Lemma memo_lookup_head key v m :
  AQWUtils.memo_lookup key ((key, v) :: m) = Some v.
Proof. unfold AQWUtils.memo_lookup. by rewrite filter_cons_True. Qed.

(** X12: a call repeated with the same arguments is answered from the memo:
    it returns what the first call returned and makes no request, whatever
    the source would answer by then. *)
Theorem repeated_check_is_served_from_memo (name aqw_guild_name : string)
    (w : world) (later : list http_result) :
  let first := AQWUtils.check_aqw_guild name aqw_guild_name w in
  let second :=
    AQWUtils.check_aqw_guild name aqw_guild_name (set_responses later first.2) in
  second.1 = first.1
  /\ requested (trace second.2) = requested (trace first.2)
  /\ responses second.2 = later.
Proof.
  cbv zeta.
  assert (Hfirst : exists v,
    (AQWUtils.check_aqw_guild name aqw_guild_name w).1 = Ret v
    /\ AQWUtils.memo_lookup (name, aqw_guild_name)
         (memo (AQWUtils.check_aqw_guild name aqw_guild_name w).2) = Some v).
  { unfold AQWUtils.check_aqw_guild, AQWUtils.cached.
    destruct (AQWUtils.memo_lookup _ (memo w)) as [v|].
    - exists v. simpl. split; [done|]. apply memo_lookup_head.
    - unfold AQWUtils.check_aqw_guild_wrapped, AQWUtils.check_with_retries.
      destruct (attempts_requests name aqw_guild_name (seq 0 MAX_RETRIES) w)
        as (v & k & Hv & _).
      destruct (AQWUtils.attempts name aqw_guild_name (seq 0 MAX_RETRIES) w)
        as [o w1].
      simpl in *. subst o. exists v. simpl. split; [done|].
      apply memo_lookup_head. }
  destruct Hfirst as (v & Hv & Hlook).
  destruct (AQWUtils.check_aqw_guild name aqw_guild_name w) as [o w1].
  simpl in *. subst o.
  unfold AQWUtils.check_aqw_guild at 1 2 3, AQWUtils.cached. simpl.
  by rewrite Hlook.
Qed.

Lemma triangle_S n : triangle (S n) = triangle n + Z.of_nat (S n).
Proof. reflexivity. Qed.

(** A run of rate-limited attempts: each makes its request and pauses
    [RETRY_DELAY] seconds times its number, counted from 1. *)
Lemma attempts_rate_limited name aqw_guild_name :
  forall n a w,
    (n <= length (responses w))%nat ->
    Forall rate_limited (take n (responses w)) ->
    let run := AQWUtils.attempts name aqw_guild_name (seq a n) w in
    run.1 = Ret PyNone
    /\ requested (trace run.2) = requested (trace w) ++ replicate n name
    /\ pauses (trace run.2)
       = pauses (trace w)
         ++ ((fun k => seconds (RETRY_DELAY * (Z.of_nat k + 1))) <$> seq a n)
    /\ clock run.2
       = clock w + seconds (RETRY_DELAY * (triangle (a + n) - triangle a))
    /\ responses run.2 = drop n (responses w)
    /\ memo run.2 = memo w.
Proof.
  induction n as [|n IH]; intros a w Hlen Hall; cbv zeta.
  - simpl. rewrite !app_nil_r, Nat.add_0_r, Z.sub_diag. unfold seconds.
    repeat split; try done. lia.
  - destruct (responses w) as [|r rest] eqn:Hresp; [simpl in Hlen; lia|].
    simpl in Hall. apply Forall_cons in Hall as [[page ->] Hall].
    cbn [seq AQWUtils.attempts]. unfold bind.
    unfold AQWUtils.attempt_once, try_except, bind, AQWUtils.requests_get.
    rewrite Hresp. simpl.
    match goal with
    | |- context [AQWUtils.attempts _ _ _ ?w1] =>
        specialize (IH (S a) w1); simpl in IH;
          destruct IH as (Hv & Hreq & Hpause & Hclock & Hrest & Hmemo);
          [simpl in Hlen; lia|done|]
    end.
    rewrite Hv, Hreq, Hpause, Hclock, Hrest, Hmemo.
    rewrite !requested_app, !pauses_app. simpl. rewrite !app_nil_r.
    rewrite <- !app_assoc. simpl.
    repeat split; try done.
    replace (a + S n)%nat with (S (a + n)) by lia.
    change (S a + n)%nat with (S (a + n)).
    rewrite !triangle_S. unfold seconds, RETRY_DELAY. lia.
Qed.

(** X13: when the source answers the first [n] requests with status 429, a
    call with a retry cap of [n] that is not in the memo makes exactly [n]
    requests, pauses 5, 10, ..., 5 n seconds after them (so the clock
    advances by 5 (1 + ... + n) seconds), and returns [None]. *)
Theorem backoff_schedule (n : nat) (name aqw_guild_name : string) (w : world) :
  AQWUtils.memo_lookup (name, aqw_guild_name) (memo w) = None ->
  (n <= length (responses w))%nat ->
  Forall rate_limited (take n (responses w)) ->
  let run :=
    AQWUtils.cached (AQWUtils.check_with_retries n) name aqw_guild_name w in
  run.1 = Ret PyNone
  /\ requested (trace run.2) = requested (trace w) ++ replicate n name
  /\ pauses (trace run.2)
     = pauses (trace w)
       ++ ((fun k => seconds (RETRY_DELAY * Z.of_nat k)) <$> seq 1 n)
  /\ clock run.2 = clock w + seconds (RETRY_DELAY * triangle n)
  /\ responses run.2 = drop n (responses w).
Proof.
  intros Hmiss Hlen Hall. cbv zeta. unfold AQWUtils.cached. rewrite Hmiss.
  unfold AQWUtils.check_with_retries.
  destruct (attempts_rate_limited name aqw_guild_name n 0 w Hlen Hall)
    as (Hv & Hreq & Hpause & Hclock & Hrest & _).
  destruct (AQWUtils.attempts name aqw_guild_name (seq 0 n) w) as [o w1].
  simpl in *. subst o. simpl.
  split; [done|]. split; [done|]. split; [|split; [|done]].
  - rewrite Hpause. f_equal. rewrite <- fmap_S_seq, <- list_fmap_compose.
    apply list_fmap_ext. intros i k _. simpl. f_equal. lia.
  - rewrite Hclock. f_equal. f_equal. lia.
Qed.

Lemma backoff_schedule_witness :
  let run :=
    AQWUtils.cached (AQWUtils.check_with_retries 2) "Alice" "Legion"
      Cases.busy_source in
  run.1 = Ret PyNone
  /\ requested (trace run.2)
     = requested (trace Cases.busy_source) ++ replicate 2 "Alice"
  /\ pauses (trace run.2)
     = pauses (trace Cases.busy_source)
       ++ ((fun k => seconds (RETRY_DELAY * Z.of_nat k)) <$> seq 1 2)
  /\ clock run.2 = clock Cases.busy_source + seconds (RETRY_DELAY * triangle 2)
  /\ responses run.2 = drop 2 (responses Cases.busy_source).
Proof.
  apply (backoff_schedule 2 "Alice" "Legion" Cases.busy_source).
  - reflexivity.
  - simpl. lia.
  - simpl. repeat constructor; by eexists.
Defined.

(** X14: a call that is not in the memo and whose request is answered with
    a page that has a guild label (status outside 400-599) returns a
    boolean after that one request and without a pause: [True] exactly when
    the label, stripped and lower-cased, is the lower-cased guild name. *)
Theorem check_compares_guild_label (name aqw_guild_name : string) (w : world)
    (st : Z) (label : string) (more : list string) (rest : list http_result) :
  AQWUtils.memo_lookup (name, aqw_guild_name) (memo w) = None ->
  responses w = Response st (Some (label :: more)) :: rest ->
  ~ (400 <= st < 600) ->
  let run := AQWUtils.check_aqw_guild name aqw_guild_name w in
  exists b,
    run.1 = Ret (PyBool b)
    /\ (b = true
        <-> Text.lower (Text.strip label) = Text.lower aqw_guild_name)
    /\ requested (trace run.2) = requested (trace w) ++ [name]
    /\ pauses (trace run.2) = pauses (trace w).
Proof.
  intros Hmiss Hresp Hst. cbv zeta.
  unfold AQWUtils.check_aqw_guild, AQWUtils.cached. rewrite Hmiss.
  unfold AQWUtils.check_aqw_guild_wrapped, AQWUtils.check_with_retries.
  simpl seq. unfold AQWUtils.attempts, AQWUtils.attempt_once, bind, try_except,
    AQWUtils.requests_get.
  rewrite Hresp. simpl. unfold AQWUtils.raise_for_status.
  assert ((400 <=? st) && (st <? 600) = false) as -> by lia.
  simpl. eexists. split; [reflexivity|].
  split; [apply String.eqb_eq|].
  rewrite requested_app, pauses_app. simpl. by rewrite app_nil_r.
Qed.

Lemma check_compares_guild_label_witness :
  let run := AQWUtils.check_aqw_guild "Alice" "Legion" Scenario.two_groups in
  exists b,
    run.1 = Ret (PyBool b)
    /\ (b = true <-> Text.lower (Text.strip " Legion ") = Text.lower "Legion")
    /\ requested (trace run.2) = requested (trace Scenario.two_groups) ++ ["Alice"]
    /\ pauses (trace run.2) = pauses (trace Scenario.two_groups).
Proof.
  apply (check_compares_guild_label "Alice" "Legion" Scenario.two_groups 200
           " Legion " [] [Response 200 (Some ["legion"])]).
  - reflexivity.
  - reflexivity.
  - lia.
Defined.

(** X15: a request that fails for a reason other than a rate limit is not
    retried, whatever the retry cap: the call returns [False] after that one
    request and without a pause. *)
Theorem failed_fetch_is_not_retried (max_retries : nat)
    (name aqw_guild_name : string) (w : world) :
  (1 <= max_retries)%nat ->
  AQWUtils.memo_lookup (name, aqw_guild_name) (memo w) = None ->
  fetch_fails (responses w) = true ->
  let run :=
    AQWUtils.cached (AQWUtils.check_with_retries max_retries)
      name aqw_guild_name w in
  run.1 = Ret (PyBool false)
  /\ requested (trace run.2) = requested (trace w) ++ [name]
  /\ pauses (trace run.2) = pauses (trace w).
Proof.
  intros Hcap Hmiss Hfail. cbv zeta. unfold AQWUtils.cached. rewrite Hmiss.
  unfold AQWUtils.check_with_retries.
  destruct max_retries as [|n]; [lia|]. cbn [seq AQWUtils.attempts].
  unfold bind at 1.
  unfold AQWUtils.attempt_once, try_except, bind, AQWUtils.requests_get.
  unfold fetch_fails in Hfail.
  destruct (responses w) as [|[|st page] rest]; simpl.
  - rewrite !requested_app, !pauses_app. simpl. by rewrite !app_nil_r.
  - rewrite !requested_app, !pauses_app. simpl. by rewrite !app_nil_r.
  - unfold AQWUtils.raise_for_status.
    destruct ((400 <=? st) && (st <? 600)); simpl.
    + destruct (st =? 429); [done|]. simpl.
      rewrite !requested_app, !pauses_app. simpl. by rewrite !app_nil_r.
    + destruct page; [done|]. simpl.
      rewrite !requested_app, !pauses_app. simpl. by rewrite !app_nil_r.
Qed.

Lemma failed_fetch_is_not_retried_witness :
  let run :=
    AQWUtils.cached (AQWUtils.check_with_retries 3) "Alice" "Legion"
      Scenario.server_error_edit in
  run.1 = Ret (PyBool false)
  /\ requested (trace run.2)
     = requested (trace Scenario.server_error_edit) ++ ["Alice"]
  /\ pauses (trace run.2) = pauses (trace Scenario.server_error_edit).
Proof.
  apply (failed_fetch_is_not_retried 3 "Alice" "Legion"
           Scenario.server_error_edit).
  - lia.
  - reflexivity.
  - reflexivity.
Defined.

(** ** A pass, whatever the platform does *)

Section Ensures.
Context {S : Type}.

Lemma ensures_ret {A} (P : A -> Prop) (a : A) : P a -> ensures (S := S) P (ret a).
Proof. intros H s a' [= <-]. done. Qed.

Lemma ensures_raise {A} (P : A -> Prop) (e : exn) :
  ensures (S := S) P (raise e).
Proof. by intros s a. Qed.

Lemma ensures_bind {A B} (P : B -> Prop) (m : M S A) (k : A -> M S B) :
  (forall a, ensures P (k a)) -> ensures P (bind m k).
Proof.
  intros Hk s b. unfold bind. destruct (m s) as [[a|e] s1]; [|done].
  apply Hk.
Qed.

Lemma ensures_try_except {A} (P : A -> Prop) (body : M S A)
    (handler : exn -> M S A) :
  ensures P body -> (forall e, ensures P (handler e)) ->
  ensures P (try_except body handler).
Proof.
  intros Hb Hh s a. unfold try_except. specialize (Hb s).
  destruct (body s) as [[a'|e] s1]; simpl in *; [by intros [= <-]; apply Hb|].
  apply Hh.
Qed.

End Ensures.

Lemma keeps_db_on_http_error {A} what (skip : A) e :
  keeps db (DiscordUtils.on_http_error what skip e).
Proof. unfold DiscordUtils.on_http_error. keep. Qed.

Lemma keeps_db_sync_page cid existing page new :
  keeps db (DiscordUtils.sync_page cid existing page new).
Proof.
  pose proof (@keeps_db_on_http_error). destruct page as [idx embed].
  unfold DiscordUtils.sync_page. keep.
Qed.

Lemma keeps_db_delete_stale cid mid : keeps db (DiscordUtils.delete_stale cid mid).
Proof.
  pose proof (@keeps_db_on_http_error). unfold DiscordUtils.delete_stale. keep.
Qed.

(** A page adds at most one id to the list of new ids. *)
Lemma sync_page_adds_at_most_one cid existing page new :
  ensures (fun ids => exists add, ids = new ++ add /\ (length add <= 1)%nat)
    (DiscordUtils.sync_page cid existing page new).
Proof.
  destruct page as [idx embed]. unfold DiscordUtils.sync_page.
  assert (Hone : forall x : Z,
            exists add, new ++ [x] = new ++ add /\ (length add <= 1)%nat).
  { intros x. exists [x]. split; [done|simpl; lia]. }
  assert (Hnone : exists add : list Z, new = new ++ add /\ (length add <= 1)%nat).
  { exists []. rewrite app_nil_r. split; [done|simpl; lia]. }
  apply ensures_try_except.
  - apply ensures_bind. intros _. destruct (existing !! idx).
    + apply ensures_bind. intros msg. apply ensures_bind. intros _.
      by apply ensures_ret.
    + apply ensures_bind. intros msg. by apply ensures_ret.
  - intros e. destruct e.
    + apply ensures_bind. intros msg. by apply ensures_ret.
    + unfold DiscordUtils.on_http_error. simpl.
      apply ensures_bind. intros _. by apply ensures_ret.
    + unfold DiscordUtils.on_http_error. simpl.
      destruct (status =? 429); [apply ensures_raise|].
      apply ensures_bind. intros _. by apply ensures_ret.
    + unfold DiscordUtils.on_http_error. simpl. apply ensures_raise.
    + unfold DiscordUtils.on_http_error. simpl. apply ensures_raise.
Qed.

Lemma sync_pages_add_at_most_one_each cid existing pages :
  forall new,
    ensures (fun ids => exists add,
               ids = new ++ add /\ (length add <= length pages)%nat)
      (for_fold pages (DiscordUtils.sync_page cid existing) new).
Proof.
  induction pages as [|page pages IH]; intros new; simpl.
  - apply ensures_ret. exists []. rewrite app_nil_r. split; [done|simpl; lia].
  - intros s ids. unfold bind.
    pose proof (sync_page_adds_at_most_one cid existing page new s) as Hstep.
    destruct (DiscordUtils.sync_page cid existing page new s) as [[ids1|e] s1];
      [|done].
    destruct (Hstep ids1 eq_refl) as (add1 & -> & Hlen1).
    intros H. apply IH in H as (add & -> & Hlen).
    exists (add1 ++ add). rewrite app_assoc, length_app. split; [done|lia].
Qed.

(** From the channel on, a pass either stores a list of at most one id per
    page or leaves the store as it was. *)
Lemma reconcile_stores_or_leaves sid cid embeds w r w' :
  DiscordUtils.reconcile sid cid embeds w = (r, w') ->
  (exists ids,
     Database.save_message_ids (db w) sid ids = Some (db w')
     /\ (length ids <= length embeds)%nat)
  \/ db w' = db w.
Proof.
  unfold DiscordUtils.reconcile, bind at 1, gets at 1. cbn [fst snd].
  unfold bind at 1.
  pose proof (sync_pages_add_at_most_one_each cid
                (Database.get_message_ids (db w) sid) (enumerate embeds) [] w)
    as Hids.
  pose proof (keeps_for_fold db (enumerate embeds)
                (DiscordUtils.sync_page cid (Database.get_message_ids (db w) sid))
                [] (fun p c => keeps_db_sync_page cid _ p c) w) as Hdb1.
  destruct (for_fold (enumerate embeds) _ [] w) as [[ids|e] w1];
    simpl in Hids, Hdb1; [|intros [= <- <-]; by right].
  destruct (Hids ids eq_refl) as (add & -> & Hlen).
  unfold enumerate in Hlen. rewrite length_enumerate_from in Hlen.
  unfold bind at 1.
  pose proof (keeps_for_each db
                (drop (length embeds) (Database.get_message_ids (db w) sid))
                (DiscordUtils.delete_stale cid)
                (keeps_db_delete_stale cid) w1) as Hdb2.
  destruct (for_each _ (DiscordUtils.delete_stale cid) w1) as [[[]|e] w2];
    simpl in Hdb2; [|intros [= <- <-]; right; congruence].
  unfold DiscordUtils.save_message_ids.
  destruct (Database.save_message_ids (db w2) sid add) as [d'|] eqn:Hsave;
    intros [= <- <-]; simpl; [|right; congruence].
  left. exists add. split; [congruence|done].
Qed.

Lemma list_channel_none sid w :
  list_channel sid w = None ->
  exists r,
    (config <- gets (fun w => Database.get_server_config (db w) sid) ;;
     match config with
     | None => ret tt
     | Some config =>
         members <- gets (fun w => Database.get_members (db w) sid) ;;
         match c_list_channel_id config with
         | None => raise (OtherError "TypeError")
         | Some cid =>
             channel <- Platform.get_channel cid ;;
             match channel with
             | None => ret tt
             | Some channel =>
                 DiscordUtils.reconcile sid channel
                   (DiscordUtils.create_list_embeds (c_guild_name config) members)
             end
         end
     end) w = (r, w).
Proof.
  unfold list_channel, bind, gets, Platform.get_channel.
  destruct (Database.get_server_config (db w) sid) as [config|]; [|by eexists].
  destruct (c_list_channel_id config) as [cid|]; [|by eexists].
  intros H. unfold gets. cbv beta. rewrite H. by eexists.
Qed.

(** What a pass does to the store and how it ends. *)
Lemma update_list_outcome sid w r w' :
  DiscordUtils.update_list sid w = (r, w') ->
  r = Ret tt
  /\ ((exists ids,
         Database.save_message_ids (db w) sid ids = Some (db w')
         /\ (length ids <= length (rendered_pages sid w))%nat)
      \/ db w' = db w).
Proof.
  destruct (list_channel sid w) as [cid|] eqn:Hch.
  - rewrite (update_list_reconciles sid cid w Hch). unfold try_except.
    destruct (DiscordUtils.reconcile sid cid (rendered_pages sid w)
                (emit (Synchronized sid) w)) as [o w1] eqn:Hrec.
    apply reconcile_stores_or_leaves in Hrec. simpl in Hrec.
    destruct o as [[]|e]; intros [= <- <-]; simpl; split; done.
  - unfold DiscordUtils.update_list, bind at 1, modify. unfold try_except.
    destruct (list_channel_none sid (emit (Synchronized sid) w) Hch) as (o & ->).
    destruct o as [[]|e]; intros [= <- <-]; simpl; split; by auto.
Qed.

(** X16: a pass never raises, whatever the platform does, and it touches
    nothing in the store but the list of display messages of its own group:
    members, configurations and the lists of the other groups are as they
    were. *)
Theorem update_list_is_contained (sid : string) (w : world) :
  let run := DiscordUtils.update_list sid w in
  run.1 = Ret tt
  /\ members (db run.2) = members (db w)
  /\ servers (db run.2) = servers (db w)
  /\ forall sid', sid' <> sid -> stored_ids sid' run.2 = stored_ids sid' w.
Proof.
  cbv zeta. destruct (DiscordUtils.update_list sid w) as [r w'] eqn:Hrun.
  apply update_list_outcome in Hrun as [-> [(ids & Hsave & _)|Hdb]]; simpl.
  - destruct (save_message_ids_read _ _ _ _ Hsave) as (Hs & Hm & _).
    split; [done|]. split; [done|]. split; [done|].
    intros sid' Hne. unfold stored_ids. by eapply save_message_ids_other_group.
  - unfold stored_ids. rewrite Hdb. done.
Qed.

(** X17: whatever the platform does, after a pass the stored list of the
    group is the list it was or a list of distinct ids, at most one per
    rendered page. *)
Theorem stored_list_never_exceeds_pages (sid : string) (w : world) :
  let w' := exec (DiscordUtils.update_list sid) w in
  stored_ids sid w' = stored_ids sid w
  \/ (NoDup (stored_ids sid w')
      /\ (length (stored_ids sid w') <= length (rendered_pages sid w))%nat).
Proof.
  cbv zeta. unfold exec.
  destruct (DiscordUtils.update_list sid w) as [r w'] eqn:Hrun.
  apply update_list_outcome in Hrun as [-> [(ids & Hsave & Hlen)|Hdb]]; simpl.
  - right. unfold stored_ids.
    destruct (save_message_ids_read _ _ _ _ Hsave) as (_ & _ & ->).
    split; [by eapply save_message_ids_distinct|done].
  - left. unfold stored_ids. by rewrite Hdb.
Qed.

Lemma call_is_one_call {A} op (natural : world -> option (A * world)) w :
  (forall w0 a w1, natural w0 = Some (a, w1) -> trace w1 = trace w0) ->
  exists r,
    platform_calls (trace (Platform.call op natural w).2)
    = platform_calls (trace w) ++ [(op, r)].
Proof.
  intros Hnat. unfold Platform.call, Platform.next_rejection.
  assert (Hcase : forall w0, trace w0 = trace w ->
    exists r,
      platform_calls
        (trace (match natural w0 with
                | Some (a, w2) => (Ret a, emit (Called op None) w2)
                | None => (Raise NotFound, emit (Called op (Some NotFound)) w0)
                end).2) = platform_calls (trace w) ++ [(op, r)]).
  { intros w0 Hw0. destruct (natural w0) as [[a w2]|] eqn:E; simpl.
    - apply Hnat in E. eexists. by rewrite platform_calls_app, E, Hw0.
    - eexists. by rewrite platform_calls_app, Hw0. }
  destruct (rejections w) as [|[e|] rest]; simpl.
  - by apply Hcase.
  - eexists. by rewrite platform_calls_app.
  - by apply Hcase.
Qed.

(** X18: a pass for a group that has no configuration, or whose list
    channel the bot cannot see, makes no call to the platform and leaves the
    store and the channels as they were. *)
Theorem unreached_pass_does_nothing (sid : string) (w : world) :
  list_channel sid w = None ->
  let run := DiscordUtils.update_list sid w in
  run.1 = Ret tt
  /\ db run.2 = db w
  /\ channels run.2 = channels w
  /\ platform_calls (trace run.2) = platform_calls (trace w).
Proof.
  intros Hch. cbv zeta.
  assert (H : exists w',
    DiscordUtils.update_list sid w = (Ret tt, w')
    /\ db w' = db w /\ channels w' = channels w
    /\ platform_calls (trace w') = platform_calls (trace w)).
  { unfold DiscordUtils.update_list, bind at 1, modify. unfold try_except.
    destruct (list_channel_none sid (emit (Synchronized sid) w) Hch) as (o & ->).
    destruct o as [[]|e]; eexists; (split; [reflexivity|]); simpl;
      rewrite ?platform_calls_app; simpl; rewrite ?app_nil_r; done. }
  destruct H as (w' & -> & H). done.
Qed.

Lemma unreached_pass_does_nothing_witness :
  let run := DiscordUtils.update_list "9" Scenario.two_groups in
  run.1 = Ret tt
  /\ db run.2 = db Scenario.two_groups
  /\ channels run.2 = channels Scenario.two_groups
  /\ platform_calls (trace run.2) = platform_calls (trace Scenario.two_groups).
Proof.
  apply (unreached_pass_does_nothing "9" Scenario.two_groups). reflexivity.
Defined.

Lemma send_is_one_call cid c w :
  exists r,
    platform_calls (trace (Platform.send cid c w).2)
    = platform_calls (trace w) ++ [(OpSend cid c, r)].
Proof.
  unfold Platform.send. apply call_is_one_call.
  intros w0 a w1 H. simpl in H.
  destruct (Platform.find_channel cid (channels w0)); by simplify_eq.
Qed.

(** X19: the audit log never raises and never touches the store, whatever
    the platform does. When the group has a configuration that names a log
    channel, the bot can see that channel and may write to it, the audit
    log makes one call to the platform: it sends the line to that channel.
    In every other case it makes no call. *)
Theorem log_action_is_harmless (sid action : string) (w : world) :
  let run := DiscordUtils.log_action sid action w in
  run.1 = Ret tt
  /\ db run.2 = db w
  /\ match log_channel sid w with
     | Some cid =>
         (exists config,
            Database.get_server_config (db w) sid = Some config
            /\ c_log_channel_id config = Some cid)
         /\ exists r,
              platform_calls (trace run.2)
              = platform_calls (trace w) ++ [(OpSend cid (Plain action), r)]
     | None => platform_calls (trace run.2) = platform_calls (trace w)
     end.
Proof.
  cbv zeta.
  destruct (log_action_total sid action w) as (w' & Hrun & Hdb).
  rewrite Hrun. simpl. split; [done|]. split; [done|].
  revert Hrun.
  unfold log_channel, DiscordUtils.log_action, try_except, bind, gets.
  destruct (Database.get_server_config (db w) sid) as [config|];
    [|by intros [= <-]].
  destruct (c_log_channel_id config) as [cid|] eqn:Hcid; [|by intros [= <-]].
  unfold Platform.get_channel, gets.
  destruct (Platform.find_channel cid (channels w)) as [c|] eqn:Hch; simpl;
    [|intros [= <-]; simpl; by rewrite platform_calls_app, app_nil_r].
  rewrite (find_channel_id _ _ _ Hch).
  unfold Platform.may_send, gets. rewrite Hch.
  destruct (send_messages c); simpl;
    [|intros [= <-]; simpl; by rewrite platform_calls_app, app_nil_r].
  destruct (send_is_one_call cid (Plain action) w) as (r & Hcalls).
  destruct (Platform.send cid (Plain action) w) as [[mid|e] w1]; simpl in *.
  - intros [= <-]. split; [by exists config|]. by exists r.
  - destruct e; intros [= <-]; (split; [by exists config|]); exists r; simpl;
      by rewrite platform_calls_app, app_nil_r.
Qed.

(** ** First pass and shrinking list *)

Lemma sync_pages_fresh cid embeds :
  forall k new w,
    calm w -> present cid w ->
    exists w',
      for_fold (enumerate_from k embeds) (DiscordUtils.sync_page cid []) new w
      = (Ret (new ++ seqZ (next_message_id w) (Z.of_nat (length embeds))), w')
      /\ evolves cid w w'
           (Platform.message_ids cid w
            ++ seqZ (next_message_id w) (Z.of_nat (length embeds)))
           (next_message_id w + Z.of_nat (length embeds))
           (length embeds) [] 0.
Proof.
  induction embeds as [|embed embeds IH]; intros k new w Hc Hp.
  - exists w. simpl. rewrite !app_nil_r, Z.add_0_r.
    split; [done|]. by apply evolves_refl.
  - cbn [enumerate_from for_fold]. unfold bind.
    destruct (sync_page_calm cid [] k embed new w Hc Hp)
      as (x & w1 & -> & [(Hk & _)|(_ & -> & E1)]); [done|].
    assert (Hc1 : calm w1) by (break_evolves; done).
    assert (Hp1 : present cid w1) by (break_evolves; done).
    assert (Hids1 : Platform.message_ids cid w1
                    = Platform.message_ids cid w ++ [next_message_id w])
      by (break_evolves; done).
    assert (Hnext1 : next_message_id w1 = next_message_id w + 1)
      by (break_evolves; done).
    destruct (IH (S k) (new ++ [next_message_id w]) w1 Hc1 Hp1)
      as (w2 & -> & E2).
    rewrite Hids1, Hnext1 in E2.
    assert (Hseq : seqZ (next_message_id w) (Z.of_nat (length (embed :: embeds)))
                   = next_message_id w
                     :: seqZ (next_message_id w + 1) (Z.of_nat (length embeds))).
    { rewrite seqZ_cons by (simpl; lia). f_equal. f_equal; simpl; lia. }
    rewrite Hseq, Hnext1. exists w2. split; [by rewrite <- app_assoc|].
    pose proof (evolves_trans _ _ _ _ _ _ _ _ _ _ _ _ _ _ E1 E2) as E.
    rewrite <- app_assoc in E. simpl in E.
    replace (next_message_id w + Z.of_nat (length (embed :: embeds)))
      with (next_message_id w + 1 + Z.of_nat (length embeds)) by (simpl; lia).
    exact E.
Qed.

(** X20: the first pass over a group with no stored page, in a calm world:
    one message is created per rendered page, nothing is edited or deleted,
    the messages get the next ids of the platform in page order, and these
    ids are what the pass stores. *)
Theorem first_pass_creates_every_page (sid : string) (cid : Z) (w : world) :
  calm w ->
  list_channel sid w = Some cid ->
  stored_ids sid w = [] ->
  let w' := exec (DiscordUtils.update_list sid) w in
  let fresh :=
    seqZ (next_message_id w) (Z.of_nat (length (rendered_pages sid w))) in
  stored_ids sid w' = fresh
  /\ Platform.message_ids cid w' = Platform.message_ids cid w ++ fresh
  /\ creations w' = (creations w + length (rendered_pages sid w))%nat
  /\ edit_calls w' = edit_calls w
  /\ deletions w' = deletions w.
Proof.
  intros Hc Hch Hstored. cbv zeta. unfold exec.
  rewrite (update_list_reconciles sid cid w Hch). unfold try_except.
  destruct (list_channel_inv sid cid w Hch) as (_ & _ & _ & Hp & _).
  set (w0 := emit (Synchronized sid) w).
  assert (E0 : evolves cid w w0 (Platform.message_ids cid w)
                 (next_message_id w) 0 [] 0)
    by by apply emit_synchronized_evolves.
  assert (Hc0 : calm w0) by done.
  assert (Hp0 : present cid w0) by done.
  unfold DiscordUtils.reconcile, bind, gets, enumerate.
  change (Database.get_message_ids (db w0) sid) with (stored_ids sid w).
  rewrite Hstored.
  destruct (sync_pages_fresh cid (rendered_pages sid w) 0 [] w0 Hc0 Hp0)
    as (w1 & -> & E1).
  rewrite drop_nil. cbn [for_each]. unfold ret. rewrite app_nil_l.
  change (next_message_id w0) with (next_message_id w) in *.
  change (Platform.message_ids cid w0) with (Platform.message_ids cid w) in *.
  destruct (save_message_ids_calm sid
              (seqZ (next_message_id w) (Z.of_nat (length (rendered_pages sid w))))
              w1) as (d' & Hsave & ->); [apply NoDup_seqZ|].
  apply save_message_ids_read in Hsave as (_ & _ & Hread).
  cbn [fst snd]. unfold stored_ids at 1. simpl.
  change (Platform.message_ids cid (set_db ?f ?x)) with (Platform.message_ids cid x).
  change (creations (set_db ?f ?x)) with (creations x).
  change (deletions (set_db ?f ?x)) with (deletions x).
  change (edit_calls (set_db ?f ?x)) with (edit_calls x).
  pose proof (evolves_trans _ _ _ _ _ _ _ _ _ _ _ _ _ _ E0 E1) as E.
  destruct E as (_ & _ & _ & Hids & _ & Hcre & Hed & Hdel).
  rewrite app_nil_r in Hed. simpl in Hcre, Hdel.
  repeat split; [done|done|lia|done|lia].
Qed.

Lemma first_pass_creates_every_page_witness :
  let w' := exec (DiscordUtils.update_list "1") Cases.new_group in
  stored_ids "1" w' = [200; 201]
  /\ Platform.message_ids 10 w' = [200; 201]
  /\ creations w' = 2%nat
  /\ edit_calls w' = []
  /\ deletions w' = 0%nat.
Proof.
  assert (Hpages : length (rendered_pages "1" Cases.new_group) = 2%nat)
    by (vm_compute; reflexivity).
  pose proof (first_pass_creates_every_page "1" 10 Cases.new_group
                eq_refl eq_refl eq_refl) as H.
  cbv zeta in H. rewrite Hpages in H. exact H.
Defined.

Lemma delete_stale_present cid mid w :
  calm w -> present cid w ->
  mid ∈ Platform.message_ids cid w ->
  exists w',
    DiscordUtils.delete_stale cid mid w = (Ret tt, w')
    /\ evolves cid w w'
         (filter (fun x => x <> mid) (Platform.message_ids cid w))
         (next_message_id w) 0 [] 1.
Proof.
  intros Hc Hp Hin. unfold DiscordUtils.delete_stale, try_except, bind.
  destruct (fetch_calm cid mid w Hc Hp) as (w1 & -> & E1).
  assert (Hc1 : calm w1) by (break_evolves; done).
  assert (Hp1 : present cid w1) by (break_evolves; done).
  assert (Hids1 : Platform.message_ids cid w1 = Platform.message_ids cid w)
    by (break_evolves; done).
  rewrite (proj2 (has_message_elem cid mid w) Hin).
  destruct (delete_calm cid mid w1 Hc1 Hp1) as (w2 & -> & E2);
    [by rewrite Hids1|].
  exists w2. split; [done|]. solve_evolves.
Qed.

Lemma filter_not_in_cons (mid : Z) (ids l : list Z) :
  filter (fun x => x ∉ ids) (filter (fun x => x <> mid) l)
  = filter (fun x => x ∉ mid :: ids) l.
Proof.
  induction l as [|y l IHl]; [done|].
  rewrite !filter_cons. destruct (decide (y <> mid)) as [Hy|Hy].
  - rewrite filter_cons.
    destruct (decide (y ∉ ids)) as [Hy'|Hy'].
    + rewrite decide_True by (rewrite not_elem_of_cons; done).
      by rewrite IHl.
    + rewrite decide_False by (rewrite not_elem_of_cons; tauto). done.
  - rewrite decide_False by (rewrite not_elem_of_cons; tauto). done.
Qed.

Lemma delete_all_present cid ids :
  forall w,
    calm w -> present cid w ->
    NoDup ids ->
    Forall (fun x => x ∈ Platform.message_ids cid w) ids ->
    exists w',
      for_each ids (DiscordUtils.delete_stale cid) w = (Ret tt, w')
      /\ evolves cid w w'
           (filter (fun x => x ∉ ids) (Platform.message_ids cid w))
           (next_message_id w) 0 [] (length ids).
Proof.
  induction ids as [|mid ids IH]; intros w Hc Hp Hnd Hin.
  - exists w. split; [done|].
    rewrite filter_all by (apply Forall_forall; intros; apply not_elem_of_nil).
    by apply evolves_refl.
  - cbn [for_each]. unfold bind.
    apply NoDup_cons in Hnd as [Hfresh Hnd].
    apply Forall_cons in Hin as [Hmid Hin].
    destruct (delete_stale_present cid mid w Hc Hp Hmid) as (w1 & -> & E1).
    assert (Hc1 : calm w1) by (break_evolves; done).
    assert (Hp1 : present cid w1) by (break_evolves; done).
    assert (Hids1 : Platform.message_ids cid w1
                    = filter (fun x => x <> mid) (Platform.message_ids cid w))
      by (break_evolves; done).
    assert (Hnext1 : next_message_id w1 = next_message_id w)
      by (break_evolves; done).
    destruct (IH w1 Hc1 Hp1 Hnd) as (w2 & -> & E2).
    { rewrite Hids1. eapply Forall_impl.
      - apply Forall_and. split; [exact Hin|].
        apply Forall_forall. intros x Hx. exact Hx.
      - intros x [Hx Hx']. simpl in *. apply list_elem_of_filter.
        split; [|done]. intros ->. done. }
    exists w2. split; [done|].
    rewrite Hnext1, Hids1 in E2.
    rewrite filter_not_in_cons in E2.
    pose proof (evolves_trans _ _ _ _ _ _ _ _ _ _ _ _ _ _ E1 E2) as E.
    exact E.
Qed.

(** X21: a list that has become shorter, in a calm world: when the stored
    messages are distinct and all in the channel and fewer pages are
    rendered than are stored, the pass keeps the first stored ids, one per
    page, creates nothing, deletes exactly the surplus messages, and none
    of them is left in the channel. *)
Theorem surplus_pages_are_deleted (sid : string) (cid : Z) (w : world) :
  calm w ->
  list_channel sid w = Some cid ->
  NoDup (stored_ids sid w) ->
  Forall (fun x => x ∈ Platform.message_ids cid w) (stored_ids sid w) ->
  (length (rendered_pages sid w) <= length (stored_ids sid w))%nat ->
  let w' := exec (DiscordUtils.update_list sid) w in
  let pages := length (rendered_pages sid w) in
  stored_ids sid w' = take pages (stored_ids sid w)
  /\ creations w' = creations w
  /\ deletions w' = (deletions w + (length (stored_ids sid w) - pages))%nat
  /\ (forall mid, mid ∈ drop pages (stored_ids sid w) ->
                  mid ∉ Platform.message_ids cid w')
  /\ (forall mid, mid ∈ take pages (stored_ids sid w) ->
                  mid ∈ Platform.message_ids cid w').
Proof.
  intros Hc Hch Hnd Hin Hle. cbv zeta. unfold exec.
  rewrite (update_list_reconciles sid cid w Hch). unfold try_except.
  destruct (list_channel_inv sid cid w Hch) as (_ & _ & _ & Hp & _).
  set (w0 := emit (Synchronized sid) w).
  assert (E0 : evolves cid w w0 (Platform.message_ids cid w)
                 (next_message_id w) 0 [] 0)
    by by apply emit_synchronized_evolves.
  assert (Hc0 : calm w0) by done.
  assert (Hp0 : present cid w0) by done.
  unfold DiscordUtils.reconcile, bind, gets, enumerate.
  change (Database.get_message_ids (db w0) sid) with (stored_ids sid w).
  set (existing := stored_ids sid w) in *.
  set (embeds := rendered_pages sid w) in *.
  destruct (sync_pages_all_present cid existing embeds 0 [] w0 Hc0 Hp0)
    as (w1 & -> & E1).
  { intros i Hi. destruct (lookup_lt_is_Some_2 existing i) as [x Hx]; [lia|].
    exists x. split; [done|]. rewrite Forall_forall in Hin. apply Hin.
    eapply list_elem_of_lookup_2; eauto. }
  rewrite drop_0 in E1. rewrite drop_0, app_nil_l.
  change (next_message_id w0) with (next_message_id w) in *.
  change (Platform.message_ids cid w0) with (Platform.message_ids cid w) in *.
  assert (Hc1 : calm w1) by (break_evolves; done).
  assert (Hp1 : present cid w1) by (break_evolves; done).
  assert (Hids1 : Platform.message_ids cid w1 = Platform.message_ids cid w)
    by (break_evolves; done).
  assert (Hsplit : existing = take (length embeds) existing
                              ++ drop (length embeds) existing)
    by by rewrite take_drop.
  assert (Hnd' : NoDup (take (length embeds) existing)
                 /\ (forall x, x ∈ take (length embeds) existing ->
                               x ∉ drop (length embeds) existing)
                 /\ NoDup (drop (length embeds) existing)).
  { rewrite Hsplit in Hnd. by apply NoDup_app in Hnd. }
  destruct Hnd' as (Hnd1 & Hdisj & Hnd2).
  destruct (delete_all_present cid (drop (length embeds) existing) w1 Hc1 Hp1 Hnd2)
    as (w2 & -> & E2).
  { rewrite Hids1. rewrite Forall_forall in Hin. apply Forall_forall.
    intros x Hx. apply Hin. rewrite Hsplit. apply elem_of_app. by right. }
  destruct (save_message_ids_calm sid (take (length embeds) existing) w2 Hnd1)
    as (d' & Hsave & ->).
  apply save_message_ids_read in Hsave as (_ & _ & Hread).
  cbn [fst snd]. unfold stored_ids at 1. simpl.
  change (Platform.message_ids cid (set_db ?f ?x)) with (Platform.message_ids cid x).
  change (creations (set_db ?f ?x)) with (creations x).
  change (deletions (set_db ?f ?x)) with (deletions x).
  rewrite Hids1 in E2.
  pose proof (evolves_trans _ _ _ _ _ _ _ _ _ _ _ _ _ _ E0
                (evolves_trans _ _ _ _ _ _ _ _ _ _ _ _ _ _ E1 E2)) as E.
  destruct E as (_ & _ & _ & Hids & _ & Hcre & _ & Hdel).
  simpl in Hcre, Hdel. rewrite length_drop in Hdel.
  split; [done|]. split; [lia|]. split; [lia|]. rewrite Hids. split.
  - intros mid Hmid Habs. apply list_elem_of_filter in Habs as [Habs _]. done.
  - intros mid Hmid. apply list_elem_of_filter. split; [by apply Hdisj|].
    rewrite Forall_forall in Hin. apply Hin. rewrite Hsplit.
    apply elem_of_app. by left.
Qed.

Lemma surplus_pages_are_deleted_witness :
  let w' := exec (DiscordUtils.update_list "1") Cases.three_pages in
  stored_ids "1" w' = [100; 101]
  /\ creations w' = 0%nat
  /\ deletions w' = 1%nat
  /\ (forall mid, mid ∈ [102] -> mid ∉ Platform.message_ids 10 w')
  /\ (forall mid, mid ∈ [100; 101] -> mid ∈ Platform.message_ids 10 w').
Proof.
  assert (Hpages : length (rendered_pages "1" Cases.three_pages) = 2%nat)
    by (vm_compute; reflexivity).
  assert (Hstored : stored_ids "1" Cases.three_pages = [100; 101; 102])
    by (vm_compute; reflexivity).
  assert (Hids : Platform.message_ids 10 Cases.three_pages = [100; 101; 102])
    by (vm_compute; reflexivity).
  pose proof (surplus_pages_are_deleted "1" 10 Cases.three_pages
                eq_refl eq_refl) as H.
  cbv zeta in H. rewrite Hpages, Hstored, Hids in H.
  apply H.
  - apply (bool_decide_unpack _). vm_compute. exact I.
  - apply (bool_decide_unpack _). vm_compute. exact I.
  - simpl. lia.
Defined.

(** ** What the sweep does to the store *)

Section Moves.
Context {S : Type} (R : relation database) `{!PreOrder R} (d : S -> database).

Lemma moves_keeps {A} (m : M S A) : keeps d m -> moves R d m.
Proof. intros H s. by rewrite H. Qed.

Lemma moves_bind {A C} (m : M S A) (k : A -> M S C) :
  moves R d m -> (forall a, moves R d (k a)) -> moves R d (bind m k).
Proof.
  intros Hm Hk s. unfold bind. specialize (Hm s).
  destruct (m s) as [[a|e] s1]; simpl in *; [|done].
  by etrans; [exact Hm|apply Hk].
Qed.

Lemma moves_try_except {A} (body : M S A) (handler : exn -> M S A) :
  moves R d body -> (forall e, moves R d (handler e)) ->
  moves R d (try_except body handler).
Proof.
  intros Hm Hk s. unfold try_except. specialize (Hm s).
  destruct (body s) as [[a|e] s1]; simpl in *; [done|].
  by etrans; [exact Hm|apply Hk].
Qed.

Lemma moves_for_each {A} (xs : list A) (body : A -> M S unit) :
  (forall x, x ∈ xs -> moves R d (body x)) -> moves R d (for_each xs body).
Proof.
  induction xs as [|x xs IH]; intros Hb; simpl.
  - by apply moves_keeps.
  - apply moves_bind; [apply Hb; left|intros _; apply IH].
    intros y Hy. apply Hb. by right.
Qed.

End Moves.

Lemma update_list_tables sid w :
  (DiscordUtils.update_list sid w).1 = Ret tt
  /\ servers (db (DiscordUtils.update_list sid w).2) = servers (db w)
  /\ members (db (DiscordUtils.update_list sid w).2) = members (db w).
Proof.
  destruct (DiscordUtils.update_list sid w) as [r w'] eqn:Hrun.
  apply update_list_outcome in Hrun as [-> [(ids & Hsave & _)|Hdb]]; simpl.
  - by destruct (save_message_ids_read _ _ _ _ Hsave) as (Hs & Hm & _).
  - by rewrite Hdb.
Qed.

Section Sweep.
Context (R : relation database) `{!PreOrder R} (P : string -> string -> Prop).
Hypothesis R_remove :
  forall d sid name, P sid name -> R d (Database.remove_member d sid name).
Hypothesis R_touch :
  forall d now sid name,
    P sid name -> R d (Database.update_last_checked d now sid name).
Hypothesis R_pages :
  forall d d', servers d' = servers d -> members d' = members d -> R d d'.

Lemma moves_check_member config sid name :
  P sid name -> moves R (fun s : world * locals => db s.1) (check_member config sid name).
Proof.
  intros HP s. pose proof (check_member_db config sid name s) as H.
  unfold exec in H. rewrite H. destruct (negb _ && _); auto.
Qed.

Lemma moves_check_server sid :
  (forall name, P sid name) -> moves R (fun s : world * locals => db s.1) (check_server sid).
Proof.
  intros HP. unfold check_server.
  apply moves_bind; [done|by apply moves_keeps|intros _].
  apply moves_bind; [done|apply moves_keeps; [done|by intros s]|intros [config|]].
  - apply moves_bind; [done|apply moves_keeps; [done|by intros s]|intros names].
    apply moves_for_each; [done|]. intros name _. apply moves_check_member, HP.
  - by apply moves_keeps.
Qed.

Lemma moves_update_list sid : moves R db (DiscordUtils.update_list sid).
Proof.
  intros w. destruct (update_list_tables sid w) as (_ & Hs & Hm).
  by apply R_pages.
Qed.

Lemma moves_lift {A} (m : M world A) :
  moves R db m -> moves R (fun s : world * locals => db s.1) (lift m).
Proof.
  intros Hm [w l]. unfold lift. simpl. specialize (Hm w).
  by destruct (m w) as [r w1].
Qed.

Lemma sweep_tail_moves :
  moves R (fun s : world * locals => db s.1)
    (done_ <- get_local successful_checks ;;
     (if 0 <? done_
      then sid <- get_local loop_server_id ;;
           match sid with
           | Some sid => lift (DiscordUtils.update_list sid)
           | None => raise (OtherError "UnboundLocalError")
           end
      else ret tt) ;;
     lift (log Info "Processed members")).
Proof.
  apply moves_bind; [done|by apply moves_keeps|intros n].
  apply moves_bind;
    [done| |intros _; apply moves_lift; by apply moves_keeps].
  destruct (0 <? n); [|by apply moves_keeps].
  apply moves_bind; [done|by apply moves_keeps|intros [sid|]].
  - apply moves_lift, moves_update_list.
  - by apply moves_keeps.
Qed.

Lemma sweep_rest_moves server_ids :
  Forall (fun sid => forall name, P sid name) server_ids ->
  moves R (fun s : world * locals => db s.1)
    (for_each server_ids check_server ;;
     done_ <- get_local successful_checks ;;
     (if 0 <? done_
      then sid <- get_local loop_server_id ;;
           match sid with
           | Some sid => lift (DiscordUtils.update_list sid)
           | None => raise (OtherError "UnboundLocalError")
           end
      else ret tt) ;;
     lift (log Info "Processed members")).
Proof.
  intros HP. apply moves_bind; [done| |intros _; apply sweep_tail_moves].
  apply moves_for_each; [done|]. intros sid Hsid.
  apply moves_check_server. rewrite Forall_forall in HP. by apply HP.
Qed.

Lemma sweep_moves w :
  Forall (fun sid => forall name, P sid name)
    (Database.select_autoremove_servers (db w)) ->
  R (db w) (db (live_guild_check w).2).
Proof.
  intros HP. unfold live_guild_check, try_except.
  set (start := (w, {| total_checked := 0; successful_checks := 0;
                       loop_server_id := None |})).
  pose proof (sweep_rest_moves _ HP start) as H.
  change (R (db w) (db (sweep_body start).2.1)) in H.
  destruct (sweep_body start) as [[[]|e] s1]; simpl in *; done.
Qed.

End Sweep.

Lemma live_guild_check_returns w : (live_guild_check w).1 = Ret tt.
Proof.
  unfold live_guild_check, try_except.
  by destruct (sweep_body _) as [[[]|e] s1].
Qed.

Lemma group_rows_remove_member d sid name sid' :
  sid <> sid' ->
  group_rows (Database.remove_member d sid name) sid' = group_rows d sid'.
Proof.
  intros Hne. unfold group_rows, Database.remove_member. simpl.
  induction (members d) as [|r l IH]; [done|].
  rewrite !filter_cons.
  destruct (decide (~ Database.is_member_key sid (Text.lower name) r)) as [Hk|Hk].
  - rewrite filter_cons. destruct (decide (m_server_id r = sid')); by rewrite IH.
  - rewrite decide_False; [done|].
    intros Hr. apply Hk. intros [Hs _]. congruence.
Qed.

Lemma group_rows_update_last_checked d now sid name sid' :
  sid <> sid' ->
  group_rows (Database.update_last_checked d now sid name) sid'
  = group_rows d sid'.
Proof.
  intros Hne. unfold group_rows, Database.update_last_checked. simpl.
  induction (members d) as [|r l IH]; [done|].
  rewrite fmap_cons, !filter_cons.
  destruct (decide (Database.is_member_key sid (Text.lower name) r))
    as [[Hs Hn]|Hk].
  - simpl. rewrite !decide_False by congruence. done.
  - destruct (decide (m_server_id r = sid')); by rewrite IH.
Qed.

#[local] Instance same_group_preorder sid :
  PreOrder (fun d d' : database =>
              servers d' = servers d /\ group_rows d' sid = group_rows d sid).
Proof.
  split.
  - by intros d.
  - intros d1 d2 d3 [H1 H2] [H3 H4]. split; congruence.
Qed.

#[local] Instance roster_preorder :
  PreOrder (fun d d' : database =>
              forall sid, roster_names d' sid ⊆ roster_names d sid).
Proof.
  split.
  - by intros d sid.
  - intros d1 d2 d3 H1 H2 sid. by etrans; [apply H2|apply H1].
Qed.

Lemma sweep_keeps_unselected sid w :
  sid ∉ Database.select_autoremove_servers (db w) ->
  servers (db (live_guild_check w).2) = servers (db w)
  /\ group_rows (db (live_guild_check w).2) sid = group_rows (db w) sid.
Proof.
  intros Hout.
  apply (sweep_moves
           (fun d d' => servers d' = servers d
                        /\ group_rows d' sid = group_rows d sid)
           (fun sid0 _ => sid0 <> sid)).
  - intros d sid0 name Hne. split; [done|].
    by apply group_rows_remove_member.
  - intros d now sid0 name Hne. split; [done|].
    by apply group_rows_update_last_checked.
  - intros d d' Hs Hm. split; [done|]. unfold group_rows. by rewrite Hm.
  - apply Forall_forall. intros sid0 Hin _ ->. done.
Qed.

(** X22: a sweep never raises, whatever the verification source and the
    platform do, and it leaves the configurations and the members of every
    group outside its selection (auto-remove off) exactly as they were. *)
Theorem sweep_leaves_other_groups_alone (sid : string) (w : world) :
  sid ∉ Database.select_autoremove_servers (db w) ->
  let run := live_guild_check w in
  run.1 = Ret tt
  /\ servers (db run.2) = servers (db w)
  /\ group_rows (db run.2) sid = group_rows (db w) sid
  /\ Database.get_members (db run.2) sid = Database.get_members (db w) sid.
Proof.
  intros Hout. cbv zeta. split; [apply live_guild_check_returns|].
  destruct (sweep_keeps_unselected sid w Hout) as [Hs Hg].
  split; [done|]. split; [done|].
  unfold Database.get_members. unfold group_rows in Hg. by rewrite Hg.
Qed.

Lemma sweep_leaves_other_groups_alone_witness :
  let run := live_guild_check Cases.mixed in
  run.1 = Ret tt
  /\ servers (db run.2) = servers (db Cases.mixed)
  /\ group_rows (db run.2) "2" = group_rows (db Cases.mixed) "2"
  /\ Database.get_members (db run.2) "2"
     = Database.get_members (db Cases.mixed) "2".
Proof.
  apply (sweep_leaves_other_groups_alone "2" Cases.mixed).
  apply (bool_decide_unpack _). vm_compute. exact I.
Defined.

(** X23: a sweep adds no member: whatever the verification source and the
    platform do, every name on the roster of a group after the sweep was on
    it before. *)
Theorem sweep_adds_no_member (sid : string) (w : world) :
  roster_names (db (exec live_guild_check w)) sid ⊆ roster_names (db w) sid.
Proof.
  unfold exec. revert sid.
  apply (sweep_moves
           (fun d d' => forall sid, roster_names d' sid ⊆ roster_names d sid)
           (fun _ _ => True)).
  - intros d sid0 name _ sid x. unfold roster_names.
    rewrite !elem_of_get_members. intros (r & Hr & Hsid & Hname).
    unfold Database.remove_member in Hr. simpl in Hr.
    apply list_elem_of_filter in Hr as [_ Hr]. by exists r.
  - intros d now sid0 name _ sid x. unfold roster_names.
    rewrite !elem_of_get_members. intros (r & Hr & Hsid & Hname).
    unfold Database.update_last_checked in Hr. simpl in Hr.
    apply list_elem_of_fmap in Hr as (r0 & -> & Hr0).
    exists r0. split; [done|]. by destruct (decide _).
  - intros d d' _ Hm sid. unfold roster_names, Database.get_members.
    by rewrite Hm.
  - by apply Forall_forall.
Qed.

(** ** The start-up pass *)

Lemma on_ready_loop server_ids :
  forall w,
    exists w',
      for_each server_ids
        (fun sid =>
           try_except (DiscordUtils.update_list sid)
             (fun _ => log Error ("Failed to initialize list for server " +:+ sid)))
        w = (Ret tt, w')
      /\ synchronized (trace w') = synchronized (trace w) ++ server_ids
      /\ servers (db w') = servers (db w)
      /\ members (db w') = members (db w).
Proof.
  induction server_ids as [|sid server_ids IH]; intros w.
  - exists w. simpl. by rewrite app_nil_r.
  - cbn [for_each]. unfold bind. unfold try_except at 1.
    pose proof (update_list_synchronizes_once sid w) as Hsync.
    destruct (update_list_tables sid w) as (Hret & Hs & Hm).
    unfold exec in Hsync.
    destruct (DiscordUtils.update_list sid w) as [r w1]. simpl in *. subst r.
    destruct (IH w1) as (w2 & -> & Hsync2 & Hs2 & Hm2).
    exists w2. split; [done|]. rewrite Hsync2, Hsync, <- app_assoc.
    split; [done|]. split; congruence.
Qed.

(** X24: the first time the connection is ready, the start-up pass never
    raises, whatever the platform does; it synchronizes every configured
    group once, whatever its auto-remove setting, in the byte order of
    the group ids (the order in which SQLite reads the primary key), and
    leaves configurations and members as they were. When the connection
    is ready again and the loops are running, the pass raises
    [RuntimeError] before it synchronizes anything: it stores nothing and
    makes no call to the platform. *)
Theorem on_ready_synchronizes_every_group (w : world) :
  let first := on_ready false w in
  let again := on_ready true w in
  first.1 = Ret tt
  /\ (exists ids,
        synchronized (trace first.2) = synchronized (trace w) ++ ids
        /\ ids ≡ₚ server_id <$> servers (db w)
        /\ StronglySorted (fun a b => String.leb a b = true) ids)
  /\ servers (db first.2) = servers (db w)
  /\ members (db first.2) = members (db w)
  /\ again.1 = Raise (OtherError "RuntimeError")
  /\ db again.2 = db w
  /\ synchronized (trace again.2) = synchronized (trace w)
  /\ calls again.2 = calls w.
Proof.
  cbv zeta.
  assert (H : exists w',
    on_ready false w = (Ret tt, w')
    /\ synchronized (trace w')
       = synchronized (trace w)
         ++ order_by String.leb (server_id <$> servers (db w))
    /\ servers (db w') = servers (db w)
    /\ members (db w') = members (db w)).
  { unfold on_ready, bind, gets. unfold log at 1 2. unfold modify, ret.
    cbn [fst snd].
    match goal with
    | |- context [for_each ?l _ ?w0] =>
        destruct (on_ready_loop l w0) as (w' & Hrun & Hsync & Hs & Hm)
    end.
    exists w'. split; [exact Hrun|]. split; [|done].
    rewrite Hsync. simpl. by rewrite !synchronized_app, !app_nil_r. }
  destruct H as (w' & -> & Hsync & Hs & Hm). cbn [fst snd].
  split; [done|]. split.
  { eexists. split; [exact Hsync|]. split; [apply order_by_perm|].
    apply order_by_sorted; [apply String.leb_total|apply string_leb_trans]. }
  split; [done|]. split; [done|].
  unfold on_ready, bind, log, modify, raise, calls. simpl.
  rewrite !synchronized_app, !platform_calls_app. simpl.
  by rewrite !app_nil_r.
Qed.

(** ** Configuration commands *)

Lemma save_server_config_read d sid c :
  Database.get_server_config (Database.save_server_config d sid c) sid = Some c.
Proof.
  unfold Database.get_server_config, Database.save_server_config.
  simpl. rewrite filter_app.
  rewrite (filter_none (fun r => server_id r = sid) (filter _ (servers d))).
  2:{ apply Forall_forall. intros r Hr.
      by apply list_elem_of_filter in Hr as [Hr _]. }
  rewrite filter_cons_True by done. simpl. by destruct c.
Qed.

Lemma save_server_config_selection d sid c :
  sid ∈ Database.select_autoremove_servers (Database.save_server_config d sid c)
  <-> c_autoremove c = true.
Proof.
  unfold Database.select_autoremove_servers, Database.save_server_config.
  simpl. rewrite list_elem_of_fmap. split.
  - intros (r & Hsid & Hr). apply list_elem_of_filter in Hr as [Hon Hr].
    apply elem_of_app in Hr as [Hr|Hr].
    + apply list_elem_of_filter in Hr as [Hne _]. by destruct Hne.
    + apply list_elem_of_singleton in Hr. by subst r.
  - intros Hon. eexists. split; [|apply list_elem_of_filter; split;
      [|apply elem_of_app; right; by apply list_elem_of_singleton]]; done.
Qed.

Lemma delete_is_one_call cid mid w :
  exists r,
    platform_calls (trace (Platform.delete cid mid w).2)
    = platform_calls (trace w) ++ [(OpDelete cid mid, r)].
Proof.
  unfold Platform.delete. apply call_is_one_call.
  intros w0 a w1 H. simpl in H.
  destruct (Platform.has_message cid mid w0); by simplify_eq.
Qed.

Lemma changeguild_configured ctx new_name w config r w' :
  Database.get_server_config (db w) (ctx_server_id ctx) = Some config ->
  Commands.changeguild ctx new_name w = (r, w') ->
  servers (db w')
  = servers (Database.save_server_config (db w) (ctx_server_id ctx)
               (Commands.with_guild_name new_name config))
  /\ members (db w') = members (db w)
  /\ synchronized (trace w') = synchronized (trace w) ++ [ctx_server_id ctx].
Proof.
  intros Hcfg. unfold Commands.changeguild, bind at 1, gets at 1.
  cbn [fst snd]. rewrite Hcfg.
  unfold bind at 1, Commands.save_server_config, modify. cbn [fst snd].
  set (sid := ctx_server_id ctx).
  set (w1 := set_db _ w).
  unfold bind at 1.
  pose proof (update_list_synchronizes_once sid w1) as Hsync.
  destruct (update_list_tables sid w1) as (Hret & Hs & Hm).
  unfold exec in Hsync.
  destruct (DiscordUtils.update_list sid w1) as [r1 w2]. simpl in Hret, Hs, Hm, Hsync.
  subst r1. unfold bind at 1.
  set (line := (Commands.mark_castle +:+ " Guild name changed to " +:+ new_name)).
  pose proof (silent_log_action sid line w2) as Hsil.
  destruct (log_action_total sid line w2) as (w3 & Hlog & Hdb3).
  rewrite Hlog in Hsil. rewrite Hlog. simpl in Hsil.
  unfold bind, Commands.ctx_send.
  match goal with
  | |- context [Platform.send ?c ?t w3] =>
      pose proof (send_db c t w3) as Hdb4;
      pose proof (silent_send c t w3) as Hsil4;
      destruct (Platform.send c t w3) as [[mid|e] w4]
  end; simpl in *; intros [= <- <-];
    (split; [congruence|split; [congruence|]]);
    rewrite Hsil4, Hsil, Hsync; done.
Qed.

(** X25: the guild name of a configured group is changed: whatever the
    platform does, the new name is stored with auto-remove switched off and
    the other settings unchanged, the members are left alone, the list of
    the group is synchronized once, and the next sweep does not select the
    group, so it removes none of its members. *)
Theorem changeguild_disables_autoremove (ctx : context) (new_name : string)
    (w : world) (config : config) :
  Database.get_server_config (db w) (ctx_server_id ctx) = Some config ->
  let sid := ctx_server_id ctx in
  let w' := exec (Commands.changeguild ctx new_name) w in
  Database.get_server_config (db w') sid
  = Some (Commands.with_guild_name new_name config)
  /\ (sid ∉ Database.select_autoremove_servers (db w'))
  /\ members (db w') = members (db w)
  /\ synchronized (trace w') = synchronized (trace w) ++ [sid]
  /\ group_rows (db (exec live_guild_check w')) sid = group_rows (db w) sid.
Proof.
  intros Hcfg. cbv zeta. unfold exec.
  destruct (Commands.changeguild ctx new_name w) as [r w'] eqn:Hrun.
  cbn [fst snd].
  destruct (changeguild_configured _ _ _ _ _ _ Hcfg Hrun) as (Hs & Hm & Hsync).
  assert (Hout : ctx_server_id ctx ∉ Database.select_autoremove_servers (db w')).
  { unfold Database.select_autoremove_servers. rewrite Hs.
    intros Hin. by apply save_server_config_selection in Hin. }
  split.
  { rewrite (get_server_config_servers _ _ _ Hs).
    apply save_server_config_read. }
  split; [done|]. split; [done|]. split; [done|].
  destruct (sweep_keeps_unselected _ _ Hout) as [_ ->].
  unfold group_rows. by rewrite Hm.
Qed.

Lemma changeguild_disables_autoremove_witness :
  let w' := exec (Commands.changeguild Cases.ctx "Horde") Cases.configured in
  Database.get_server_config (db w') "1"
  = Some (Commands.with_guild_name "Horde" (Scenario.config_of true))
  /\ ("1" ∉ Database.select_autoremove_servers (db w'))
  /\ members (db w') = members (db Cases.configured)
  /\ synchronized (trace w') = synchronized (trace Cases.configured) ++ ["1"]
  /\ group_rows (db (exec live_guild_check w')) "1"
     = group_rows (db Cases.configured) "1".
Proof.
  apply (changeguild_disables_autoremove Cases.ctx "Horde" Cases.configured
           (Scenario.config_of true)).
  reflexivity.
Defined.

(** X26: the command [changeguild] runs its body for an administrator or
    a holder of the admin role of a configured group, and for nobody else.
    For a group that was never set up the check fails without a word: the
    command does nothing at all, and the answer of the body for such a
    group is never sent. For a configured group and an author who is not
    an admin, the refusal is sent to the channel of the command, nothing
    is stored and nothing is synchronized. For an admin the command
    returns, with the store and the calls of the body. *)
Theorem changeguild_is_gated (ctx : context) (new_name : string) (w : world) :
  let run := Commands.changeguild_command ctx new_name w in
  let body := Commands.changeguild ctx new_name w in
  let refusal :=
    Plain (Commands.mark_cross
           +:+ " You need the admin role or permissions to use this command!") in
  match Database.get_server_config (db w) (ctx_server_id ctx) with
  | None => run = (Ret tt, w)
  | Some config =>
      if ctx_administrator ctx || Commands.holds_admin_role ctx config
      then run.1 = Ret tt
           /\ db run.2 = db body.2
           /\ synchronized (trace run.2) = synchronized (trace body.2)
           /\ platform_calls (trace run.2) = platform_calls (trace body.2)
      else db run.2 = db w
           /\ synchronized (trace run.2) = synchronized (trace w)
           /\ exists r,
                platform_calls (trace run.2)
                = platform_calls (trace w)
                  ++ [(OpSend (ctx_channel_id ctx) refusal, r)]
  end.
Proof.
  cbv zeta.
  assert (Hbody : forall w0 : world,
    let guarded :=
      try_except (Commands.changeguild ctx new_name)
        (fun _ => log Error "Command error") w0 in
    guarded.1 = Ret tt
    /\ db guarded.2 = db (Commands.changeguild ctx new_name w0).2
    /\ synchronized (trace guarded.2)
       = synchronized (trace (Commands.changeguild ctx new_name w0).2)
    /\ platform_calls (trace guarded.2)
       = platform_calls (trace (Commands.changeguild ctx new_name w0).2)).
  { intros w0. cbv zeta. unfold try_except.
    destruct (Commands.changeguild ctx new_name w0) as [[[]|e] w1]; simpl;
      rewrite ?synchronized_app, ?platform_calls_app, ?app_nil_r; done. }
  destruct (Database.get_server_config (db w) (ctx_server_id ctx))
    as [config|] eqn:Hcfg.
  2:{ unfold Commands.changeguild_command, Commands.command, Commands.is_admin,
        bind, gets. cbn [fst snd]. by rewrite Hcfg. }
  destruct (ctx_administrator ctx || Commands.holds_admin_role ctx config)
    eqn:Hadmin.
  - assert (Hrun : Commands.changeguild_command ctx new_name w
                   = try_except (Commands.changeguild ctx new_name)
                       (fun _ => log Error "Command error") w).
    { unfold Commands.changeguild_command, Commands.command, Commands.is_admin.
      unfold bind at 1 2, gets at 1. cbn [fst snd]. rewrite Hcfg.
      destruct (ctx_administrator ctx); [done|]. simpl in Hadmin.
      by rewrite Hadmin. }
    rewrite Hrun. apply Hbody.
  - apply orb_false_iff in Hadmin as [Hadm Hrole].
    assert (Hrun : exists o,
      Commands.changeguild_command ctx new_name w
      = (o, (Platform.send (ctx_channel_id ctx)
               (Plain (Commands.mark_cross
                       +:+ " You need the admin role or permissions to use this command!"))
               w).2)).
    { unfold Commands.changeguild_command, Commands.command, Commands.is_admin.
      unfold bind at 1 2, gets at 1. cbn [fst snd]. rewrite Hcfg, Hadm, Hrole.
      unfold bind, Commands.ctx_send.
      destruct (Platform.send _ _ w) as [[mid|e] w1]; by eexists. }
    destruct Hrun as (o & ->). cbn [fst snd].
    split; [apply send_db|]. split; [apply silent_send|].
    apply send_is_one_call.
Qed.

Lemma pass_not_found_delete cid mid w :
  exists o w1 r,
    Commands.pass_not_found (Platform.delete cid mid) w = (o, w1)
    /\ db w1 = db w
    /\ synchronized (trace w1) = synchronized (trace w)
    /\ platform_calls (trace w1)
       = platform_calls (trace w) ++ [(OpDelete cid mid, r)].
Proof.
  unfold Commands.pass_not_found, try_except.
  pose proof (keeps_db_delete cid mid w) as Hdb.
  pose proof (silent_delete cid mid w) as Hsil.
  destruct (delete_is_one_call cid mid w) as (r & Hcalls).
  destruct (Platform.delete cid mid w) as [[[]|e] w1]; simpl in *.
  - by exists (Ret tt), w1, r.
  - destruct e; by eexists _, w1, r.
Qed.



Lemma keeps_db_pass_not_found body :
  keeps db body -> keeps db (Commands.pass_not_found body).
Proof. intros H. unfold Commands.pass_not_found. keep. Qed.



(** * Runs under a script *)

(** ** A run whose calls are let through *)

Lemma hush_id w : rejections w = [] -> set_rejections [] w = w.
Proof. destruct w. simpl. by intros ->. Qed.

Lemma script_id w : set_rejections (rejections w) w = w.
Proof. by destruct w. Qed.

Lemma Forall_take_add {A} (P : A -> Prop) (a b : nat) (l : list A) :
  Forall P (take (a + b) l) ->
  Forall P (take a l) /\ Forall P (take b (drop a l)).
Proof. rewrite <- take_take_drop. apply Forall_app. Qed.

Lemma Forall_take_le {A} (P : A -> Prop) (a b : nat) (l : list A) :
  (a <= b)%nat -> Forall P (take b l) -> Forall P (take a l).
Proof.
  intros Hle H. replace b with (a + (b - a))%nat in H by lia.
  by apply Forall_take_add in H as [H _].
Qed.

Lemma accepts_le n m w : (n <= m)%nat -> accepts m w -> accepts n w.
Proof. apply Forall_take_le. Qed.

Lemma calm_accepts n w : calm w -> accepts n w.
Proof. unfold calm, accepts. intros ->. by rewrite take_nil. Qed.

Lemma calls_emit ev w :
  calls (emit ev w)
  = (calls w + match ev with Called _ _ => 1 | _ => 0 end)%nat.
Proof.
  unfold calls. simpl. rewrite platform_calls_app, length_app.
  by destruct ev.
Qed.

Section Transfers.

Lemma transfers_ret {A} (a : A) : transfers (ret a).
Proof.
  intros w rs. exists 0%nat. simpl. split; [unfold calls; simpl; lia|].
  split; [done|]. intros _. by rewrite drop_0.
Qed.

Lemma transfers_raise {A} (e : exn) : transfers (raise (A := A) e).
Proof.
  intros w rs. exists 0%nat. simpl. split; [unfold calls; simpl; lia|].
  split; [done|]. intros _. by rewrite drop_0.
Qed.

Lemma transfers_gets {A} (f : world -> A) :
  (forall w rs, f (set_rejections rs w) = f w) -> transfers (gets f).
Proof.
  intros Hf w rs. exists 0%nat. unfold gets. simpl.
  split; [unfold calls; simpl; lia|]. split; [done|].
  intros _. by rewrite drop_0, !Hf.
Qed.

Lemma transfers_modify (g : world -> world) :
  (forall w rs, g (set_rejections rs w) = set_rejections rs (g w)) ->
  (forall w, calls (g w) = calls w) ->
  transfers (modify g).
Proof.
  intros Hg Hcalls w rs. exists 0%nat. unfold modify. simpl.
  split; [rewrite Hcalls; unfold calls; simpl; lia|].
  split; [by rewrite Hg|].
  intros _. rewrite drop_0, !Hg. by destruct (g w).
Qed.

Lemma transfers_bind {A B} (m : M world A) (k : A -> M world B) :
  transfers m -> (forall a, transfers (k a)) -> transfers (bind m k).
Proof.
  intros Hm Hk w rs. cbv zeta.
  destruct (Hm w rs) as (c1 & Hc1 & Hr1 & Ht1). cbv zeta in *.
  unfold bind.
  destruct (m (set_rejections [] w)) as [[a|e] v1] eqn:Hcalm; simpl in *.
  - destruct (Hk a v1 (drop c1 rs)) as (c2 & Hc2 & Hr2 & Ht2).
    cbv zeta in *. rewrite (hush_id v1 Hr1) in *.
    exists (c1 + c2)%nat. split; [lia|]. split; [done|].
    intros Hacc. apply Forall_take_add in Hacc as [H1 H2].
    rewrite (Ht1 H1), (Ht2 H2). by rewrite drop_drop.
  - exists c1. split; [done|]. split; [done|].
    intros Hacc. by rewrite (Ht1 Hacc).
Qed.

Lemma transfers_try_except {A} (body : M world A) (handler : exn -> M world A) :
  transfers body -> (forall e, transfers (handler e)) ->
  transfers (try_except body handler).
Proof.
  intros Hm Hk w rs. cbv zeta.
  destruct (Hm w rs) as (c1 & Hc1 & Hr1 & Ht1). cbv zeta in *.
  unfold try_except.
  destruct (body (set_rejections [] w)) as [[a|e] v1] eqn:Hcalm; simpl in *.
  - exists c1. split; [done|]. split; [done|].
    intros Hacc. by rewrite (Ht1 Hacc).
  - destruct (Hk e v1 (drop c1 rs)) as (c2 & Hc2 & Hr2 & Ht2).
    cbv zeta in *. rewrite (hush_id v1 Hr1) in *.
    exists (c1 + c2)%nat. split; [lia|]. split; [done|].
    intros Hacc. apply Forall_take_add in Hacc as [H1 H2].
    rewrite (Ht1 H1), (Ht2 H2). by rewrite drop_drop.
Qed.

Lemma transfers_when (b : bool) (m : M world unit) :
  transfers m -> transfers (when b m).
Proof. destruct b; [done|]. intros _. apply transfers_ret. Qed.

Lemma transfers_for_each {A} (xs : list A) (body : A -> M world unit) :
  (forall x, transfers (body x)) -> transfers (for_each xs body).
Proof.
  intros Hb. induction xs as [|x xs IH]; simpl; [apply transfers_ret|].
  apply transfers_bind; [apply Hb|by intros _].
Qed.

Lemma transfers_for_fold {A B} (xs : list A) (body : A -> B -> M world B)
    (acc : B) :
  (forall x b, transfers (body x b)) -> transfers (for_fold xs body acc).
Proof.
  intros Hb. revert acc. induction xs as [|x xs IH]; intros acc; simpl;
    [apply transfers_ret|].
  apply transfers_bind; [apply Hb|done].
Qed.

Lemma transfers_call {A} op (natural : world -> option (A * world)) :
  (forall w rs,
     natural (set_rejections rs w)
     = (fun p => (p.1, set_rejections rs p.2)) <$> natural w) ->
  (forall w a w', natural w = Some (a, w') -> trace w' = trace w) ->
  transfers (Platform.call op natural).
Proof.
  intros Hnat Htrace w rs. cbv zeta. exists 1%nat.
  unfold Platform.call, Platform.next_rejection. simpl.
  rewrite Hnat.
  destruct (natural w) as [[a w2]|] eqn:E; simpl.
  - pose proof (Htrace _ _ _ E) as Ht.
    split; [rewrite calls_emit; unfold calls; simpl; rewrite Ht; lia|].
    split; [done|]. intros Hacc.
    destruct rs as [|r rest]; simpl.
    + by rewrite ?Hnat, ?E.
    + apply Forall_cons in Hacc as [-> _]. simpl.
      rewrite !Hnat, E. simpl. reflexivity.
  - split; [rewrite calls_emit; unfold calls; simpl; lia|].
    split; [done|]. intros Hacc.
    destruct rs as [|r rest]; simpl.
    + by rewrite ?Hnat, ?E.
    + apply Forall_cons in Hacc as [-> _]. simpl.
      rewrite !Hnat, E. simpl. reflexivity.
Qed.

End Transfers.

Lemma transfers_sleep ms : transfers (sleep ms).
Proof.
  apply transfers_modify; [done|]. intros w. by rewrite calls_emit, Nat.add_0_r.
Qed.

Lemma transfers_log lvl msg : transfers (log lvl msg).
Proof.
  apply transfers_modify; [done|]. intros w. by rewrite calls_emit, Nat.add_0_r.
Qed.

Lemma transfers_fetch cid mid : transfers (Platform.fetch_message cid mid).
Proof.
  apply transfers_call.
  - intros w rs. change (Platform.has_message cid mid (set_rejections rs w))
      with (Platform.has_message cid mid w).
    by destruct (Platform.has_message cid mid w).
  - intros w a w' H. destruct (Platform.has_message cid mid w); by simplify_eq.
Qed.

Lemma transfers_edit cid mid e : transfers (Platform.edit cid mid e).
Proof.
  apply transfers_call.
  - intros w rs. change (Platform.has_message cid mid (set_rejections rs w))
      with (Platform.has_message cid mid w).
    by destruct (Platform.has_message cid mid w).
  - intros w a w' H. destruct (Platform.has_message cid mid w); by simplify_eq.
Qed.

Lemma transfers_send cid c : transfers (Platform.send cid c).
Proof.
  apply transfers_call.
  - intros w rs. change (channels (set_rejections rs w)) with (channels w).
    by destruct (Platform.find_channel cid (channels w)).
  - intros w a w' H. simpl in H.
    destruct (Platform.find_channel cid (channels w)); by simplify_eq.
Qed.

Lemma transfers_delete cid mid : transfers (Platform.delete cid mid).
Proof.
  apply transfers_call.
  - intros w rs. change (Platform.has_message cid mid (set_rejections rs w))
      with (Platform.has_message cid mid w).
    by destruct (Platform.has_message cid mid w).
  - intros w a w' H. destruct (Platform.has_message cid mid w); by simplify_eq.
Qed.

Lemma transfers_save_message_ids sid ids :
  transfers (DiscordUtils.save_message_ids sid ids).
Proof.
  intros w rs. cbv zeta. exists 0%nat.
  unfold DiscordUtils.save_message_ids. simpl.
  destruct (Database.save_message_ids (db w) sid ids); simpl;
    (split; [unfold calls; simpl; lia|]); (split; [done|]);
    intros _; by rewrite drop_0.
Qed.

Create HintDb transfers.

#[local] Hint Resolve transfers_ret transfers_raise transfers_sleep
  transfers_log transfers_fetch transfers_edit transfers_send
  transfers_delete transfers_save_message_ids : transfers.

Ltac transfer :=
  repeat first
    [ progress intros
    | solve [eauto with transfers]
    | apply transfers_bind
    | apply transfers_try_except
    | apply transfers_when
    | apply transfers_for_each
    | apply transfers_for_fold
    | match goal with
      | |- transfers (match ?x with _ => _ end) => destruct x
      | |- transfers (if ?b then _ else _) => destruct b
      | |- transfers (let (_, _) := ?x in _) => destruct x
      end ].

Lemma transfers_on_http_error {A} what (skip : A) e :
  transfers (DiscordUtils.on_http_error what skip e).
Proof. unfold DiscordUtils.on_http_error. transfer. Qed.

Lemma transfers_sync_page cid existing page new :
  transfers (DiscordUtils.sync_page cid existing page new).
Proof.
  pose proof (@transfers_on_http_error). destruct page as [idx embed].
  unfold DiscordUtils.sync_page. transfer.
Qed.

Lemma transfers_delete_stale cid mid :
  transfers (DiscordUtils.delete_stale cid mid).
Proof.
  pose proof (@transfers_on_http_error). unfold DiscordUtils.delete_stale.
  transfer.
Qed.

Lemma transfers_reconcile sid cid embeds :
  transfers (DiscordUtils.reconcile sid cid embeds).
Proof.
  pose proof transfers_sync_page. pose proof transfers_delete_stale.
  unfold DiscordUtils.reconcile.
  apply transfers_bind; [by apply transfers_gets|intros existing].
  transfer.
Qed.

(** ** The calls of a pass when the platform rejects none *)

Lemma calls_call {A} op (natural : world -> option (A * world)) w :
  (forall w0 a w1, natural w0 = Some (a, w1) -> trace w1 = trace w0) ->
  calls (Platform.call op natural w).2 = S (calls w).
Proof.
  intros Hnat. unfold calls.
  destruct (call_is_one_call op natural w Hnat) as (r & ->).
  rewrite length_app. simpl. lia.
Qed.

Lemma calls_fetch cid mid w :
  calls (Platform.fetch_message cid mid w).2 = S (calls w).
Proof.
  apply calls_call. intros w0 a w1 H.
  destruct (Platform.has_message cid mid w0); by simplify_eq.
Qed.

Lemma calls_edit cid mid e w :
  calls (Platform.edit cid mid e w).2 = S (calls w).
Proof.
  apply calls_call. intros w0 a w1 H.
  destruct (Platform.has_message cid mid w0); by simplify_eq.
Qed.

Lemma calls_send cid c w : calls (Platform.send cid c w).2 = S (calls w).
Proof.
  apply calls_call. intros w0 a w1 H. simpl in H.
  destruct (Platform.find_channel cid (channels w0)); by simplify_eq.
Qed.

Lemma calls_delete cid mid w :
  calls (Platform.delete cid mid w).2 = S (calls w).
Proof.
  apply calls_call. intros w0 a w1 H.
  destruct (Platform.has_message cid mid w0); by simplify_eq.
Qed.

Lemma calls_pace idx w :
  calls (when (0 <? idx)%nat (sleep 2500) w).2 = calls w.
Proof.
  destruct (0 <? idx)%nat; simpl; [|done]. by rewrite calls_emit, Nat.add_0_r.
Qed.

(** A page takes at most two calls: fetch and edit, fetch and create, or
    create. *)
Lemma sync_page_calls cid existing idx embed new w :
  calm w -> present cid w ->
  (calls (DiscordUtils.sync_page cid existing (idx, embed) new w).2
   <= calls w + 2)%nat.
Proof.
  intros Hc Hp. unfold DiscordUtils.sync_page, try_except, bind.
  pose proof (calls_pace idx w) as Hpace.
  destruct (pace_calm cid idx w Hc Hp) as (w0 & Hw0 & E0).
  rewrite Hw0 in *. cbn [fst snd] in *.
  assert (Hc0 : calm w0) by (break_evolves; done).
  assert (Hp0 : present cid w0) by (break_evolves; done).
  destruct (existing !! idx) as [mid|] eqn:Hidx.
  - pose proof (calls_fetch cid mid w0) as Hf.
    destruct (fetch_calm cid mid w0 Hc0 Hp0) as (w1 & Hw1 & E1).
    rewrite Hw1 in *. cbn [fst snd] in *.
    assert (Hc1 : calm w1) by (break_evolves; done).
    assert (Hp1 : present cid w1) by (break_evolves; done).
    assert (Hids1 : Platform.message_ids cid w1 = Platform.message_ids cid w0)
      by (break_evolves; congruence).
    destruct (Platform.has_message cid mid w0) eqn:Hhas.
    + apply has_message_elem in Hhas.
      pose proof (calls_edit cid mid embed w1) as He.
      destruct (edit_calm cid mid embed w1 Hc1 Hp1) as (w2 & Hw2 & E2);
        [by rewrite Hids1|].
      rewrite Hw2 in *. cbn [fst snd] in *. simpl. lia.
    + pose proof (calls_send cid (Embedded embed) w1) as Hs.
      destruct (send_calm cid (Embedded embed) w1 Hc1 Hp1) as (w2 & Hw2 & E2).
      rewrite Hw2 in *. cbn [fst snd] in *. simpl. lia.
  - pose proof (calls_send cid (Embedded embed) w0) as Hs.
    destruct (send_calm cid (Embedded embed) w0 Hc0 Hp0) as (w2 & Hw2 & E2).
    rewrite Hw2 in *. cbn [fst snd] in *. simpl. lia.
Qed.

Lemma sync_pages_calls cid existing embeds :
  forall k new w,
    calm w -> present cid w ->
    (calls (for_fold (enumerate_from k embeds)
              (DiscordUtils.sync_page cid existing) new w).2
     <= calls w + 2 * length embeds)%nat.
Proof.
  induction embeds as [|embed embeds IH]; intros k new w Hc Hp.
  - simpl. lia.
  - cbn [enumerate_from for_fold]. unfold bind.
    pose proof (sync_page_calls cid existing k embed new w Hc Hp) as Hstep.
    destruct (sync_page_calm cid existing k embed new w Hc Hp)
      as (x & w1 & Hw1 & Hx).
    rewrite Hw1 in *. cbn [fst snd] in *.
    assert (Hc1 : calm w1 /\ present cid w1).
    { destruct Hx as [(_ & _ & E)|(_ & _ & E)]; break_evolves; done. }
    destruct Hc1 as [Hc1 Hp1].
    specialize (IH (S k) (new ++ [x]) w1 Hc1 Hp1). simpl length. lia.
Qed.

Lemma delete_stale_calls cid mid w :
  calm w -> present cid w ->
  (calls (DiscordUtils.delete_stale cid mid w).2 <= calls w + 2)%nat.
Proof.
  intros Hc Hp. unfold DiscordUtils.delete_stale, try_except, bind.
  pose proof (calls_fetch cid mid w) as Hf.
  destruct (fetch_calm cid mid w Hc Hp) as (w1 & Hw1 & E1).
  rewrite Hw1 in *. cbn [fst snd] in *.
  assert (Hc1 : calm w1) by (break_evolves; done).
  assert (Hp1 : present cid w1) by (break_evolves; done).
  assert (Hids1 : Platform.message_ids cid w1 = Platform.message_ids cid w)
    by (break_evolves; done).
  destruct (Platform.has_message cid mid w) eqn:Hhas.
  - apply has_message_elem in Hhas.
    pose proof (calls_delete cid mid w1) as Hd.
    destruct (delete_calm cid mid w1 Hc1 Hp1) as (w2 & Hw2 & E2);
      [by rewrite Hids1|].
    rewrite Hw2 in *. cbn [fst snd] in *. simpl. lia.
  - simpl. lia.
Qed.

Lemma delete_all_calls cid ids :
  forall w,
    calm w -> present cid w ->
    (calls (for_each ids (DiscordUtils.delete_stale cid) w).2
     <= calls w + 2 * length ids)%nat.
Proof.
  induction ids as [|mid ids IH]; intros w Hc Hp.
  - simpl. lia.
  - cbn [for_each]. unfold bind.
    pose proof (delete_stale_calls cid mid w Hc Hp) as Hstep.
    destruct (delete_stale_calm cid mid w Hc Hp) as (w1 & n1 & Hw1 & E1 & _).
    rewrite Hw1 in *. cbn [fst snd] in *.
    assert (Hc1 : calm w1) by (break_evolves; done).
    assert (Hp1 : present cid w1) by (break_evolves; done).
    specialize (IH w1 Hc1 Hp1). simpl length. lia.
Qed.

(** ** The loop over the surplus messages under tolerable rejections *)

Lemma call_tolerated {A} op (natural : world -> option (A * world)) w :
  Forall tolerable (rejections w) ->
  (forall w0 a w1, natural w0 = Some (a, w1) ->
                   db w1 = db w0 /\ rejections w1 = rejections w0) ->
  exists r v,
    Platform.call op natural w = (r, v)
    /\ Forall tolerable (rejections v)
    /\ db v = db w
    /\ match r with
       | Raise e => is_HTTPException e = true /\ exn_status e <> 429
       | Ret _ => True
       end.
Proof.
  intros Htol Hnat. unfold Platform.call, Platform.next_rejection.
  destruct (rejections w) as [|[e|] rest] eqn:E; simpl.
  - destruct (natural w) as [[a w2]|] eqn:N.
    + destruct (Hnat _ _ _ N) as [Hdb Hrej]. eexists _, _.
      split; [reflexivity|]. simpl. rewrite Hrej, E. by repeat split.
    + eexists _, _. split; [reflexivity|]. simpl. rewrite E. by repeat split.
  - apply Forall_cons in Htol as [[Hh Hs] Hrest]. eexists _, _.
    split; [reflexivity|]. simpl. by repeat split.
  - apply Forall_cons in Htol as [_ Hrest].
    destruct (natural (set_rejections rest w)) as [[a w2]|] eqn:N.
    + destruct (Hnat _ _ _ N) as [Hdb Hrej]. eexists _, _.
      split; [reflexivity|]. simpl. rewrite Hrej, Hdb. by repeat split.
    + eexists _, _. split; [reflexivity|]. simpl. by repeat split.
Qed.

Lemma handler_tolerated e w :
  is_HTTPException e = true -> exn_status e <> 429 ->
  exists v,
    (match e with
     | NotFound => ret tt
     | _ => DiscordUtils.on_http_error "deleting message" tt e
     end) w = (Ret tt, v)
    /\ rejections v = rejections w /\ db v = db w.
Proof.
  intros Hhttp Hst. unfold DiscordUtils.on_http_error. rewrite Hhttp.
  apply Z.eqb_neq in Hst. rewrite Hst.
  destruct e; try discriminate Hhttp; eexists; (split; [reflexivity|]); done.
Qed.

Lemma delete_stale_tolerated cid mid w :
  Forall tolerable (rejections w) ->
  exists v,
    DiscordUtils.delete_stale cid mid w = (Ret tt, v)
    /\ Forall tolerable (rejections v) /\ db v = db w.
Proof.
  intros Htol. unfold DiscordUtils.delete_stale, try_except, bind.
  destruct (call_tolerated (OpFetch cid mid)
              (fun w => if Platform.has_message cid mid w
                        then Some (mid, w) else None) w Htol)
    as (r1 & v1 & Hr1 & Htol1 & Hdb1 & He1).
  { intros w0 a w1 H. destruct (Platform.has_message cid mid w0); by simplify_eq. }
  unfold Platform.fetch_message. rewrite Hr1.
  destruct r1 as [msg|e].
  - destruct (call_tolerated (OpDelete cid msg)
                (fun w =>
                   if Platform.has_message cid msg w
                   then Some (tt, Platform.update_history cid
                                    (filter (fun m => m.1 <> msg)) w)
                   else None) v1 Htol1)
      as (r2 & v2 & Hr2 & Htol2 & Hdb2 & He2).
    { intros w0 a w1 H. destruct (Platform.has_message cid msg w0); by simplify_eq. }
    unfold Platform.delete. rewrite Hr2.
    destruct r2 as [[]|e].
    + exists v2. split; [done|]. split; [done|]. congruence.
    + destruct He2 as [Hh Hs].
      destruct (handler_tolerated e v2 Hh Hs) as (v3 & -> & Hrej3 & Hdb3).
      exists v3. split; [done|]. rewrite Hrej3. split; [done|]. congruence.
  - destruct He1 as [Hh Hs].
    destruct (handler_tolerated e v1 Hh Hs) as (v3 & -> & Hrej3 & Hdb3).
    exists v3. split; [done|]. rewrite Hrej3. split; [done|]. congruence.
Qed.

Lemma delete_all_tolerated cid ids :
  forall w,
    Forall tolerable (rejections w) ->
    exists v,
      for_each ids (DiscordUtils.delete_stale cid) w = (Ret tt, v)
      /\ db v = db w.
Proof.
  induction ids as [|mid ids IH]; intros w Htol.
  - by exists w.
  - cbn [for_each]. unfold bind.
    destruct (delete_stale_tolerated cid mid w Htol) as (v1 & -> & Htol1 & Hdb1).
    destruct (IH v1 Htol1) as (v2 & -> & Hdb2).
    exists v2. split; [done|]. congruence.
Qed.

(** ** Synchronization passes *)

(** C3 (amended): for a group whose list channel the pass reaches and
    whose stored ids are distinct ids issued by the platform, when the
    platform accepts the calls made for the pages (at most two a page) and
    rejects a later call, in the loop over the surplus messages, with
    nothing but a platform error other than a rate limit, the stored list
    has after the pass as many ids as pages were rendered from the member
    list. *)
Theorem stored_ids_match_pages_when_pages_accepted (sid : string) (cid : Z)
    (w : world) :
  list_channel sid w = Some cid ->
  issued_ids sid w ->
  accepts (2 * length (rendered_pages sid w)) w ->
  Forall tolerable (rejections w) ->
  length (stored_ids sid (exec (DiscordUtils.update_list sid) w))
  = length (rendered_pages sid w).
Proof.
  intros Hch [Hnd Hlt] Hacc Htol. unfold exec.
  rewrite (update_list_reconciles sid cid w Hch). unfold try_except.
  destruct (list_channel_inv sid cid w Hch) as (_ & _ & _ & Hp & _).
  set (embeds := rendered_pages sid w) in *.
  set (w0 := emit (Synchronized sid) w).
  set (existing := stored_ids sid w) in *.
  unfold DiscordUtils.reconcile, bind at 1, gets at 1. cbn [fst snd].
  change (Database.get_message_ids (db w0) sid) with existing.
  destruct (transfers_for_fold (enumerate embeds)
              (DiscordUtils.sync_page cid existing) []
              (transfers_sync_page cid existing) w0 (rejections w0))
    as (c & Hc & _ & Ht).
  cbv zeta in Hc, Ht. rewrite script_id in Ht.
  set (wq := set_rejections [] w0) in *.
  destruct (sync_pages_calm cid existing embeds 0 [] wq)
    as (ids & v1 & Hrun & Hlen & _ & Hdb1 & _ & _ & _ & _ & _ & _ & Hnodup & _);
    [done..|].
  pose proof (sync_pages_calls cid existing embeds 0 [] wq) as Hcalls.
  unfold enumerate in *. rewrite Hrun in *. cbn [fst snd] in *.
  assert (Hle : (c <= 2 * length embeds)%nat).
  { assert (calls wq = calls w0) by done.
    assert (calm wq) by done. assert (present cid wq) by done.
    specialize (Hcalls ltac:(done) ltac:(done)). lia. }
  unfold bind at 1. rewrite Ht by (eapply Forall_take_le; [exact Hle|exact Hacc]).
  set (w1 := set_rejections (drop c (rejections w0)) v1).
  destruct (delete_all_tolerated cid (drop (length embeds) existing) w1)
    as (w2 & Hdel & Hdb2).
  { subst w1. simpl. by apply Forall_drop. }
  unfold bind at 1. rewrite Hdel. rewrite app_nil_l.
  destruct (save_message_ids_calm sid ids w2 (Hnodup Hnd Hlt))
    as (d' & Hsave & ->).
  apply save_message_ids_read in Hsave as (_ & _ & Hread).
  cbn [snd]. unfold stored_ids. simpl. by rewrite Hread.
Qed.

Lemma stored_ids_match_pages_when_pages_accepted_witness :
  length (stored_ids "1"
            (exec (DiscordUtils.update_list "1") Cases.rejected_deletion))
  = length (rendered_pages "1" Cases.rejected_deletion).
Proof.
  apply (stored_ids_match_pages_when_pages_accepted "1" 10
           Cases.rejected_deletion).
  - reflexivity.
  - unfold issued_ids. apply (bool_decide_unpack _). vm_compute. exact I.
  - unfold accepts. vm_compute. repeat constructor.
  - vm_compute. repeat constructor; done.
Defined.

Lemma reconcile_calls sid cid embeds (handler : exn -> M world unit) w :
  calm w -> present cid w ->
  (forall e v, calls (handler e v).2 = calls v) ->
  (calls (try_except (DiscordUtils.reconcile sid cid embeds) handler w).2
   <= calls w + 2 * length embeds
      + 2 * length (drop (length embeds) (stored_ids sid w)))%nat.
Proof.
  intros Hc Hp Hh. unfold try_except, DiscordUtils.reconcile, bind, gets.
  cbn [fst snd]. fold (stored_ids sid w). set (existing := stored_ids sid w).
  pose proof (sync_pages_calls cid existing embeds 0 [] w Hc Hp) as H1.
  destruct (sync_pages_calm cid existing embeds 0 [] w Hc Hp)
    as (ids & w1 & Hrun & _ & Hc1 & _ & Hp1 & _).
  unfold enumerate. rewrite Hrun in *. cbn [fst snd] in *.
  pose proof (delete_all_calls cid (drop (length embeds) existing) w1 Hc1 Hp1)
    as H2.
  destruct (delete_all_calm cid (drop (length embeds) existing) w1 Hc1 Hp1)
    as (w2 & rest & n & Hdel & _).
  rewrite Hdel in *. cbn [fst snd] in *.
  unfold DiscordUtils.save_message_ids.
  destruct (Database.save_message_ids (db w2) sid ([] ++ ids)); cbn [fst snd].
  - change (calls (set_db ?f ?x)) with (calls x). lia.
  - rewrite Hh. lia.
Qed.

(** A pass whose calls the platform accepts runs as it runs under the
    empty script; a pass makes at most two calls for a page (fetch and edit,
    or fetch and create) and two for a surplus message (fetch and
    delete). *)
Lemma update_list_accepted sid cid w :
  list_channel sid w = Some cid ->
  accepts (2 * length (rendered_pages sid w)
           + 2 * length (drop (length (rendered_pages sid w)) (stored_ids sid w)))
          w ->
  exists c,
    DiscordUtils.update_list sid w
    = ((DiscordUtils.update_list sid (set_rejections [] w)).1,
       set_rejections (drop c (rejections w))
         (DiscordUtils.update_list sid (set_rejections [] w)).2).
Proof.
  intros Hch Hacc.
  assert (Hch' : list_channel sid (set_rejections [] w) = Some cid) by done.
  rewrite (update_list_reconciles sid cid w Hch),
    (update_list_reconciles sid cid _ Hch').
  change (rendered_pages sid (set_rejections [] w)) with (rendered_pages sid w).
  set (embeds := rendered_pages sid w) in *.
  set (handler := fun _ : exn => log Error ("Update error in " +:+ sid)).
  set (w0 := emit (Synchronized sid) w).
  change (emit (Synchronized sid) (set_rejections [] w))
    with (set_rejections [] w0).
  destruct (list_channel_inv sid cid w Hch) as (_ & _ & _ & Hp & _).
  assert (Htr : transfers (try_except (DiscordUtils.reconcile sid cid embeds)
                             handler)).
  { apply transfers_try_except; [apply transfers_reconcile|].
    intros e. apply transfers_log. }
  destruct (Htr w0 (rejections w0)) as (c & Hc & _ & Ht).
  cbv zeta in Hc, Ht. rewrite script_id in Ht.
  pose proof (reconcile_calls sid cid embeds handler (set_rejections [] w0))
    as Hcalls.
  assert (Hle : (c <= 2 * length embeds
                      + 2 * length (drop (length embeds) (stored_ids sid w)))%nat).
  { assert (calls (set_rejections [] w0) = calls w0) by done.
    specialize (Hcalls ltac:(done) ltac:(done)).
    change (stored_ids sid (set_rejections [] w0)) with (stored_ids sid w)
      in Hcalls.
    assert (forall e v, calls (handler e v).2 = calls v) as Hh.
    { intros e v. subst handler. simpl. by rewrite calls_emit, Nat.add_0_r. }
    specialize (Hcalls Hh). lia. }
  exists c. apply Ht. eapply Forall_take_le; [exact Hle|exact Hacc].
Qed.

(** A pass from a settled state in a calm world: every page has its
    stored message, and the pass edits them. *)
Lemma update_list_settled sid cid w :
  calm w ->
  list_channel sid w = Some cid ->
  NoDup (stored_ids sid w) ->
  length (stored_ids sid w) = length (rendered_pages sid w) ->
  Forall (fun mid => mid ∈ Platform.message_ids cid w) (stored_ids sid w) ->
  let w' := (DiscordUtils.update_list sid w).2 in
  creations w' = creations w
  /\ deletions w' = deletions w
  /\ edit_calls w' = edit_calls w ++ zip (stored_ids sid w) (rendered_pages sid w)
  /\ stored_ids sid w' = stored_ids sid w.
Proof.
  intros Hc Hch Hnd Hlen Hin. cbv zeta.
  rewrite (update_list_reconciles sid cid w Hch). unfold try_except.
  destruct (list_channel_inv sid cid w Hch) as (_ & _ & _ & Hp & _).
  destruct (reconcile_settled sid cid (rendered_pages sid w)
              (emit (Synchronized sid) w))
    as (w2 & -> & Hstored & Hcre & Hdel & Hed); [done..|].
  cbn [snd].
  rewrite creations_emit, Nat.add_0_r in Hcre.
  rewrite deletions_emit, Nat.add_0_r in Hdel.
  rewrite edit_calls_emit, app_nil_r in Hed.
  done.
Qed.

(** C5, as stated, fails: the platform rejects the edit of page 1 with a
    server error during the first pass. The member list is the same for
    both passes and the two messages are still in the channel, but the
    first pass has stored the id of page 2 only; the second pass edits that
    message with page 1, creates a message for page 2 and stores another
    list. *)
Lemma second_pass_creates_a_message :
  let w := Cases.rejected_edit in
  let w1 := exec (DiscordUtils.update_list "1") w in
  let w2 := exec (DiscordUtils.update_list "1") w1 in
  Database.get_members (db w1) "1" = Database.get_members (db w) "1"
  /\ Platform.message_ids 10 w1 = [100; 101]
  /\ stored_ids "1" w1 = [101]
  /\ rejections w1 = []
  /\ creations w2 = S (creations w1)
  /\ fst <$> edited (trace w2) = [101; 101]
  /\ stored_ids "1" w2 = [101; 200]
  /\ stored_ids "1" w2 <> stored_ids "1" w1.
Proof. vm_compute. repeat split; try reflexivity. discriminate. Qed.

(** C5 (amended): two passes in succession over a group. The member list,
    and so the rendered pages, are the same for both. When the first pass
    has left one stored message for each page, all of them in the list
    channel, which the second pass reaches, and the platform accepts the
    calls of the second pass (two a page), the second pass requests no
    creation and no deletion, its edits are, page by page, the edits of the
    messages stored by the first pass, and it stores the list the first
    pass stored. *)
Theorem synchronization_is_idempotent (sid : string) (cid : Z) (w : world) :
  let w1 := exec (DiscordUtils.update_list sid) w in
  let w2 := exec (DiscordUtils.update_list sid) w1 in
  list_channel sid w1 = Some cid ->
  NoDup (stored_ids sid w1) ->
  length (stored_ids sid w1) = length (rendered_pages sid w1) ->
  Forall (fun mid => mid ∈ Platform.message_ids cid w1) (stored_ids sid w1) ->
  accepts (2 * length (rendered_pages sid w1)) w1 ->
  rendered_pages sid w1 = rendered_pages sid w
  /\ creations w2 = creations w1
  /\ deletions w2 = deletions w1
  /\ edit_calls w2
     = edit_calls w1 ++ zip (stored_ids sid w1) (rendered_pages sid w1)
  /\ stored_ids sid w2 = stored_ids sid w1.
Proof.
  intros w1 w2 Hch Hnd Hlen Hin Hacc. split.
  { subst w1. unfold exec, rendered_pages.
    destruct (update_list_tables sid w) as (_ & Hs & Hm).
    by rewrite (get_server_config_servers _ _ _ Hs),
               (get_members_members _ _ _ Hm). }
  destruct (update_list_accepted sid cid w1 Hch) as (c & Hrun).
  { rewrite <- Hlen, drop_all. simpl. rewrite Nat.add_0_r.
    by rewrite Hlen. }
  subst w2. unfold exec. rewrite Hrun. cbn [snd].
  change (creations (set_rejections ?rs ?x)) with (creations x).
  change (deletions (set_rejections ?rs ?x)) with (deletions x).
  change (edit_calls (set_rejections ?rs ?x)) with (edit_calls x).
  change (stored_ids sid (set_rejections ?rs ?x)) with (stored_ids sid x).
  apply (update_list_settled sid cid (set_rejections [] w1)); done.
Qed.

Lemma synchronization_is_idempotent_witness :
  let w1 := exec (DiscordUtils.update_list "1") Cases.rejected_deletion in
  let w2 := exec (DiscordUtils.update_list "1") w1 in
  rendered_pages "1" w1 = rendered_pages "1" Cases.rejected_deletion
  /\ creations w2 = creations w1
  /\ deletions w2 = deletions w1
  /\ edit_calls w2
     = edit_calls w1 ++ zip (stored_ids "1" w1) (rendered_pages "1" w1)
  /\ stored_ids "1" w2 = stored_ids "1" w1.
Proof.
  apply (synchronization_is_idempotent "1" 10 Cases.rejected_deletion).
  - reflexivity.
  - apply (bool_decide_unpack _). vm_compute. exact I.
  - vm_compute. reflexivity.
  - apply (bool_decide_unpack _). vm_compute. exact I.
  - unfold accepts. vm_compute. constructor.
Defined.

Lemma find_channel_update_other cid cid' f w :
  cid' <> cid ->
  Platform.find_channel cid' (channels (Platform.update_history cid f w))
  = Platform.find_channel cid' (channels w).
Proof.
  intros Hne. unfold Platform.update_history, Platform.find_channel. simpl.
  induction (channels w) as [|c cs IH]; [done|].
  rewrite fmap_cons, !filter_cons.
  destruct (decide (channel_id c = cid)) as [E|E]; simpl.
  - rewrite !decide_False by congruence. apply IH.
  - destruct (decide (channel_id c = cid')); simpl; by rewrite ?IH.
Qed.

(** A pass that reaches channel [cid] leaves the other channels alone. *)
Lemma reconcile_other_channels sid cid cid' embeds :
  cid' <> cid ->
  keeps (fun w => Platform.find_channel cid' (channels w))
    (DiscordUtils.reconcile sid cid embeds).
Proof.
  intros Hne.
  assert (Hfetch : forall mid,
    keeps (fun w => Platform.find_channel cid' (channels w))
      (Platform.fetch_message cid mid)).
  { intros mid. apply keeps_call; try done. intros w a w' H. simpl in H.
    destruct (Platform.has_message cid mid w); by simplify_eq. }
  assert (Hedit : forall mid e,
    keeps (fun w => Platform.find_channel cid' (channels w))
      (Platform.edit cid mid e)).
  { intros mid e. apply keeps_call; try done. intros w a w' H. simpl in H.
    destruct (Platform.has_message cid mid w); simplify_eq.
    by apply find_channel_update_other. }
  assert (Hsend : forall c,
    keeps (fun w => Platform.find_channel cid' (channels w))
      (Platform.send cid c)).
  { intros c. apply keeps_call; try done. intros w a w' H. simpl in H.
    destruct (Platform.find_channel cid (channels w)); simplify_eq.
    by apply find_channel_update_other. }
  assert (Hdelete : forall mid,
    keeps (fun w => Platform.find_channel cid' (channels w))
      (Platform.delete cid mid)).
  { intros mid. apply keeps_call; try done. intros w a w' H. simpl in H.
    destruct (Platform.has_message cid mid w); simplify_eq.
    by apply find_channel_update_other. }
  assert (Hsleep : forall ms,
    keeps (fun w => Platform.find_channel cid' (channels w)) (sleep ms))
    by by intros ms w.
  assert (Hlog : forall lvl msg,
    keeps (fun w => Platform.find_channel cid' (channels w)) (log lvl msg))
    by by intros lvl msg w.
  assert (Hsave : forall ids,
    keeps (fun w => Platform.find_channel cid' (channels w))
      (DiscordUtils.save_message_ids sid ids)).
  { intros ids w. unfold DiscordUtils.save_message_ids.
    by destruct (Database.save_message_ids (db w) sid ids). }
  unfold DiscordUtils.reconcile, DiscordUtils.sync_page,
    DiscordUtils.delete_stale, DiscordUtils.on_http_error.
  keep.
Qed.

(** A pass over no page in a calm world. *)
Lemma update_list_empty sid cid w :
  calm w ->
  list_channel sid w = Some cid ->
  rendered_pages sid w = [] ->
  let w' := (DiscordUtils.update_list sid w).2 in
  (forall mid, mid ∈ stored_ids sid w -> mid ∉ Platform.message_ids cid w')
  /\ creations w' = creations w
  /\ edit_calls w' = edit_calls w
  /\ stored_ids sid w' = [].
Proof.
  intros Hc Hch Hpages. cbv zeta.
  rewrite (update_list_reconciles sid cid w Hch). unfold try_except.
  destruct (list_channel_inv sid cid w Hch) as (_ & _ & _ & Hp & _).
  rewrite Hpages.
  destruct (reconcile_empty sid cid (emit (Synchronized sid) w))
    as (w2 & -> & Hgone & Hcre & Hed & Hstored); [done..|].
  cbn [snd].
  rewrite creations_emit, Nat.add_0_r in Hcre.
  rewrite edit_calls_emit, app_nil_r in Hed.
  done.
Qed.

(** C10, as stated, fails: the group has no member and two stored
    messages, one of which is gone; the platform rejects the deletion of
    the other with a server error. The pass logs the error and stores the
    empty list: the message stays in the list channel, and nothing in the
    store points to it any more. *)
Lemma rejected_deletion_leaves_message :
  let w := Cases.rejected_clearing in
  let w' := exec (DiscordUtils.update_list "1") w in
  Database.get_members (db w) "1" = []
  /\ rendered_pages "1" w = []
  /\ stored_ids "1" w = [100; 101]
  /\ Platform.message_ids 10 w = [101]
  /\ (fun c => (op_target c.1, c.2)) <$> platform_calls (trace w')
     = [ (Some 100, Some NotFound);
         (Some 101, None);
         (Some 101, Some (HTTPException 500)) ]
  /\ Platform.message_ids 10 w' = [101]
  /\ stored_ids "1" w' = [].
Proof. vm_compute. repeat split; reflexivity. Qed.

(** C10 (amended): a pass over a group without members that reaches the
    list channel renders no page. When the platform accepts its calls (two
    for each stored message), none of the previously stored messages is
    left in the list channel (a message already gone is passed over), the
    other channels are as they were, so that a stored message posted
    elsewhere stays, no creation and no edit is requested, and the empty
    list is stored. *)
Theorem empty_roster_clears_display (sid : string) (cid : Z) (w : world) :
  list_channel sid w = Some cid ->
  Database.get_members (db w) sid = [] ->
  accepts (2 * length (stored_ids sid w)) w ->
  let w' := exec (DiscordUtils.update_list sid) w in
  rendered_pages sid w = []
  /\ (forall mid, mid ∈ stored_ids sid w ->
                  mid ∉ Platform.message_ids cid w')
  /\ (forall cid', cid' <> cid ->
                   Platform.message_ids cid' w' = Platform.message_ids cid' w)
  /\ creations w' = creations w
  /\ edit_calls w' = edit_calls w
  /\ stored_ids sid w' = [].
Proof.
  intros Hch Hempty Hacc. cbv zeta.
  destruct (list_channel_inv sid cid w Hch) as (config & Hcfg & _ & Hp & _).
  assert (Hpages : rendered_pages sid w = []).
  { unfold rendered_pages. by rewrite Hcfg, Hempty. }
  split; [done|].
  assert (Hother : forall cid', cid' <> cid ->
    Platform.message_ids cid' (exec (DiscordUtils.update_list sid) w)
    = Platform.message_ids cid' w).
  { intros cid' Hne. unfold exec.
    rewrite (update_list_reconciles sid cid w Hch).
    assert (Hk : keeps (fun w => Platform.find_channel cid' (channels w))
                   (try_except
                      (DiscordUtils.reconcile sid cid (rendered_pages sid w))
                      (fun _ => log Error ("Update error in " +:+ sid)))).
    { apply keeps_try_except; [by apply reconcile_other_channels|].
      by intros e v. }
    unfold Platform.message_ids. by rewrite Hk. }
  destruct (update_list_accepted sid cid w Hch) as (c & Hrun).
  { rewrite Hpages. cbn [length]. by rewrite drop_0, Nat.mul_0_r, Nat.add_0_l. }
  pose proof (update_list_empty sid cid (set_rejections [] w)) as Hcalm.
  cbv zeta in Hcalm.
  specialize (Hcalm ltac:(done) ltac:(done) Hpages).
  destruct Hcalm as (Hgone & Hcre & Hed & Hstored).
  unfold exec in *. rewrite Hrun in *. cbn [snd] in *.
  split; [exact Hgone|]. split; [exact Hother|].
  split; [exact Hcre|]. split; [exact Hed|exact Hstored].
Qed.

Lemma empty_roster_clears_display_witness :
  let w' := exec (DiscordUtils.update_list "1") Cases.late_rejection in
  rendered_pages "1" Cases.late_rejection = []
  /\ (forall mid, mid ∈ stored_ids "1" Cases.late_rejection ->
                  mid ∉ Platform.message_ids 10 w')
  /\ (forall cid', cid' <> 10 ->
                   Platform.message_ids cid' w'
                   = Platform.message_ids cid' Cases.late_rejection)
  /\ creations w' = creations Cases.late_rejection
  /\ edit_calls w' = edit_calls Cases.late_rejection
  /\ stored_ids "1" w' = [].
Proof.
  apply (empty_roster_clears_display "1" 10 Cases.late_rejection).
  - reflexivity.
  - reflexivity.
  - unfold accepts. vm_compute. repeat constructor.
Defined.

(** ** The sweep, group by group and member by member *)

Lemma try_except_returns {S} (body : M S unit) (handler : exn -> M S unit) s :
  (forall e s', (handler e s').1 = Ret tt) ->
  (try_except body handler s).1 = Ret tt.
Proof.
  intros H. unfold try_except.
  destruct (body s) as [[[]|e] s1]; [done|apply H].
Qed.

Lemma check_member_returns config sid name s :
  (check_member config sid name s).1 = Ret tt.
Proof.
  unfold check_member. apply try_except_returns. by intros e [w l].
Qed.

Lemma for_each_returns {S A} (xs : list A) (body : A -> M S unit) :
  (forall x s, (body x s).1 = Ret tt) ->
  forall s, (for_each xs body s).1 = Ret tt.
Proof.
  intros Hb. induction xs as [|x xs IH]; intros s; simpl; [done|].
  unfold bind. specialize (Hb x s).
  destruct (body x s) as [[[]|e] s1]; simpl in *; [apply IH|done].
Qed.

(** A loop whose body never raises goes through a list piece by piece. *)
Lemma for_each_app {S A} (xs ys : list A) (body : A -> M S unit) :
  (forall x s, (body x s).1 = Ret tt) ->
  forall s,
    for_each (xs ++ ys) body s = for_each ys body (exec (for_each xs body) s).
Proof.
  intros Hb. induction xs as [|x xs IH]; intros s; simpl; [done|].
  unfold exec, bind. specialize (Hb x s).
  destruct (body x s) as [[[]|e] s1]; simpl in *; [|done].
  by rewrite IH.
Qed.

Lemma check_server_returns sid s : (check_server sid s).1 = Ret tt.
Proof.
  unfold check_server, bind, set_local, modify, lift, gets. simpl.
  destruct (Database.get_server_config _ _); [|done].
  apply for_each_returns. intros. apply check_member_returns.
Qed.

#[local] Instance same_tables_preorder :
  PreOrder (fun d d' : database =>
              servers d' = servers d /\ members d' = members d).
Proof.
  split.
  - by intros d.
  - intros d1 d2 d3 [H1 H2] [H3 H4]. split; congruence.
Qed.

(** The tables of servers and members at the end of a sweep are those the
    loop over the groups leaves. *)
Lemma sweep_tables w :
  servers (db (exec live_guild_check w))
  = servers (db (exec (for_each (Database.select_autoremove_servers (db w))
                         check_server) (sweep_start w)).1)
  /\ members (db (exec live_guild_check w))
     = members (db (exec (for_each (Database.select_autoremove_servers (db w))
                            check_server) (sweep_start w)).1).
Proof.
  unfold exec, sweep_start.
  pose proof (for_each_returns (Database.select_autoremove_servers (db w))
                check_server check_server_returns (sweep_start w)) as Hret.
  unfold sweep_start in Hret.
  destruct (for_each _ check_server _) as [r s1] eqn:Hloop.
  simpl in Hret. subst r.
  assert (Hrun : exists r w2,
             live_guild_check w = (r, w2)
             /\ servers (db w2) = servers (db s1.1)
             /\ members (db w2) = members (db s1.1)).
  { unfold live_guild_check, try_except, sweep_body.
    unfold bind at 1. unfold lift at 1, gets at 1.
    cbn [fst snd]. unfold bind at 1. rewrite Hloop.
    pose proof (sweep_tail_moves
                  (fun d d' => servers d' = servers d /\ members d' = members d)
                  (fun d d' Hs Hm => conj Hs Hm) s1) as H.
    cbn [fst snd] in H.
    match type of H with
    | context [db (?m s1).2.1] => destruct (m s1) as [[[]|e] s2]
    end; simpl in *; eexists _, _; (split; [reflexivity|]); done. }
  destruct Hrun as (r & w2 & -> & H). done.
Qed.

(** *** The rows under one key *)

Lemma key_rows_remove_other d sid' name' sid n :
  ~ (sid' = sid /\ Text.lower name' = n) ->
  key_rows (Database.remove_member d sid' name') sid n = key_rows d sid n.
Proof.
  intros Hne. unfold key_rows, Database.remove_member. simpl.
  induction (members d) as [|r l IH]; [done|].
  rewrite !filter_cons.
  destruct (decide (~ Database.is_member_key sid' (Text.lower name') r))
    as [Hk|Hk].
  - rewrite filter_cons.
    destruct (decide (Database.is_member_key sid n r)); by rewrite IH.
  - rewrite decide_False; [done|].
    intros [Hs Hn]. apply Hk. intros [Hs' Hn']. apply Hne. split; congruence.
Qed.

Lemma key_rows_remove_same d sid name :
  key_rows (Database.remove_member d sid name) sid (Text.lower name) = [].
Proof.
  unfold key_rows, Database.remove_member. simpl.
  induction (members d) as [|r l IH]; [done|].
  rewrite filter_cons.
  destruct (decide (~ Database.is_member_key sid (Text.lower name) r))
    as [Hk|Hk]; [|done].
  rewrite filter_cons. by rewrite decide_False.
Qed.

Lemma key_rows_touch_other d now sid' name' sid n :
  ~ (sid' = sid /\ Text.lower name' = n) ->
  key_rows (Database.update_last_checked d now sid' name') sid n
  = key_rows d sid n.
Proof.
  intros Hne. unfold key_rows, Database.update_last_checked. simpl.
  induction (members d) as [|r l IH]; [done|].
  rewrite fmap_cons, !filter_cons.
  destruct (decide (Database.is_member_key sid' (Text.lower name') r))
    as [[Hs Hn]|Hk].
  - rewrite !decide_False; [done| |].
    + intros [Hs' Hn']. apply Hne. split; congruence.
    + intros [Hs' Hn']. simpl in *. apply Hne. split; congruence.
  - destruct (decide (Database.is_member_key sid n r)); by rewrite IH.
Qed.

Lemma key_rows_touch_same d now sid name :
  key_rows (Database.update_last_checked d now sid name) sid (Text.lower name)
  = Database.touch now <$> key_rows d sid (Text.lower name).
Proof.
  unfold key_rows, Database.update_last_checked. simpl.
  induction (members d) as [|r l IH]; [done|].
  rewrite fmap_cons, !filter_cons.
  destruct (decide (Database.is_member_key sid (Text.lower name) r))
    as [Hk|Hk].
  - rewrite decide_True by (destruct Hk; by split).
    by rewrite fmap_cons, IH.
  - by rewrite decide_False.
Qed.

Lemma key_rows_group d sid n :
  key_rows d sid n = filter (fun r => m_normalized_name r = n) (group_rows d sid).
Proof.
  unfold key_rows, group_rows.
  induction (members d) as [|r l IH]; [done|].
  rewrite !filter_cons. unfold Database.is_member_key at 1.
  destruct (decide (m_server_id r = sid)) as [Hs|Hs].
  - rewrite filter_cons.
    destruct (decide (m_normalized_name r = n)) as [Hn|Hn].
    + rewrite decide_True by done. by rewrite IH.
    + rewrite decide_False by (by intros [_ ?]). done.
  - rewrite decide_False by (by intros [? _]). done.
Qed.

Lemma member_exists_key_rows d sid name :
  Database.member_exists d sid name
  = bool_decide (key_rows d sid (Text.lower name) <> []).
Proof.
  unfold Database.member_exists, key_rows. apply bool_decide_ext.
  rewrite Exists_exists. split.
  - intros (r & Hin & Hkey) Hnil.
    assert (r ∈ filter (Database.is_member_key sid (Text.lower name)) (members d))
      as Hr by (by apply list_elem_of_filter).
    rewrite Hnil in Hr. by apply elem_of_nil in Hr.
  - intros Hne.
    destruct (filter _ (members d)) as [|r l] eqn:E; [done|].
    assert (r ∈ filter (Database.is_member_key sid (Text.lower name)) (members d))
      as Hr by (rewrite E; left).
    apply list_elem_of_filter in Hr as [Hkey Hin]. by exists r.
Qed.

#[local] Instance same_key_preorder sid n : PreOrder (same_key sid n).
Proof.
  split.
  - by intros d.
  - intros d1 d2 d3 [H1 H2] [H3 H4]. split; congruence.
Qed.

Lemma same_key_check_member sid n config sid' name' :
  ~ (sid' = sid /\ Text.lower name' = n) ->
  moves (same_key sid n) (fun s : world * locals => db s.1)
    (check_member config sid' name').
Proof.
  apply (moves_check_member (same_key sid n)
           (fun sid' name' => ~ (sid' = sid /\ Text.lower name' = n))).
  - intros d sid0 name0 Hne. split; [done|]. by apply key_rows_remove_other.
  - intros d now sid0 name0 Hne. split; [done|]. by apply key_rows_touch_other.
Qed.

Lemma same_key_check_server sid n sid' :
  sid' <> sid ->
  moves (same_key sid n) (fun s : world * locals => db s.1) (check_server sid').
Proof.
  intros Hne.
  apply (moves_check_server (same_key sid n)
           (fun sid' name' => ~ (sid' = sid /\ Text.lower name' = n))).
  - intros d sid0 name0 H. split; [done|]. by apply key_rows_remove_other.
  - intros d now sid0 name0 H. split; [done|]. by apply key_rows_touch_other.
  - intros name0 [Hs _]. done.
Qed.

Lemma same_group_check_server sid sid' :
  sid' <> sid ->
  moves (fun d d' => servers d' = servers d
                     /\ group_rows d' sid = group_rows d sid)
    (fun s : world * locals => db s.1) (check_server sid').
Proof.
  intros Hne.
  apply (moves_check_server
           (fun d d' => servers d' = servers d
                        /\ group_rows d' sid = group_rows d sid)
           (fun sid0 _ => sid0 <> sid)).
  - intros d sid0 name0 H. split; [done|]. by apply group_rows_remove_member.
  - intros d now sid0 name0 H. split; [done|].
    by apply group_rows_update_last_checked.
  - done.
Qed.

#[local] Instance normalized_preorder :
  PreOrder (fun d d' : database => normalized_keys d -> normalized_keys d').
Proof.
  split.
  - by intros d.
  - intros d1 d2 d3 H1 H2 H. by apply H2, H1.
Qed.

Lemma normalized_sweep w :
  normalized_keys (db w) -> normalized_keys (db (exec live_guild_check w)).
Proof.
  unfold exec.
  apply (sweep_moves (fun d d' => normalized_keys d -> normalized_keys d')
           (fun _ _ => True)).
  - intros d sid name _. apply remove_member_normalized.
  - intros d now sid name _. apply update_last_checked_normalized.
  - intros d d' _ Hm. unfold normalized_keys. by rewrite Hm.
  - by apply Forall_forall.
Qed.

(** *** The selection names each member once *)

Lemma select_due_group d d' sid limit :
  group_rows d' sid = group_rows d sid ->
  Database.select_due d' sid limit = Database.select_due d sid limit.
Proof.
  unfold Database.select_due, Database.select_due_rows, group_rows.
  by intros ->.
Qed.

Lemma select_due_rows_sublist d sid limit :
  exists l, l ≡ₚ group_rows d sid
            /\ Database.select_due_rows d sid limit `sublist_of` l.
Proof.
  unfold Database.select_due_rows. fold (group_rows d sid).
  eexists. split; [|apply sublist_take].
  by rewrite !order_by_perm.
Qed.

Lemma elem_of_select_due_rows d sid limit r :
  r ∈ Database.select_due_rows d sid limit ->
  r ∈ members d /\ m_server_id r = sid.
Proof.
  intros Hr. destruct (select_due_rows_sublist d sid limit) as (l & Hl & Hsub).
  eapply elem_of_sublist in Hr; [|exact Hsub]. rewrite Hl in Hr.
  apply list_elem_of_filter in Hr as [Hs Hr]. done.
Qed.

Lemma group_keys_NoDup d sid :
  unique_keys d -> NoDup (m_normalized_name <$> group_rows d sid).
Proof.
  intros Hu. unfold unique_keys in Hu.
  assert (Hsub : NoDup (member_key <$> group_rows d sid)).
  { eapply sublist_NoDup; [exact Hu|].
    apply fmap_sublist, sublist_filter. }
  assert (Heq : member_key <$> group_rows d sid
                = pair sid <$> (m_normalized_name <$> group_rows d sid)).
  { rewrite <- list_fmap_compose. apply Forall_fmap_ext_1, Forall_forall.
    intros r Hr. apply list_elem_of_filter in Hr as [Hs _].
    unfold member_key. simpl. by rewrite Hs. }
  rewrite Heq in Hsub. by apply NoDup_fmap_1 in Hsub.
Qed.

Lemma select_due_NoDup d sid limit :
  unique_keys d -> normalized_keys d ->
  NoDup (Text.lower <$> Database.select_due d sid limit).
Proof.
  intros Hu Hn. unfold Database.select_due.
  destruct (select_due_rows_sublist d sid limit) as (l & Hl & Hsub).
  rewrite <- list_fmap_compose.
  assert (Heq : (Text.lower ∘ m_name) <$> Database.select_due_rows d sid limit
                = m_normalized_name <$> Database.select_due_rows d sid limit).
  { apply Forall_fmap_ext_1, Forall_forall. intros r Hr.
    apply elem_of_select_due_rows in Hr as [Hr _].
    unfold normalized_keys in Hn. rewrite Forall_forall in Hn.
    simpl. by rewrite (Hn r Hr). }
  rewrite Heq. eapply sublist_NoDup; [|by apply fmap_sublist].
  rewrite Hl. by apply group_keys_NoDup.
Qed.

Lemma selected_autoremove d sid config :
  unique_servers d ->
  sid ∈ Database.select_autoremove_servers d ->
  Database.get_server_config d sid = Some config ->
  c_autoremove config = true.
Proof.
  unfold unique_servers, Database.select_autoremove_servers,
    Database.get_server_config.
  intros Hu Hin Hcfg.
  apply list_elem_of_fmap in Hin as (r & -> & Hr).
  apply list_elem_of_filter in Hr as [Hauto Hr].
  destruct (filter _ (servers d)) as [|row rest] eqn:E; [done|].
  assert (Hrow : row ∈ filter (fun r0 => server_id r0 = server_id r) (servers d))
    by (rewrite E; left).
  apply list_elem_of_filter in Hrow as [Hid Hrow].
  assert (row = r) as ->.
  { clear -Hu Hr Hrow Hid. induction (servers d) as [|x l IH]; [by apply elem_of_nil in Hr|].
    rewrite fmap_cons in Hu. apply NoDup_cons in Hu as [Hx Hl].
    apply elem_of_cons in Hr as [->|Hr]; apply elem_of_cons in Hrow as [->|Hrow];
      try done.
    - exfalso. apply Hx. rewrite <- Hid. by apply list_elem_of_fmap_2.
    - exfalso. apply Hx. rewrite Hid. by apply list_elem_of_fmap_2.
    - by apply IH. }
  by simplify_eq.
Qed.

Lemma select_autoremove_NoDup d :
  unique_servers d -> NoDup (Database.select_autoremove_servers d).
Proof.
  unfold unique_servers, Database.select_autoremove_servers. intros Hu.
  eapply sublist_NoDup; [exact Hu|]. apply fmap_sublist, sublist_filter.
Qed.

(** *** The way of a sweep to one member *)

Lemma for_each_cons_exec {S A} (x : A) (xs : list A) (body : A -> M S unit) s :
  (forall y s', (body y s').1 = Ret tt) ->
  exec (for_each (x :: xs) body) s = exec (for_each xs body) (exec (body x) s).
Proof.
  intros Hb. unfold exec. simpl. unfold bind. specialize (Hb x s).
  destruct (body x s) as [[[]|e] s1]; simpl in *; done.
Qed.

Lemma for_each_app_exec {S A} (xs ys : list A) (body : A -> M S unit) s :
  (forall y s', (body y s').1 = Ret tt) ->
  exec (for_each (xs ++ ys) body) s
  = exec (for_each ys body) (exec (for_each xs body) s).
Proof. intros Hb. unfold exec at 1 2. by rewrite for_each_app. Qed.

(** The groups swept before a group leave its rows and its configuration
    alone, so its members are selected from the table as the sweep found
    it. *)
Lemma sweep_reaches_group w before sid config :
  sid ∉ before ->
  Database.get_server_config (db w) sid = Some config ->
  let s0 := exec (for_each before check_server) (sweep_start w) in
  servers (db s0.1) = servers (db w)
  /\ group_rows (db s0.1) sid = group_rows (db w) sid
  /\ check_server sid s0
     = for_each (Database.select_due (db w) sid CHECK_LIMIT)
         (check_member config sid) (s0.1, bind_server_id sid s0.2).
Proof.
  intros Hout Hcfg s0.
  assert (H0 : servers (db s0.1) = servers (db w)
               /\ group_rows (db s0.1) sid = group_rows (db w) sid).
  { apply (moves_for_each
             (fun d d' => servers d' = servers d
                          /\ group_rows d' sid = group_rows d sid)
             (fun s : world * locals => db s.1) before check_server).
    intros x Hx. apply same_group_check_server. by intros ->. }
  destruct H0 as [Hs Hg]. repeat split; [done|done|].
  rewrite (check_server_runs_selection sid config).
  - by rewrite (select_due_group _ _ _ _ Hg).
  - by rewrite (get_server_config_servers _ _ _ Hs).
Qed.

(** ** The selection of a sweep *)

(** C8: a sweep reaches a group after the groups selected before it, with
    the rows of the group as they were when the sweep began. For such a
    group the selection, run with [CHECK_LIMIT], returns
    [min(CHECK_LIMIT, n)] of the [n] members of the group, in ascending
    order of their last-checked time, and no member left out was checked
    earlier than a member selected. The sweep verifies the members
    selected, in this order and no others of the group: the pass over the
    group is the member loop over their names, the loop over the groups
    goes on from there with the groups that follow, and the member table
    at the end of the sweep is the one this leaves. *)
Theorem selection_is_oldest_first (w : world) (before after : list string)
    (sid : string) (config : config) :
  unique_servers (db w) ->
  Database.select_autoremove_servers (db w) = before ++ sid :: after ->
  Database.get_server_config (db w) sid = Some config ->
  let group := group_rows (db w) sid in
  let due := Database.select_due_rows (db w) sid CHECK_LIMIT in
  let s0 := exec (for_each before check_server) (sweep_start w) in
  let s1 := exec (for_each (m_name <$> due) (check_member config sid))
              (s0.1, bind_server_id sid s0.2) in
  length due = Nat.min CHECK_LIMIT (length group)
  /\ StronglySorted (fun a b => m_last_checked a <= m_last_checked b) due
  /\ (exists rest,
        group ≡ₚ due ++ rest
        /\ forall a b, a ∈ due -> b ∈ rest ->
                       m_last_checked a <= m_last_checked b)
  /\ exec (check_server sid) s0 = s1
  /\ exec (for_each (Database.select_autoremove_servers (db w)) check_server)
       (sweep_start w)
     = exec (for_each after check_server) s1
  /\ members (db (exec live_guild_check w))
     = members (db (exec (for_each after check_server) s1).1).
Proof.
  intros Hus Hids Hcfg group due s0 s1.
  assert (Hout : sid ∉ before).
  { pose proof (select_autoremove_NoDup _ Hus) as Hnd. rewrite Hids in Hnd.
    apply NoDup_app in Hnd as (_ & Hnd & _). intros Hin.
    apply (Hnd _ Hin). left. }
  destruct (sweep_reaches_group w before sid config Hout Hcfg)
    as (_ & _ & Hrun).
  fold s0 in Hrun.
  assert (Hgroup : exec (check_server sid) s0 = s1).
  { unfold exec at 1. by rewrite Hrun. }
  assert (Hloop : exec (for_each (Database.select_autoremove_servers (db w))
                          check_server) (sweep_start w)
                  = exec (for_each after check_server) s1).
  { rewrite Hids, for_each_app_exec by apply check_server_returns.
    rewrite for_each_cons_exec by apply check_server_returns.
    fold s0. by rewrite Hgroup. }
  assert (Hle : forall a b, Database.checked_leb a b = true ->
                            m_last_checked a <= m_last_checked b).
  { intros a b. unfold Database.checked_leb. lia. }
  subst due. unfold Database.select_due_rows. fold (group_rows (db w) sid).
  fold group.
  pose proof (order_by_sorted Database.checked_leb checked_leb_total
                checked_leb_trans (order_by Database.key_leb group)) as Hs.
  set (sorted := order_by Database.checked_leb
                   (order_by Database.key_leb group)) in *.
  rewrite <- (take_drop CHECK_LIMIT sorted) in Hs.
  split; [|split; [|split; [|split; [|split]]]].
  - rewrite length_take. unfold sorted. by rewrite !length_order_by.
  - apply StronglySorted_app_1_l in Hs.
    clear -Hs Hle. induction Hs as [|x l Hl IH Hx]; constructor; [done|].
    eapply Forall_impl; [exact Hx|]. intros; by apply Hle.
  - exists (drop CHECK_LIMIT sorted). split.
    + rewrite take_drop. unfold sorted. by rewrite !order_by_perm.
    + intros a b Ha Hb. apply Hle.
      by eapply (StronglySorted_app_1_elem_of _ _ _ _ _ Hs).
  - exact Hgroup.
  - exact Hloop.
  - destruct (sweep_tables w) as [_ Hm]. by rewrite Hm, Hloop.
Qed.

Lemma selection_is_oldest_first_witness :
  m_last_checked
    <$> Database.select_due_rows (db Cases.known_times) "1" CHECK_LIMIT
  = [10; 20; 30; 40; 50]
  /\ exec (check_server "1") (sweep_start Cases.known_times)
     = exec (for_each ["b"; "d"; "e"; "c"; "a"]
               (check_member (Scenario.config_of true) "1"))
         (Cases.known_times,
          bind_server_id "1" (sweep_start Cases.known_times).2).
Proof.
  split; [reflexivity|].
  pose proof (selection_is_oldest_first Cases.known_times [] [] "1"
                (Scenario.config_of true)) as H.
  cbv zeta in H.
  destruct H as (_ & _ & _ & H & _).
  - apply (bool_decide_unpack _). vm_compute. exact I.
  - reflexivity.
  - reflexivity.
  - exact H.
Defined.

(** ** The removal policy, in a sweep *)

(** C7, as stated, fails: a group with auto-remove off is not swept. Its
    member checked longest ago would be the first to be verified, and the
    verification would fail, but the sweep asks the source about nobody and
    leaves the rows of the group as they are: the last-checked times stay
    5 and 3 while the clock reads 1000. *)
Lemma unswept_member_keeps_its_stamp :
  let w := Scenario.leaver false in
  let w' := exec live_guild_check w in
  Database.get_server_config (db w) "1" = Some (Scenario.config_of false)
  /\ Database.select_due (db w) "1" CHECK_LIMIT = ["Bob"; "Alice"]
  /\ truthy (verification (Scenario.config_of false) "Bob" (sweep_start w)).1
     = false
  /\ clock w / 1000 = 1000
  /\ requested (trace w') = []
  /\ members (db w') = members (db w)
  /\ (fun r => (m_name r, m_last_checked r)) <$> members (db w')
     = [("Alice", 5); ("Bob", 3)].
Proof. vm_compute. repeat split; reflexivity. Qed.

(** C7 (amended): a sweep goes through the groups with auto-remove on, and
    through no other: the rows of a group that is not selected are left as
    they are. Take a group the sweep selects and a member selected in it,
    in a store whose tables have their primary keys and whose member keys
    are the lower-cased names. The group has auto-remove on. When the
    verification of the member gives a falsy value, the row of the member
    is gone at the end of the sweep and the name is not on the roster read
    for the next rendering; otherwise the row is there at the end of the
    sweep, stamped with the time at which the policy was applied. *)
Theorem removal_policy (w : world) (before after : list string) (sid : string)
    (config : config) (pre post : list string) (name : string) :
  unique_servers (db w) ->
  unique_keys (db w) ->
  normalized_keys (db w) ->
  Database.select_autoremove_servers (db w) = before ++ sid :: after ->
  Database.get_server_config (db w) sid = Some config ->
  Database.select_due (db w) sid CHECK_LIMIT = pre ++ name :: post ->
  let s0 := exec (for_each before check_server) (sweep_start w) in
  let s1 := exec (for_each pre (check_member config sid))
              (s0.1, bind_server_id sid s0.2) in
  let v := (verification config name s1).1 in
  let now := clock (verification config name s1).2 / 1000 in
  let w' := exec live_guild_check w in
  c_autoremove config = true
  /\ (truthy v = false ->
      Database.member_exists (db w') sid name = false
      /\ (name ∉ roster_names (db w') sid))
  /\ (truthy v = true ->
      exists r, r ∈ members (db w')
                /\ m_server_id r = sid /\ m_name r = name
                /\ m_last_checked r = now)
  /\ (forall sid', sid' ∉ Database.select_autoremove_servers (db w) ->
                   group_rows (db w') sid' = group_rows (db w) sid').
Proof.
  intros Hus Huk Hnk Hids Hcfg Hsel s0 s1 v now w'.
  set (n := Text.lower name).
  set (body := check_member config sid).
  (* the groups and the names are listed once *)
  pose proof (select_autoremove_NoDup _ Hus) as Hnd. rewrite Hids in Hnd.
  apply NoDup_app in Hnd as (_ & Hbefore & Hnd).
  apply NoDup_cons in Hnd as [Hafter _].
  assert (Hout : sid ∉ before).
  { intros Hin. apply (Hbefore _ Hin). left. }
  pose proof (select_due_NoDup (db w) sid CHECK_LIMIT Huk Hnk) as Hnames.
  rewrite Hsel, fmap_app, fmap_cons in Hnames.
  apply NoDup_app in Hnames as (_ & Hpre & Hnames).
  apply NoDup_cons in Hnames as [Hpost _].
  assert (Hauto : c_autoremove config = true).
  { apply (selected_autoremove (db w) sid config Hus); [|done].
    rewrite Hids. apply elem_of_app. right. left. }
  (* the row of the member *)
  assert (Hrow : exists r0, r0 ∈ key_rows (db w) sid n /\ m_name r0 = name).
  { assert (Hin : name ∈ Database.select_due (db w) sid CHECK_LIMIT).
    { rewrite Hsel. apply elem_of_app. right. left. }
    unfold Database.select_due in Hin.
    apply list_elem_of_fmap in Hin as (r0 & Hname & Hr0).
    apply elem_of_select_due_rows in Hr0 as [Hin Hs].
    exists r0. split; [|done]. apply list_elem_of_filter. split; [|done].
    split; [done|]. unfold normalized_keys in Hnk.
    rewrite Forall_forall in Hnk. rewrite (Hnk r0 Hin). subst n.
    by rewrite Hname. }
  (* the way to the member *)
  destruct (sweep_reaches_group w before sid config Hout Hcfg)
    as (_ & _ & Hrun).
  fold s0 in Hrun. rewrite Hsel in Hrun. fold body in Hrun.
  assert (Hbody : forall y s', (body y s').1 = Ret tt)
    by (intros; apply check_member_returns).
  assert (H0 : same_key sid n (db w) (db s0.1)).
  { apply (moves_for_each (same_key sid n)
             (fun s : world * locals => db s.1) before check_server).
    intros x Hx. apply same_key_check_server. by intros ->. }
  assert (Hmove : forall names (s : world * locals),
             (forall x, x ∈ names -> Text.lower x <> n) ->
             same_key sid n (db s.1) (db (exec (for_each names body) s).1)).
  { intros names s Hn.
    apply (moves_for_each (same_key sid n)
             (fun s : world * locals => db s.1) names body).
    intros x Hx. apply same_key_check_member. intros [_ Hl].
    by apply (Hn x). }
  assert (H1 : same_key sid n (db s0.1) (db s1.1)).
  { apply (Hmove pre (s0.1, bind_server_id sid s0.2)).
    intros x Hx Hl. apply (Hpre (Text.lower x)).
    - by apply list_elem_of_fmap_2.
    - rewrite Hl. left. }
  set (s2 := exec (body name) s1).
  set (s3 := exec (for_each post body) s2).
  assert (H3 : same_key sid n (db s2.1) (db s3.1)).
  { apply (Hmove post s2). intros x Hx Hl. apply Hpost.
    fold n. rewrite <- Hl. by apply list_elem_of_fmap_2. }
  assert (Hgroup : exec (check_server sid) s0 = s3).
  { unfold exec at 1. rewrite Hrun.
    change ((for_each (pre ++ name :: post) body
               (s0.1, bind_server_id sid s0.2)).2)
      with (exec (for_each (pre ++ name :: post) body)
              (s0.1, bind_server_id sid s0.2)).
    rewrite for_each_app_exec by done. by rewrite for_each_cons_exec by done. }
  set (s4 := exec (for_each after check_server) s3).
  assert (H4 : same_key sid n (db s3.1) (db s4.1)).
  { apply (moves_for_each (same_key sid n)
             (fun s : world * locals => db s.1) after check_server).
    intros x Hx. apply same_key_check_server. by intros ->. }
  assert (Hend : members (db w') = members (db s4.1)).
  { destruct (sweep_tables w) as [_ Hm]. subst w'. rewrite Hm, Hids.
    rewrite for_each_app_exec by apply check_server_returns.
    rewrite for_each_cons_exec by apply check_server_returns.
    fold s0. by rewrite Hgroup. }
  assert (Hkey' : key_rows (db w') sid n = key_rows (db s2.1) sid n).
  { unfold key_rows at 1. rewrite Hend. fold (key_rows (db s4.1) sid n).
    destruct H3 as [_ H3], H4 as [_ H4]. congruence. }
  assert (Hkey1 : key_rows (db s1.1) sid n = key_rows (db w) sid n).
  { destruct H0 as [_ H0], H1 as [_ H1]. congruence. }
  assert (Hstep : db s2.1
                  = if negb (truthy v) && c_autoremove config
                    then Database.remove_member (db s1.1) sid name
                    else Database.update_last_checked (db s1.1) now sid name).
  { subst s2 body. apply check_member_db. }
  rewrite Hauto, andb_true_r in Hstep.
  split; [done|]. split; [|split].
  - intros Hv. rewrite Hv in Hstep. simpl in Hstep.
    assert (Hgone : key_rows (db w') sid n = []).
    { rewrite Hkey', Hstep. apply key_rows_remove_same. }
    split.
    + rewrite member_exists_key_rows. fold n. rewrite Hgone.
      by apply bool_decide_eq_false; intros H.
    + intros Hin. unfold roster_names in Hin.
      apply elem_of_get_members in Hin as (r & Hr & Hs & Hname).
      pose proof (normalized_sweep w Hnk) as Hnk'. fold w' in Hnk'.
      unfold normalized_keys in Hnk'. rewrite Forall_forall in Hnk'.
      assert (Hkr : r ∈ key_rows (db w') sid n).
      { apply list_elem_of_filter. split; [|done]. split; [done|].
        rewrite (Hnk' r Hr). subst n. by rewrite Hname. }
      rewrite Hgone in Hkr. by apply elem_of_nil in Hkr.
  - intros Hv. rewrite Hv in Hstep. simpl in Hstep.
    destruct Hrow as (r0 & Hr0 & Hname).
    exists (Database.touch now r0).
    assert (Hkr : Database.touch now r0 ∈ key_rows (db w') sid n).
    { rewrite Hkey', Hstep. unfold n. rewrite key_rows_touch_same.
      fold n. rewrite Hkey1. by apply list_elem_of_fmap_2. }
    apply list_elem_of_filter in Hkr as [[Hs _] Hin].
    repeat split; done.
  - intros sid' Hsid'. subst w'. unfold exec.
    by destruct (sweep_keeps_unselected sid' w Hsid') as [_ Hg].
Qed.

Lemma removal_policy_witness :
  Database.member_exists (db (exec live_guild_check (Scenario.leaver true)))
    "1" "Bob" = false
  /\ ("Bob" ∉ roster_names (db (exec live_guild_check (Scenario.leaver true)))
                "1").
Proof.
  pose proof (removal_policy (Scenario.leaver true) [] [] "1"
                (Scenario.config_of true) [] ["Alice"] "Bob") as H.
  cbv zeta in H.
  destruct H as (_ & H & _).
  - apply (bool_decide_unpack _). vm_compute. exact I.
  - apply (bool_decide_unpack _). vm_compute. exact I.
  - unfold normalized_keys. simpl. repeat constructor.
  - reflexivity.
  - reflexivity.
  - reflexivity.
  - apply H. reflexivity.
Defined.
